(** * Generative-Adversarial-Networks-Specialization: notebooks in Rocq

    A shallow embedding of two notebooks of the repository:

    - [Components_of_StyleGAN2_(Optional).ipynb]: the class
      [ModulatedConv2d] with its two evaluation strategies;
    - the Generative Teaching Network notebook: the classes [Teacher] and
      [Learner], the outer training loop and the architecture search.

    Tensors hold real numbers (exact arithmetic); an operation that raises
    in Python returns [None] (or an exception value in the loops). *)

From Stdlib Require Import Reals ZArith List Bool Lia Lra.
Import ListNotations.

Local Open Scope Z_scope.

(** ** Errors: the option monad *)

Definition obind {A B : Type} (o : option A) (k : A -> option B) : option B :=
  match o with
  | Some a => k a
  | None => None
  end.

Notation "x <- e ;; k" := (obind e (fun x => k))
  (at level 61, e at next level, right associativity).

(** ** Tensors

    A tensor is its shape and its elements, read through a multi-index.
    Python integers (sizes, indices, [-1] in [view]) are [Z]. *)

Record tensor : Type := mkTensor { shape : list Z; elem : list Z -> R }.

Definition numel (sh : list Z) : Z := fold_right Z.mul 1 sh.

Definition rank (t : tensor) : nat := length (shape t).

(** Row-major position of a multi-index, and back. *)
Fixpoint ravel (sh idx : list Z) : Z :=
  match sh, idx with
  | _ :: sh', i :: idx' => i * numel sh' + ravel sh' idx'
  | _, _ => 0
  end.

Fixpoint unravel (sh : list Z) (k : Z) : list Z :=
  match sh with
  | [] => []
  | _ :: sh' => k / numel sh' :: unravel sh' (k mod numel sh')
  end.

Fixpoint list_eqb (a b : list Z) : bool :=
  match a, b with
  | [], [] => true
  | x :: a', y :: b' => (x =? y) && list_eqb a' b'
  | _, _ => false
  end.

Fixpoint replace_nth (n : nat) (v : Z) (l : list Z) : list Z :=
  match n, l with
  | _, [] => []
  | O, _ :: l' => v :: l'
  | S n', x :: l' => x :: replace_nth n' v l'
  end.

Fixpoint remove_nth (n : nat) (l : list Z) : list Z :=
  match n, l with
  | _, [] => []
  | O, _ :: l' => l'
  | S n', x :: l' => x :: remove_nth n' l'
  end.

(** *** Sums over index ranges *)

Fixpoint sum_upto (n : nat) (f : Z -> R) : R :=
  match n with
  | O => 0%R
  | S k => (sum_upto k f + f (Z.of_nat k))%R
  end.

Definition Rsum (n : Z) (f : Z -> R) : R := sum_upto (Z.to_nat n) f.

Fixpoint sum_over (sh : list Z) (f : list Z -> R) : R :=
  match sh with
  | [] => f []
  | d :: sh' => Rsum d (fun i => sum_over sh' (fun idx => f (i :: idx)))
  end.

Fixpoint max_upto (n : nat) (f : Z -> R) : R :=
  match n with
  | O => f 0
  | S k => Rmax (max_upto k f) (f (Z.of_nat (S k)))
  end.

(** [max_{0 <= i < n} f i], for [1 <= n]. *)
Definition Rmax_over (n : Z) (f : Z -> R) : R := max_upto (Z.to_nat (n - 1)) f.

(** *** Element-wise operations *)

Definition tmap (f : R -> R) (t : tensor) : tensor :=
  mkTensor (shape t) (fun idx => f (elem t idx)).

(** [t ** 2] *)
Definition tpow2 (t : tensor) : tensor := tmap (fun v => (v * v)%R) t.

(** [t + c] for a Python scalar [c] *)
Definition tadd_scalar (t : tensor) (c : R) : tensor := tmap (fun v => (v + c)%R) t.

(** [torch.sqrt] *)
Definition tsqrt (t : tensor) : tensor := tmap sqrt t.

(** [F.leaky_relu(x, slope)]: [max(0, x) + slope * min(0, x)]. *)
Definition leaky_relu (slope : R) (t : tensor) : tensor :=
  tmap (fun v => (Rmax 0 v + slope * Rmin 0 v)%R) t.

(** *** Broadcasting binary operations *)

Definition bdim (a b : Z) : option Z :=
  if a =? b then Some a
  else if a =? 1 then Some b
  else if b =? 1 then Some a
  else None.

Fixpoint broadcast_aligned (s1 s2 : list Z) : option (list Z) :=
  match s1, s2 with
  | [], [] => Some []
  | a :: s1', b :: s2' =>
      d <- bdim a b ;; r <- broadcast_aligned s1' s2' ;; Some (d :: r)
  | _, _ => None
  end.

Definition pad_left (n : nat) (sh : list Z) : list Z :=
  repeat 1 (n - length sh) ++ sh.

(** Shapes are aligned on the right, the shorter one padded with ones. *)
Definition broadcast_shapes (s1 s2 : list Z) : option (list Z) :=
  let r := Nat.max (length s1) (length s2) in
  broadcast_aligned (pad_left r s1) (pad_left r s2).

Fixpoint bindex (sh idx : list Z) : list Z :=
  match sh, idx with
  | d :: sh', i :: idx' => (if d =? 1 then 0 else i) :: bindex sh' idx'
  | _, _ => []
  end.

Definition bread (t : tensor) (r : nat) (idx : list Z) : R :=
  elem t (bindex (shape t) (skipn (r - rank t) idx)).

Definition broadcast2 (f : R -> R -> R) (x y : tensor) : option tensor :=
  sh <- broadcast_shapes (shape x) (shape y) ;;
  Some (mkTensor sh (fun idx => f (bread x (length sh) idx) (bread y (length sh) idx))).

(** *** Indexing *)

(** [t[i]] for a non-negative Python integer [i]. *)
Definition getitem (t : tensor) (i : Z) : option tensor :=
  match shape t with
  | [] => None
  | d :: rest =>
      if (0 <=? i) && (i <? d)
      then Some (mkTensor rest (fun idx => elem t (i :: idx)))
      else None
  end.

(** A subscript made of [:] and [None] only, as in [s[None, :, None, None]]. *)
Inductive subscript : Type := Colon | NewAxis.

Fixpoint count_colon (p : list subscript) : nat :=
  match p with
  | [] => O
  | Colon :: p' => S (count_colon p')
  | NewAxis :: p' => count_colon p'
  end.

Fixpoint subscript_shape (p : list subscript) (sh : list Z) : list Z :=
  match p with
  | [] => sh
  | NewAxis :: p' => 1 :: subscript_shape p' sh
  | Colon :: p' =>
      match sh with
      | d :: sh' => d :: subscript_shape p' sh'
      | [] => []
      end
  end.

Fixpoint subscript_index (p : list subscript) (idx : list Z) : list Z :=
  match p, idx with
  | [], _ => idx
  | _, [] => []
  | NewAxis :: p', _ :: idx' => subscript_index p' idx'
  | Colon :: p', i :: idx' => i :: subscript_index p' idx'
  end.

Definition getitem_none (p : list subscript) (t : tensor) : option tensor :=
  if (count_colon p <=? rank t)%nat
  then Some (mkTensor (subscript_shape p (shape t))
                      (fun idx => elem t (subscript_index p idx)))
  else None.

(** *** view, flatten, sum, cat *)

(** The size inference of [Tensor.view]: at most one [-1], which stands for
    the quotient and is refused when ambiguous. *)
Definition infer_size (req : list Z) (n : Z) : option (list Z) :=
  let known := filter (fun d => negb (d =? -1)) req in
  let newsize := numel known in
  if negb (forallb (fun d => 0 <=? d) known) then None
  else
    match count_occ Z.eq_dec req (-1) with
    | O => if n =? newsize then Some req else None
    | S O =>
        if (0 <? newsize) && (n mod newsize =? 0)
        then Some (map (fun d => if d =? -1 then n / newsize else d) req)
        else None
    | _ => None
    end.

Definition view (t : tensor) (req : list Z) : option tensor :=
  sh <- infer_size req (numel (shape t)) ;;
  Some (mkTensor sh (fun idx => elem t (unravel (shape t) (ravel sh idx)))).

(** [torch.flatten(t, 1)] *)
Definition flatten1 (t : tensor) : option tensor :=
  match shape t with
  | n :: (_ :: _) as rest =>
      Some (mkTensor [n; numel rest]
                     (fun idx => elem t (nth 0 idx 0 :: unravel rest (nth 1 idx 0))))
  | _ => None
  end.

(** [t.sum([lo, ..., hi-1])] over a block of adjacent dimensions. *)
Definition tsum_dims (lo hi : nat) (t : tensor) : option tensor :=
  if (hi <=? rank t)%nat
  then Some (mkTensor (firstn lo (shape t) ++ skipn hi (shape t))
               (fun idx =>
                  sum_over (firstn (hi - lo) (skipn lo (shape t)))
                    (fun r => elem t (firstn lo idx ++ r ++ skipn lo idx))))
  else None.

Fixpoint cat_elem (dim : nat) (ts : list tensor) (idx : list Z) : R :=
  match ts with
  | [] => 0%R
  | t :: ts' =>
      let d := nth dim (shape t) 0 in
      let i := nth dim idx 0 in
      if i <? d then elem t idx
      else cat_elem dim ts' (replace_nth dim (i - d) idx)
  end.

(** [torch.cat(ts, dim)] *)
Definition cat (ts : list tensor) (dim : nat) : option tensor :=
  match ts with
  | [] => None
  | t :: ts' =>
      if (dim <? rank t)%nat
         && forallb (fun u => (rank u =? rank t)%nat
                              && list_eqb (remove_nth dim (shape u))
                                          (remove_nth dim (shape t))) ts'
      then Some (mkTensor
                   (replace_nth dim
                      (fold_right (fun u acc => nth dim (shape u) 0 + acc) 0 ts)
                      (shape t))
                   (cat_elem dim ts))
      else None
  end.

(** ** torch.nn layers used by the notebooks *)

(** [F.linear(x, weight, bias)]: [x @ weight.T + bias] on the last
    dimension of [x]. *)
Definition F_linear (x weight bias : tensor) : option tensor :=
  match shape weight, shape x with
  | [o; i], _ :: _ =>
      if (last (shape x) 0 =? i) && list_eqb (shape bias) [o]
      then Some (mkTensor (removelast (shape x) ++ [o])
                   (fun idx =>
                      let j := last idx 0 in
                      (Rsum i (fun k => elem x (removelast idx ++ [k])
                                        * elem weight [j; k])
                       + elem bias [j])%R))
      else None
  | _, _ => None
  end.

(** [nn.Linear(in_features, out_features)] *)
Record Linear : Type := mkLinear { lin_weight : tensor; lin_bias : tensor }.

Definition Linear_init (in_features out_features : Z) (w b : list Z -> R) : Linear :=
  {| lin_weight := mkTensor [out_features; in_features] w;
     lin_bias := mkTensor [out_features] b |}.

Definition Linear_forward (m : Linear) (x : tensor) : option tensor :=
  F_linear x (lin_weight m) (lin_bias m).

(** [F.conv2d(input, weight, bias, stride=1, padding=p, groups=g)] *)
Definition padded (input : tensor) (h w : Z) (n c y x : Z) : R :=
  if (0 <=? y) && (y <? h) && (0 <=? x) && (x <? w)
  then elem input [n; c; y; x]
  else 0%R.

Definition F_conv2d (input weight : tensor) (bias : option tensor)
    (padding groups : Z) : option tensor :=
  match shape input, shape weight with
  | [n; c; h; w], [o; cg; kh; kw] =>
      if (0 <? groups) && (c =? cg * groups) && (o mod groups =? 0)
         && (0 <=? padding) && (0 <? kh) && (0 <? kw)
         && (kh <=? h + 2 * padding) && (kw <=? w + 2 * padding)
         && match bias with
            | Some b => list_eqb (shape b) [o]
            | None => true
            end
      then Some (mkTensor [n; o; h + 2 * padding - kh + 1; w + 2 * padding - kw + 1]
                   (fun idx =>
                      match idx with
                      | [bn; bo; y; x] =>
                          let g := bo / (o / groups) in
                          (sum_over [cg; kh; kw]
                             (fun r =>
                                match r with
                                | [ci; ky; kx] =>
                                    padded input h w bn (g * cg + ci)
                                           (y + ky - padding) (x + kx - padding)
                                    * elem weight [bo; ci; ky; kx]
                                | _ => 0
                                end)
                           + match bias with
                             | Some b => elem b [bo]
                             | None => 0
                             end)%R
                      | _ => 0%R
                      end))
      else None
  | _, _ => None
  end.

(** [nn.Conv2d(in_channels, out_channels, kernel_size, 1, padding)] *)
Record Conv2d : Type :=
  mkConv2d { conv_w : tensor; conv_b : tensor; conv_padding : Z }.

Definition Conv2d_init (in_channels out_channels kernel_size padding : Z)
    (w b : list Z -> R) : Conv2d :=
  {| conv_w := mkTensor [out_channels; in_channels; kernel_size; kernel_size] w;
     conv_b := mkTensor [out_channels] b;
     conv_padding := padding |}.

Definition Conv2d_forward (m : Conv2d) (x : tensor) : option tensor :=
  F_conv2d x (conv_w m) (Some (conv_b m)) (conv_padding m) 1.

(** [F.max_pool2d(x, k)]: window and stride [k], no padding, floor mode. *)
Definition max_pool2d (x : tensor) (k : Z) : option tensor :=
  match shape x with
  | [n; c; h; w] =>
      let ho := (h - k) / k + 1 in
      let wo := (w - k) / k + 1 in
      if (0 <? k) && (0 <? ho) && (0 <? wo)
      then Some (mkTensor [n; c; ho; wo]
                   (fun idx =>
                      match idx with
                      | [bn; bc; y; z] =>
                          Rmax_over k (fun dy =>
                            Rmax_over k (fun dx =>
                              elem x [bn; bc; y * k + dy; z * k + dx]))
                      | _ => 0%R
                      end))
      else None
  | _ => None
  end.

(** *** Batch normalisation

    The affine parameters belong to the module; the running statistics are
    buffers, threaded as state. *)
Record BatchNorm : Type :=
  mkBatchNorm {
    num_features : Z;
    bn_ranks : list nat;      (* input ranks [_check_input_dim] accepts *)
    bn_eps : R;
    bn_momentum : R;
    bn_weight : tensor;
    bn_bias : tensor }.

Record BNBuffers : Type :=
  mkBNBuffers {
    running_mean : list Z -> R;
    running_var : list Z -> R;
    num_batches_tracked : Z }.

Definition BatchNorm1d_init (n : Z) (momentum : R) (w b : list Z -> R) : BatchNorm :=
  {| num_features := n; bn_ranks := [2%nat; 3%nat]; bn_eps := (1 / 100000)%R;
     bn_momentum := momentum;
     bn_weight := mkTensor [n] w; bn_bias := mkTensor [n] b |}.

Definition BatchNorm2d_init (n : Z) (momentum : R) (w b : list Z -> R) : BatchNorm :=
  {| num_features := n; bn_ranks := [4%nat]; bn_eps := (1 / 100000)%R;
     bn_momentum := momentum;
     bn_weight := mkTensor [n] w; bn_bias := mkTensor [n] b |}.

(** Sum of [f] over the values of channel [c]: all positions of the batch
    and of the trailing dimensions. *)
Definition channel_sum (x : tensor) (c : Z) (f : R -> R) : R :=
  match shape x with
  | n :: _ :: rest =>
      sum_over (n :: rest)
        (fun idx => match idx with
                    | i :: r => f (elem x (i :: c :: r))
                    | [] => 0%R
                    end)
  | _ => 0%R
  end.

(** Number of values per channel, [size[0] * prod(size[2:])]. *)
Definition per_channel (sh : list Z) : Z :=
  match sh with
  | n :: _ :: rest => n * numel rest
  | _ => 0
  end.

Definition batch_mean (x : tensor) (c : Z) : R :=
  (channel_sum x c (fun v => v) / IZR (per_channel (shape x)))%R.

Definition batch_var (x : tensor) (c : Z) (correction : Z) : R :=
  (channel_sum x c (fun v => (v - batch_mean x c) * (v - batch_mean x c))
   / IZR (per_channel (shape x) - correction))%R.

Definition normalise (m : BatchNorm) (x : tensor) (mu var : Z -> R) : tensor :=
  mkTensor (shape x)
    (fun idx =>
       let c := nth 1 idx 0 in
       ((elem x idx - mu c) / sqrt (var c + bn_eps m)
        * elem (bn_weight m) [c] + elem (bn_bias m) [c])%R).

(** [BatchNorm.forward]: in training mode the batch statistics normalise
    the input and the running statistics are updated; a batch with a single
    value per channel is refused ([_verify_batch_size]).  In evaluation mode
    the running statistics normalise the input. *)
Definition BatchNorm_forward (training : bool) (m : BatchNorm) (buf : BNBuffers)
    (x : tensor) : option (tensor * BNBuffers) :=
  if existsb (Nat.eqb (rank x)) (bn_ranks m)
     && (nth 1 (shape x) 0 =? num_features m)
  then
    if training then
      if per_channel (shape x) =? 1 then None
      else
        Some (normalise m x (batch_mean x) (fun c => batch_var x c 0),
              {| running_mean := fun idx =>
                   ((1 - bn_momentum m) * running_mean buf idx
                    + bn_momentum m * batch_mean x (nth 0 idx 0%Z))%R;
                 running_var := fun idx =>
                   ((1 - bn_momentum m) * running_var buf idx
                    + bn_momentum m * batch_var x (nth 0 idx 0%Z) 1)%R;
                 num_batches_tracked := num_batches_tracked buf + 1 |})
    else
      Some (normalise m x (fun c => running_mean buf [c])
                          (fun c => running_var buf [c]),
            buf)
  else None.

(** ** StyleGAN2 notebook: [ModulatedConv2d] *)

Record ModulatedConv2d : Type :=
  mkModulatedConv2d {
    conv_weight : tensor;
    style_scale_transform : Linear;
    eps : R;
    padding : Z }.

(** [__init__(w_dim, in_channels, out_channels, kernel_size, padding=1)];
    the random initial values are arguments. *)
Definition ModulatedConv2d_init (w_dim in_channels out_channels kernel_size padding : Z)
    (cw lw lb : list Z -> R) : ModulatedConv2d :=
  {| conv_weight :=
       mkTensor [out_channels; in_channels; kernel_size; kernel_size] cw;
     style_scale_transform := Linear_init w_dim in_channels lw lb;
     eps := (1 / 1000000)%R;
     padding := padding |}.

(** [(w_prime ** 2).sum([lo..hi-1])[sub] + self.eps], the quantity under
    the square root. *)
Definition demod_denominator (m : ModulatedConv2d) (lo hi : nat)
    (sub : list subscript) (w_prime : tensor) : option tensor :=
  s <- tsum_dims lo hi (tpow2 w_prime) ;;
  s' <- getitem_none sub s ;;
  Some (tadd_scalar s' (eps m)).

(** [w_prime / torch.sqrt(denominator)] *)
Definition demodulate (m : ModulatedConv2d) (lo hi : nat)
    (sub : list subscript) (w_prime : tensor) : option tensor :=
  den <- demod_denominator m lo hi sub w_prime ;;
  broadcast2 Rdiv w_prime (tsqrt den).

(** The body of the loop of [forward], for sample [i]. *)
Definition forward_sample (m : ModulatedConv2d) (image w : tensor) (i : Z) :
    option tensor :=
  w_cur <- getitem w i ;;
  style_scale <- Linear_forward (style_scale_transform m) w_cur ;;
  s4 <- getitem_none [NewAxis; Colon; NewAxis; NewAxis] style_scale ;;
  w_prime <- broadcast2 Rmult (conv_weight m) s4 ;;
  w_prime_prime <- demodulate m 1 4 [Colon; NewAxis; NewAxis; NewAxis] w_prime ;;
  image_i <- getitem image i ;;
  image_i1 <- getitem_none [NewAxis] image_i ;;
  F_conv2d image_i1 w_prime_prime None (padding m) 1.

Fixpoint forward_loop (m : ModulatedConv2d) (image w : tensor)
    (range : list nat) (images : list tensor) : option (list tensor) :=
  match range with
  | [] => Some images
  | i :: range' =>
      out <- forward_sample m image w (Z.of_nat i) ;;
      forward_loop m image w range' (images ++ [out])
  end.

(** [ModulatedConv2d.forward(image, w)]: one sample at a time. *)
Definition forward (m : ModulatedConv2d) (image w : tensor) : option tensor :=
  match shape w with
  | [] => None
  | b :: _ =>
      images <- forward_loop m image w (seq 0 (Z.to_nat b)) [] ;;
      cat images 0
  end.

(** [ModulatedConv2d.forward_efficient(image, w)]: one grouped convolution. *)
Definition forward_efficient (m : ModulatedConv2d) (image w : tensor) :
    option tensor :=
  style_scale <- Linear_forward (style_scale_transform m) w ;;
  cw1 <- getitem_none [NewAxis] (conv_weight m) ;;
  s5 <- getitem_none [Colon; NewAxis; Colon; NewAxis; NewAxis] style_scale ;;
  w_prime <- broadcast2 Rmult cw1 s5 ;;
  w_prime_prime <-
    demodulate m 2 5 [Colon; Colon; NewAxis; NewAxis; NewAxis] w_prime ;;
  match shape image with
  | [batchsize; in_channels; height; width] =>
      match nth_error (shape w_prime_prime) 2 with
      | Some out_channels =>
          efficient_image <-
            view image [1; batchsize * in_channels; height; width] ;;
          efficient_filter <-
            view w_prime_prime
              ([batchsize * out_channels; in_channels]
                 ++ skipn 3 (shape w_prime_prime)) ;;
          efficient_out <-
            F_conv2d efficient_image efficient_filter None (padding m) batchsize ;;
          view efficient_out
            ([batchsize; out_channels] ++ skipn 2 (shape image))
      | None => None
      end
  | _ => None
  end.

(** ** Generative Teaching Network notebook: hyper-parameters *)

Record Hyper : Type :=
  mkHyper {
    learning_rate : R;
    inner_loop_iterations : nat;
    outer_loop_iterations : nat;
    num_architectures : nat;
    use_curriculum : bool }.

(** The values the notebook sets. *)
Definition notebook : Hyper :=
  {| learning_rate := (1 / 100)%R;
     inner_loop_iterations := 32;
     outer_loop_iterations := 5;
     num_architectures := 10;
     use_curriculum := true |}.

Definition num_classes : Z := 10.
Definition noise_size : Z := 64.
Definition img_size : Z := 28.
Definition inner_loop_batch_size : Z := 128.
Definition outer_loop_batch_size : Z := 128.
Definition mnist_mean : R := (1307 / 10000)%R.
Definition mnist_std : R := (3081 / 10000)%R.

(** ** The generator: class [Teacher] *)

(** Values of the parameters of a [Teacher]: random at construction, then
    trained.  [t_learner_optim_params] is the pair (learning rate, momentum)
    the teacher learns for its students. *)
Record TeacherParams : Type :=
  mkTeacherParams {
    t_fc1_w : list Z -> R;       t_fc1_b : list Z -> R;
    t_bn_fc1_w : list Z -> R;    t_bn_fc1_b : list Z -> R;
    t_fc2_w : list Z -> R;       t_fc2_b : list Z -> R;
    t_bn_fc2_w : list Z -> R;    t_bn_fc2_b : list Z -> R;
    t_conv1_w : list Z -> R;     t_conv1_b : list Z -> R;
    t_bn_conv1_w : list Z -> R;  t_bn_conv1_b : list Z -> R;
    t_conv2_w : list Z -> R;     t_conv2_b : list Z -> R;
    t_bn_conv2_w : list Z -> R;  t_bn_conv2_b : list Z -> R;
    t_learner_optim_params : R * R }.

Record Teacher : Type :=
  mkTeacher {
    fc2_filters : Z;
    fc2_width : Z;
    fc1 : Linear;       bn_fc1 : BatchNorm;
    fc2 : Linear;       bn_fc2 : BatchNorm;
    conv1 : Conv2d;     bn_conv1 : BatchNorm;
    conv2 : Conv2d;     bn_conv2 : BatchNorm;
    learner_optim_params : R * R }.

(** [Teacher.__init__], holding the parameter values [p]. *)
Definition Teacher_init (p : TeacherParams) : Teacher :=
  let conv1_filters := 64 in
  let fc1_size := 1024 in
  let fc2_filters := 128 in
  let fc2_width := img_size in
  let fc2_size := fc2_filters * fc2_width * fc2_width in
  {| fc2_filters := fc2_filters;
     fc2_width := fc2_width;
     fc1 := Linear_init (noise_size + num_classes) fc1_size (t_fc1_w p) (t_fc1_b p);
     bn_fc1 := BatchNorm1d_init fc1_size (1 / 10) (t_bn_fc1_w p) (t_bn_fc1_b p);
     fc2 := Linear_init fc1_size fc2_size (t_fc2_w p) (t_fc2_b p);
     bn_fc2 := BatchNorm2d_init fc2_filters (1 / 10) (t_bn_fc2_w p) (t_bn_fc2_b p);
     conv1 := Conv2d_init fc2_filters conv1_filters 3 (3 / 2)
                (t_conv1_w p) (t_conv1_b p);
     bn_conv1 := BatchNorm2d_init conv1_filters (1 / 10)
                   (t_bn_conv1_w p) (t_bn_conv1_b p);
     conv2 := Conv2d_init conv1_filters 1 3 (3 / 2) (t_conv2_w p) (t_conv2_b p);
     bn_conv2 := BatchNorm2d_init 1 (1 / 10) (t_bn_conv2_w p) (t_bn_conv2_b p);
     learner_optim_params := t_learner_optim_params p |}.

(** The running statistics of the four batch-norm layers. *)
Record TeacherBuffers : Type :=
  mkTeacherBuffers {
    buf_fc1 : BNBuffers; buf_fc2 : BNBuffers;
    buf_conv1 : BNBuffers; buf_conv2 : BNBuffers }.

(** [(self.tanh(x) + 1 - 2 * mnist_mean) / (2 * mnist_std)] *)
Definition tanh_normalise (v : R) : R :=
  ((tanh v + 1 - 2 * mnist_mean) / (2 * mnist_std))%R.

(** [Teacher.forward(x, target)]; [training] is the mode of the module and
    the buffers are its batch-norm state before and after the call. *)
Definition Teacher_forward (training : bool) (t : Teacher) (buf : TeacherBuffers)
    (x target : tensor) : option ((tensor * tensor) * TeacherBuffers) :=
  (* Fully connected block 1 *)
  x <- cat [x; target] 1 ;;
  x <- Linear_forward (fc1 t) x ;;
  let x := leaky_relu (1 / 10) x in
  r1 <- BatchNorm_forward training (bn_fc1 t) (buf_fc1 buf) x ;;
  (* Fully connected block 2 *)
  x <- Linear_forward (fc2 t) (fst r1) ;;
  let x := leaky_relu (1 / 10) x in
  x <- view x [-1; fc2_filters t; fc2_width t; fc2_width t] ;;
  r2 <- BatchNorm_forward training (bn_fc2 t) (buf_fc2 buf) x ;;
  (* Convolutional block 1 *)
  x <- Conv2d_forward (conv1 t) (fst r2) ;;
  r3 <- BatchNorm_forward training (bn_conv1 t) (buf_conv1 buf) x ;;
  let x := leaky_relu (1 / 10) (fst r3) in
  (* Convolutional block 2 *)
  x <- Conv2d_forward (conv2 t) x ;;
  r4 <- BatchNorm_forward training (bn_conv2 t) (buf_conv2 buf) x ;;
  let x := tmap tanh_normalise (fst r4) in
  Some ((x, target),
        {| buf_fc1 := snd r1; buf_fc2 := snd r2;
           buf_conv1 := snd r3; buf_conv2 := snd r4 |}).

(** ** The student: class [Learner] *)

Record LearnerParams : Type :=
  mkLearnerParams {
    l_conv1_w : list Z -> R;  l_conv1_b : list Z -> R;
    l_bn1_w : list Z -> R;    l_bn1_b : list Z -> R;
    l_conv2_w : list Z -> R;  l_conv2_b : list Z -> R;
    l_bn2_w : list Z -> R;    l_bn2_b : list Z -> R;
    l_fc_w : list Z -> R;     l_fc_b : list Z -> R;
    l_bn3_w : list Z -> R;    l_bn3_b : list Z -> R }.

Record Learner : Type :=
  mkLearner {
    lconv1 : Conv2d;  bn1 : BatchNorm;
    lconv2 : Conv2d;  bn2 : BatchNorm;
    fc : Linear;      bn3 : BatchNorm }.

Record LearnerBuffers : Type :=
  mkLearnerBuffers { buf1 : BNBuffers; buf2 : BNBuffers; buf3 : BNBuffers }.

Definition c1_size : Z := (img_size - 3 + 1) / 2.
Definition c2_size : Z := (c1_size - 3 + 1) / 2.

(** The widths [Learner.__init__] settles on; [randint lo hi] is what
    [np.random.randint(lo, hi)] returns. *)
Definition conv1_filters_of (randint : Z -> Z -> Z) (num_conv1 : option Z) : Z :=
  match num_conv1 with
  | None => randint 32 64
  | Some n => n
  end.

Definition conv2_filters_of (randint : Z -> Z -> Z) (num_conv2 : option Z) : Z :=
  match num_conv2 with
  | None => randint 64 128
  | Some n => n
  end.

(** [Learner.__init__(num_conv1=None, num_conv2=None)], holding the
    parameter values [p]. *)
Definition Learner_init (randint : Z -> Z -> Z) (num_conv1 num_conv2 : option Z)
    (p : LearnerParams) : Learner :=
  let conv1_filters := conv1_filters_of randint num_conv1 in
  let conv2_filters := conv2_filters_of randint num_conv2 in
  {| lconv1 := Conv2d_init 1 conv1_filters 3 0 (l_conv1_w p) (l_conv1_b p);
     bn1 := BatchNorm2d_init conv1_filters (1 / 10) (l_bn1_w p) (l_bn1_b p);
     lconv2 := Conv2d_init conv1_filters conv2_filters 3 0 (l_conv2_w p) (l_conv2_b p);
     bn2 := BatchNorm2d_init conv2_filters (1 / 10) (l_bn2_w p) (l_bn2_b p);
     fc := Linear_init (conv2_filters * c2_size * c2_size) num_classes
             (l_fc_w p) (l_fc_b p);
     bn3 := BatchNorm1d_init num_classes (1 / 10) (l_bn3_w p) (l_bn3_b p) |}.

(** [Learner.forward] up to and including [torch.flatten(x, 1)]. *)
Definition Learner_flattened (training : bool) (l : Learner) (buf : LearnerBuffers)
    (x : tensor) : option (tensor * (BNBuffers * BNBuffers)) :=
  x <- Conv2d_forward (lconv1 l) x ;;
  let x := leaky_relu (1 / 10) x in
  r1 <- BatchNorm_forward training (bn1 l) (buf1 buf) x ;;
  x <- max_pool2d (fst r1) 2 ;;
  x <- Conv2d_forward (lconv2 l) x ;;
  let x := leaky_relu (1 / 10) x in
  r2 <- BatchNorm_forward training (bn2 l) (buf2 buf) x ;;
  x <- max_pool2d (fst r2) 2 ;;
  x <- flatten1 x ;;
  Some (x, (snd r1, snd r2)).

(** [Learner.forward(x)] *)
Definition Learner_forward (training : bool) (l : Learner) (buf : LearnerBuffers)
    (x : tensor) : option (tensor * LearnerBuffers) :=
  f <- Learner_flattened training l buf x ;;
  x <- Linear_forward (fc l) (fst f) ;;
  r3 <- BatchNorm_forward training (bn3 l) (buf3 buf) x ;;
  Some (fst r3,
        {| buf1 := fst (snd f); buf2 := snd (snd f); buf3 := snd r3 |}).

(** ** The training loops *)

(** The parameters of a student, by position. *)
Definition snapshot : Type := nat -> R.

(** What [higher.innerloop_ctx] carries from one step to the next: the fast
    weights of [flearner] and the state of [diffopt]. *)
Record Student : Type :=
  mkStudent { fast_weights : snapshot; momentum_buffer : option snapshot }.

(** The direction [diffopt.step] moves along: the gradient [g], or with
    momentum the buffer, which starts as [g] and then accumulates
    (no dampening, no weight decay, no Nesterov). *)
Definition update_direction (momentum : R) (g : snapshot) (s : Student) : snapshot :=
  if Req_dec_T momentum 0 then g
  else
    match momentum_buffer s with
    | None => g
    | Some b => fun k => (b k * momentum + g k)%R
    end.

(** [diffopt.step(loss)] for SGD, [g] being the gradient of [loss] in the
    fast weights: a new snapshot, the old one is kept. *)
Definition diffopt_step (lr momentum : R) (g : snapshot) (s : Student) : Student :=
  {| fast_weights := fun k => (fast_weights s k + - lr * update_direction momentum g s k)%R;
     momentum_buffer :=
       if Req_dec_T momentum 0 then momentum_buffer s
       else Some (update_direction momentum g s) |}.

(** What the notebook takes from its environment: the data sets, the random
    generators, automatic differentiation and Adam. *)
Class Collaborators : Type :=
  mkCollaborators {
    RealBatch : Type;
    Grads : Type;
    AdamState : Type;
    (* [np.random.randint(lo, hi)] at a position of NumPy's generator *)
    randint : nat -> Z -> Z -> Z;
    (* [torch.randn(...)] at a position of torch's generator *)
    randn : nat -> list Z -> R;
    (* initial parameters of [Learner(c1, c2)] *)
    learner_initial : nat -> Z * Z -> snapshot;
    (* [loss_fn(flearner(images), label)] and its gradient *)
    learner_loss : Z * Z -> snapshot -> tensor -> R;
    learner_grad : Z * Z -> snapshot -> tensor -> snapshot;
    (* [pred.eq(target.view_as(pred)).sum().item()] on a real batch *)
    count_correct : Z * Z -> snapshot -> RealBatch -> Z;
    (* [loss.backward()]: gradient of the real-data loss in the teacher's
       parameters and the curriculum, through the unrolled steps *)
    backward : TeacherParams -> (list Z -> R) -> list Student -> RealBatch -> Grads;
    (* [optimizer_teacher.step()] *)
    adam_step : R -> AdamState -> TeacherParams * (list Z -> R) -> Grads ->
                (TeacherParams * (list Z -> R)) * AdamState }.

Inductive exn : Type :=
  StopIteration | ZeroDivisionError | NameError | IndexError | RuntimeError
| ValueError.

(** Observable effects, in the order they happen. *)
Inductive Event : Type :=
| ZeroGrad
| Backward
| OptimizerStep
| Display (images : tensor)
| PrintInnerLosses (l : list R)
| PrintTrainAccuracy (a : R)
| PrintValAccuracy (a : R)
| PrintFinalTestAccuracy (a : R)
| Plot (l : list R)
| PrintArchitecture (i : nat) (c1 c2 : Z) (a : R)
| PrintBestArchitecture (c1 c2 : Z) (a : R).

(** [a / b] on Python integers. *)
Definition py_div (a b : Z) : option R :=
  if b =? 0 then None else Some (IZR a / IZR b)%R.

(** [label = torch.tensor([x % num_classes for x in range(inner_loop_batch_size)])]
    and [F.one_hot(label, num_classes)]. *)
Definition label (x : Z) : Z := x mod num_classes.

Definition one_hot : tensor :=
  mkTensor [inner_loop_batch_size; num_classes]
    (fun idx => if nth 1 idx 0 =? label (nth 0 idx 0) then 1%R else 0%R).

Section Loops.
Context {C : Collaborators}.

(** The global state of the notebook. *)
Record World : Type :=
  mkWorld {
    teacher : TeacherParams;
    teacher_buffers : TeacherBuffers;
    curriculum : list Z -> R;
    grads : option Grads;
    optimizer_teacher : AdamState;
    val_iterator : list RealBatch;
    np_random : nat;
    torch_random : nat;
    unrolled : list Student;       (* the snapshots [flearner] keeps *)
    trace : list Event }.

Definition emit (w : World) (e : Event) : World :=
  mkWorld (teacher w) (teacher_buffers w) (curriculum w) (grads w)
    (optimizer_teacher w) (val_iterator w) (np_random w) (torch_random w)
    (unrolled w) (trace w ++ [e]).

Definition with_buffers (w : World) (b : TeacherBuffers) : World :=
  mkWorld (teacher w) b (curriculum w) (grads w)
    (optimizer_teacher w) (val_iterator w) (np_random w) (torch_random w)
    (unrolled w) (trace w).

Definition with_grads (w : World) (g : option Grads) : World :=
  mkWorld (teacher w) (teacher_buffers w) (curriculum w) g
    (optimizer_teacher w) (val_iterator w) (np_random w) (torch_random w)
    (unrolled w) (trace w).

Definition with_val_iterator (w : World) (v : list RealBatch) : World :=
  mkWorld (teacher w) (teacher_buffers w) (curriculum w) (grads w)
    (optimizer_teacher w) v (np_random w) (torch_random w)
    (unrolled w) (trace w).

Definition with_np_random (w : World) (n : nat) : World :=
  mkWorld (teacher w) (teacher_buffers w) (curriculum w) (grads w)
    (optimizer_teacher w) (val_iterator w) n (torch_random w)
    (unrolled w) (trace w).

Definition with_torch_random (w : World) (n : nat) : World :=
  mkWorld (teacher w) (teacher_buffers w) (curriculum w) (grads w)
    (optimizer_teacher w) (val_iterator w) (np_random w) n
    (unrolled w) (trace w).

Definition with_unrolled (w : World) (u : list Student) : World :=
  mkWorld (teacher w) (teacher_buffers w) (curriculum w) (grads w)
    (optimizer_teacher w) (val_iterator w) (np_random w) (torch_random w)
    u (trace w).

Definition with_trained (w : World) (p : TeacherParams) (c : list Z -> R)
    (a : AdamState) : World :=
  mkWorld p (teacher_buffers w) c (grads w)
    a (val_iterator w) (np_random w) (torch_random w)
    (unrolled w) (trace w).

Inductive result (A : Type) : Type :=
| Raised (e : exn) (w : World)
| Done (a : A) (w : World).
Arguments Raised {A} e w.
Arguments Done {A} a w.

(** [curriculum = nn.Parameter(torch.randn(inner_loop_iterations,
    inner_loop_batch_size, noise_size))] *)
Definition curriculum_tensor (h : Hyper) (w : World) : tensor :=
  mkTensor [Z.of_nat (inner_loop_iterations h); inner_loop_batch_size; noise_size]
    (curriculum w).

(** Data generation: [z_vec]. *)
Definition z_vec_at (h : Hyper) (step : nat) (w : World) : option tensor * World :=
  if use_curriculum h
  then (getitem (curriculum_tensor h w) (Z.of_nat step), w)
  else (Some (mkTensor [inner_loop_batch_size; noise_size] (randn (torch_random w))),
        with_torch_random w (S (torch_random w))).

(** [teacher_output, teacher_target = teacher(z_vec, one_hot)]; the teacher
    is in training mode. *)
Definition synthesize (h : Hyper) (step : nat) (w : World) : result tensor :=
  match z_vec_at h step w with
  | (None, w) => Raised IndexError w
  | (Some z_vec, w) =>
      match Teacher_forward true (Teacher_init (teacher w)) (teacher_buffers w)
              z_vec one_hot with
      | None => Raised RuntimeError w
      | Some (out, b) => Done (fst out) (with_buffers w b)
      end
  end.

(** The inner loop, [for step in range(inner_loop_iterations)]; [show] is
    set in the training cell, which displays the first and the last batch. *)
Fixpoint inner_loop (h : Hyper) (show : bool) (arch : Z * Z) (lr momentum : R)
    (steps : list nat) (s : Student) (inner_losses : list R) (w : World) :
    result (Student * list R) :=
  match steps with
  | [] => Done (s, inner_losses) w
  | step :: rest =>
      match synthesize h step w with
      | Raised e w => Raised e w
      | Done teacher_output w =>
          let w := if show && (Z.of_nat step =? 0)
                   then emit w (Display teacher_output) else w in
          let w := if show && (Z.of_nat step =? Z.of_nat (inner_loop_iterations h) - 1)
                   then emit w (Display teacher_output) else w in
          let loss := learner_loss arch (fast_weights s) teacher_output in
          let s' := diffopt_step lr momentum
                      (learner_grad arch (fast_weights s) teacher_output) s in
          inner_loop h show arch lr momentum rest s' (inner_losses ++ [loss])
            (with_unrolled w (unrolled w ++ [s']))
      end
  end.

(** Two draws of [np.random.randint]. *)
Definition sample_widths (lo1 hi1 lo2 hi2 : Z) (w : World) : (Z * Z) * World :=
  ((randint (np_random w) lo1 hi1, randint (S (np_random w)) lo2 hi2),
   with_np_random w (S (S (np_random w)))).

(** [learner = Learner(...)] of widths [arch]: its initial parameters come
    from torch's generator. *)
Definition new_learner (arch : Z * Z) (w : World) : Student * World :=
  ({| fast_weights := learner_initial (torch_random w) arch;
      momentum_buffer := None |},
   with_torch_random w (S (torch_random w))).

(** [optim.SGD(learner.parameters(), lr=..., momentum=...)] refuses a
    negative learning rate and a negative momentum with [ValueError]. *)
Definition SGD_accepts (lr momentum : R) : bool :=
  if Rlt_dec lr 0 then false
  else if Rlt_dec momentum 0 then false
  else true.

(** Entering [higher.innerloop_ctx]: the history of snapshots starts with
    the learner's own parameters. *)
Definition innerloop_ctx (s : Student) (w : World) : World := with_unrolled w [s].

Definition zero_grad (w : World) : World := emit (with_grads w None) ZeroGrad.

Definition optimizer_step (h : Hyper) (w : World) : World :=
  match grads w with
  | None => emit w OptimizerStep
  | Some g =>
      let r := adam_step (learning_rate h) (optimizer_teacher w)
                 (teacher w, curriculum w) g in
      emit (with_trained w (fst (fst r)) (snd (fst r)) (snd r)) OptimizerStep
  end.

Definition total_correct (arch : Z * Z) (s : Student) (loader : list RealBatch) : Z :=
  fold_left (fun correct d => correct + count_correct arch (fast_weights s) d) loader 0.

(** The students that follow [s] when it is trained on [batches] in turn. *)
Fixpoint unroll (arch : Z * Z) (lr momentum : R) (batches : list tensor)
    (s : Student) : list Student :=
  match batches with
  | [] => []
  | x :: rest =>
      let s' := diffopt_step lr momentum (learner_grad arch (fast_weights s) x) s in
      s' :: unroll arch lr momentum rest s'
  end.

(** The sum of the directions applied along [unroll]. *)
Fixpoint net_update (arch : Z * Z) (lr momentum : R) (batches : list tensor)
    (s : Student) : snapshot :=
  match batches with
  | [] => fun _ => 0%R
  | x :: rest =>
      let g := learner_grad arch (fast_weights s) x in
      fun k => (update_direction momentum g s k
                + net_update arch lr momentum rest (diffopt_step lr momentum g s) k)%R
  end.

(** The synthetic batch of the [i]-th step of an inner loop entered in [w]. *)
Definition noise_of (h : Hyper) (w : World) (i : nat) : option tensor :=
  fst (z_vec_at h i (with_torch_random w (torch_random w + i))).

Definition batch_of (h : Hyper) (w : World) (i : nat) : option tensor :=
  z <- noise_of h w i ;;
  r <- Teacher_forward true (Teacher_init (teacher w)) (teacher_buffers w) z one_hot ;;
  Some (fst (fst r)).

Inductive control : Type :=
| Raise (e : exn) (w : World)
| Next (w : World)
| Break (w : World).

(** The body of [for it, real_data in enumerate(train_loader)]. *)
Definition outer_body (h : Hyper) (test_loader : list RealBatch) (it : nat)
    (real_data : RealBatch) (w : World) : control :=
  let w := zero_grad w in
  let learner_lr := fst (t_learner_optim_params (teacher w)) in
  let learner_momentum := snd (t_learner_optim_params (teacher w)) in
  let (arch, w) := sample_widths 32 64 64 128 w in
  let (learner, w) := new_learner arch w in
  if negb (SGD_accepts learner_lr learner_momentum) then Raise ValueError w else
  match inner_loop h true arch learner_lr learner_momentum
          (seq 0 (inner_loop_iterations h)) learner [] (innerloop_ctx learner w) with
  | Raised e w => Raise e w
  | Done (s, inner_losses) w =>
      match py_div (count_correct arch (fast_weights s) real_data)
                   outer_loop_batch_size with
      | None => Raise ZeroDivisionError w
      | Some accuracy_train =>
          let w := emit (emit w (PrintInnerLosses inner_losses))
                        (PrintTrainAccuracy accuracy_train) in
          match val_iterator w with
          | [] => Raise StopIteration w
          | data :: rest =>
              let w := with_val_iterator w rest in
              match py_div (count_correct arch (fast_weights s) data)
                           outer_loop_batch_size with
              | None => Raise ZeroDivisionError w
              | Some accuracy =>
                  let w := emit w (PrintValAccuracy accuracy) in
                  if Z.of_nat it =? Z.of_nat (outer_loop_iterations h) - 1 then
                    match py_div (total_correct arch s test_loader)
                            (outer_loop_batch_size * Z.of_nat (length test_loader)) with
                    | None => Raise ZeroDivisionError w
                    | Some accuracy =>
                        Break (emit (emit w (PrintFinalTestAccuracy accuracy))
                                    (Plot inner_losses))
                    end
                  else
                    let g := backward (teacher w) (curriculum w) (unrolled w) real_data in
                    let w := emit (with_grads w (Some g)) Backward in
                    Next (optimizer_step h w)
              end
          end
      end
  end.

Definition control_world (c : control) : World :=
  match c with
  | Raise _ w => w
  | Next w => w
  | Break w => w
  end.

Inductive outcome : Type :=
| Crashed (e : exn) (w : World)
| Finished (w : World).

(** The training cell: the loop over [train_loader], from counter [it]. *)
Fixpoint outer_loop (h : Hyper) (test_loader : list RealBatch) (it : nat)
    (train_loader : list RealBatch) (w : World) : outcome :=
  match train_loader with
  | [] => Finished w
  | real_data :: rest =>
      match outer_body h test_loader it real_data w with
      | Raise e w => Crashed e w
      | Break w => Finished w
      | Next w => outer_loop h test_loader (S it) rest w
      end
  end.

(** ** Architecture search *)

(** The variables [best_accuracy] and [filter_counts]; the latter is unbound
    until its first assignment. *)
Record NasLocals : Type :=
  mkNasLocals { best_accuracy : R; filter_counts : option (Z * Z) }.

(** The body of [for i in range(num_architectures)]. *)
Definition nas_body (h : Hyper) (val_loader test_loader : list RealBatch) (i : nat)
    (l : NasLocals) (w : World) : result NasLocals :=
  let (arch, w) := sample_widths 1 64 1 128 w in
  let (learner, w) := new_learner arch w in
  let learner_lr := fst (t_learner_optim_params (teacher w)) in
  let learner_momentum := snd (t_learner_optim_params (teacher w)) in
  if negb (SGD_accepts learner_lr learner_momentum) then Raised ValueError w else
  match inner_loop h false arch learner_lr learner_momentum
          (seq 0 (inner_loop_iterations h)) learner [] (innerloop_ctx learner w) with
  | Raised e w => Raised e w
  | Done (s, _) w =>
      match py_div (total_correct arch s val_loader)
              (outer_loop_batch_size * Z.of_nat (length val_loader)) with
      | None => Raised ZeroDivisionError w
      | Some accuracy =>
          let l := if Rlt_dec (best_accuracy l) accuracy
                   then {| best_accuracy := accuracy; filter_counts := Some arch |}
                   else l in
          let w := emit w (PrintArchitecture (i + 1) (fst arch) (snd arch) accuracy) in
          if Z.of_nat i =? Z.of_nat (num_architectures h) - 1 then
            match py_div (total_correct arch s test_loader)
                    (outer_loop_batch_size * Z.of_nat (length test_loader)) with
            | None => Raised ZeroDivisionError w
            | Some accuracy =>
                match filter_counts l with
                | None => Raised NameError w
                | Some fc =>
                    Done l (emit w (PrintBestArchitecture (fst fc) (snd fc) accuracy))
                end
            end
          else Done l w
      end
  end.

Fixpoint nas_loop (h : Hyper) (val_loader test_loader : list RealBatch)
    (range : list nat) (l : NasLocals) (w : World) : result NasLocals :=
  match range with
  | [] => Done l w
  | i :: rest =>
      match nas_body h val_loader test_loader i l w with
      | Raised e w => Raised e w
      | Done l w => nas_loop h val_loader test_loader rest l w
      end
  end.

(** The architecture-search cell. *)
Definition nas (h : Hyper) (val_loader test_loader : list RealBatch) (w : World) :
    result NasLocals :=
  nas_loop h val_loader test_loader (seq 0 (num_architectures h))
    {| best_accuracy := 0%R; filter_counts := None |} w.

(** What an inner loop leaves alone. *)
Definition same_training_state (w w' : World) : Prop :=
  teacher w' = teacher w /\ curriculum w' = curriculum w /\
  grads w' = grads w /\ optimizer_teacher w' = optimizer_teacher w /\
  val_iterator w' = val_iterator w /\ np_random w' = np_random w.

Definition is_display (e : Event) : bool :=
  match e with
  | Display _ => true
  | _ => false
  end.

Definition is_search_report (e : Event) : bool :=
  match e with
  | PrintArchitecture _ _ _ _ | PrintBestArchitecture _ _ _ => true
  | _ => false
  end.

(** What the loop maintains: [best_accuracy] bounds every recorded
    accuracy, and [filter_counts], once bound, is a recorded pair that
    reached it. *)
Definition best_so_far (l : NasLocals) (evs : list Event) : Prop :=
  (forall i c1 c2 a, In (PrintArchitecture i c1 c2 a) evs -> (a <= best_accuracy l)%R) /\
  match filter_counts l with
  | None => True
  | Some fc => exists i, In (PrintArchitecture i (fst fc) (snd fc) (best_accuracy l)) evs
  end.

Definition result_world {A : Type} (r : result A) : World :=
  match r with
  | Raised _ w => w
  | Done _ w => w
  end.

End Loops.

Arguments Raised {C A} e w.
Arguments Done {C A} a w.

(** ** Concrete inputs *)

(** A student whose synthetic loss is [sum_k theta_k ^ 2 / 2], so that the
    gradient is [theta] itself; every prediction on real data is wrong. *)
Definition quadratic : Collaborators :=
  {| RealBatch := unit;
     Grads := unit;
     AdamState := unit;
     randint := fun _ lo _ => lo;
     randn := fun _ _ => 0%R;
     learner_initial := fun n _ _ => INR (S n);
     learner_loss := fun _ theta _ => (theta O * theta O / 2)%R;
     learner_grad := fun _ theta _ => theta;
     count_correct := fun _ _ _ => 0;
     backward := fun _ _ _ _ => tt;
     adam_step := fun _ a pc _ => (pc, a) |}.

Definition zero_teacher : TeacherParams :=
  let z := fun _ : list Z => 0%R in
  mkTeacherParams z z z z z z z z z z z z z z z z (2 / 100, 1 / 2)%R.

Definition zero_bn : BNBuffers :=
  {| running_mean := fun _ => 0%R; running_var := fun _ => 1%R;
     num_batches_tracked := 0 |}.

Definition zero_buffers : TeacherBuffers :=
  mkTeacherBuffers zero_bn zero_bn zero_bn zero_bn.

Definition zero_learner : LearnerParams :=
  let z := fun _ : list Z => 0%R in
  mkLearnerParams z z z z z z z z z z z z.

(** A world before the training cell runs, with [n] validation batches. *)
Definition start (n : nat) : @World quadratic :=
  @mkWorld quadratic zero_teacher zero_buffers (fun _ => 0%R) None tt
    (repeat tt n) O O [] [].

(** * Further definitions *)

(** ** Index ranges *)

(** [idx] is an index of a tensor of shape [sh]. *)
Fixpoint in_range (sh idx : list Z) : Prop :=
  match sh, idx with
  | [], [] => True
  | d :: sh', i :: idx' => 0 <= i < d /\ in_range sh' idx'
  | _, _ => False
  end.

(** ** The formula of modulation and demodulation

    What the notebook's text asks of [ModulatedConv2d]: for sample [n], the
    style [s = A(w_n)] scales the weights, [w' = s_i * w_ijk], which are
    divided by [sqrt (sum_{i,k} w'^2 + eps)] before the convolution. *)

Definition style_of (m : ModulatedConv2d) (w : tensor) (n ci : Z) : R :=
  (Rsum (nth 1 (shape (lin_weight (style_scale_transform m))) 0%Z)
     (fun j => elem w [n; j] * elem (lin_weight (style_scale_transform m)) [ci; j])
   + elem (lin_bias (style_scale_transform m)) [ci])%R.

Definition modulated (m : ModulatedConv2d) (w : tensor) (n : Z) (idx : list Z) : R :=
  (elem (conv_weight m) idx * style_of m w n (nth 1 idx 0%Z))%R.

Definition demod_sum (m : ModulatedConv2d) (w : tensor) (n o : Z) : R :=
  (sum_over (tl (shape (conv_weight m)))
     (fun r => modulated m w n (o :: r) * modulated m w n (o :: r))
   + eps m)%R.

Definition demodulated (m : ModulatedConv2d) (w : tensor) (n : Z) (idx : list Z) : R :=
  (modulated m w n idx / sqrt (demod_sum m w n (nth 0 idx 0%Z)))%R.

Definition modulated_conv (m : ModulatedConv2d) (image w : tensor) (n o y x : Z) : R :=
  sum_over (tl (shape (conv_weight m)))
    (fun r =>
       match r with
       | [ci; ky; kx] =>
           (padded image (nth 2 (shape image) 0%Z) (nth 3 (shape image) 0%Z) n ci
              (y + ky - padding m) (x + kx - padding m)
            * demodulated m w n (o :: r))%R
       | _ => 0%R
       end).

(** ** StyleGAN2 notebook: [show_tensor_images], [SimpleGenerator] and the
    path length penalty *)

(** [Tensor.clamp_(lo, hi)] *)
Definition clamp (lo hi : R) (t : tensor) : tensor :=
  tmap (fun v => Rmin hi (Rmax lo v)) t.

(** [t[:n]] for a Python integer [n]: a negative [n] counts from the end. *)
Definition slice_upto (t : tensor) (n : Z) : option tensor :=
  match shape t with
  | [] => None
  | d :: rest =>
      let stop := if n <? 0 then Z.max 0 (d + n) else Z.min n d in
      Some (mkTensor (stop :: rest) (elem t))
  end.

(** [show_tensor_images] up to the call of [make_grid]: the images that are
    laid out and plotted. *)
Definition image_unflat (image_tensor : tensor) : tensor :=
  let image_tensor := tmap (fun v => ((v + 1) / 2)%R) image_tensor in
  clamp 0 1 image_tensor.

Definition shown_images (image_tensor : tensor) (num_images : Z) : option tensor :=
  slice_upto (image_unflat image_tensor) num_images.








(** [new_a = a * (1 - decay) + variation * decay] *)
Definition new_a (a decay variation : R) : R :=
  (a * (1 - decay) + variation * decay)%R.

(** ** Generative Teaching Network notebook: pictures

    A picture of PIL in mode L: its size (width, height) and its pixels,
    bytes, read by column [x] and row [y]. *)
Record Image : Type := mkImage { im_size : Z * Z; im_pixel : Z -> Z -> Z }.

(** [Image.new('L', size)]: black; a negative size is refused. *)
Definition Image_new (size : Z * Z) : exn + Image :=
  if (fst size <? 0) || (snd size <? 0) then inl ValueError
  else inr (mkImage size (fun _ _ => 0)).

(** [background.paste(im, box)] for a corner [box]: the part of [im] that
    falls outside [background] is dropped. *)
Definition paste (background im : Image) (box : Z * Z) : Image :=
  mkImage (im_size background)
    (fun x y =>
       if (fst box <=? x) && (x <? fst box + fst (im_size im))
          && (snd box <=? y) && (y <? snd box + snd (im_size im))
       then im_pixel im (x - fst box) (y - snd box)
       else im_pixel background x y).

(** [im.getpixel(xy)] *)
Definition getpixel (im : Image) (xy : Z * Z) : option Z :=
  if (0 <=? fst xy) && (fst xy <? fst (im_size im))
     && (0 <=? snd xy) && (snd xy <? snd (im_size im))
  then Some (im_pixel im (fst xy) (snd xy))
  else None.




Definition imgs_per_row : Z := num_classes.

(** What making a picture gives: a picture in mode L, an exception, or what
    the library does for another mode, which these definitions do not
    represent. *)
Inductive rendering : Type :=
| Picture (im : Image)
| NoPicture (e : exn)
| OtherMode.

Section Rendering.
(** [Tensor.byte()] on the value of a float. *)
Variable byte : R -> Z.

(** [torchvision.transforms.ToPILImage()] on a float tensor:
    [pic.mul(255).byte()] as a picture, in mode L for a single channel; a
    tensor of another rank or with more than four channels is refused, and
    the remaining numbers of channels take the library's path for the other
    modes. *)
Definition ToPILImage (pic : tensor) : rendering :=
  match shape pic with
  | [h; w] => Picture (mkImage (w, h) (fun x y => byte (elem pic [y; x] * 255)))
  | [c; h; w] =>
      if c =? 1
      then Picture (mkImage (w, h) (fun x y => byte (elem pic [0; y; x] * 255)))
      else if 4 <? c then NoPicture ValueError
      else OtherMode
  | _ => NoPicture ValueError
  end.

(** [generate_img(img_tensor)] *)
Definition generate_img (img_tensor : tensor) : rendering :=
  ToPILImage (tmap (fun v => (1 - (v * mnist_std + mnist_mean))%R) img_tensor).

(** [for i in range(imgs_per_row):
       background.paste(generate_img(teacher_output[i]), box(i))] *)
Fixpoint paste_examples (teacher_output : tensor) (box : Z -> Z * Z)
    (range : list nat) (background : Image) : rendering :=
  match range with
  | [] => Picture background
  | i :: rest =>
      match getitem teacher_output (Z.of_nat i) with
      | None => NoPicture IndexError
      | Some example =>
          match generate_img example with
          | Picture im =>
              paste_examples teacher_output box rest
                (paste background im (box (Z.of_nat i)))
          | other => other
          end
      end
  end.

(** The picture the training cell displays at the first and at the last
    step of an inner loop. *)
Definition examples_row (teacher_output : tensor) : rendering :=
  match Image_new (img_size * imgs_per_row + imgs_per_row + 1, img_size + 2) with
  | inl e => NoPicture e
  | inr background =>
      paste_examples teacher_output (fun i => (i * 28 + i + 1, 1))
        (seq 0 (Z.to_nat imgs_per_row)) background
  end.

Context {C : Collaborators}.

(** [range(0, n, 2)] *)
Definition range_by_two (n : nat) : list nat :=
  map (fun r => (2 * r)%nat) (seq 0 (S n / 2)).

(** The loop of the visualization cell. *)
Fixpoint visualization_loop (h : Hyper) (steps : list nat) (background : Image)
    (w : World) : result rendering :=
  match steps with
  | [] => Done (Picture background) w
  | step :: rest =>
      match synthesize h step w with
      | Raised e w => Raised e w
      | Done teacher_output w =>
          match paste_examples teacher_output
                  (fun i => (i * img_size + i + 1,
                             (Z.of_nat step / 2) * img_size + (Z.of_nat step / 2) + 1))
                  (seq 0 (Z.to_nat imgs_per_row)) background with
          | Picture background => visualization_loop h rest background w
          | NoPicture e => Raised e w
          | OtherMode => Done OtherMode w
          end
      end
  end.

(** The visualization cell: what it displays. *)
Definition visualization (h : Hyper) (w : World) : result rendering :=
  let n := Z.of_nat (inner_loop_iterations h) in
  let rows := n / 2 * img_size + n / 2 + 1 in
  let cols := imgs_per_row * img_size + imgs_per_row + 1 in
  match Image_new (cols, rows) with
  | inl e => Raised e w
  | inr background =>
      visualization_loop h (range_by_two (inner_loop_iterations h)) background w
  end.

End Rendering.

(** The byte [generate_img] makes of pixel ([dx], [dy]) of example [i] of a
    batch of the teacher. *)
Definition rendered (byte : R -> Z) (teacher_output : tensor) (i dx dy : Z) : Z :=
  byte ((1 - (elem teacher_output [i; 0%Z; dy; dx] * mnist_std + mnist_mean)) * 255)%R.

(** Whether ([x], [y]) is a pixel of a tile of the row of tiles at height
    [y0], for the columns [cols]: tiles of 28 by 28 pixels, one pixel
    apart. *)
Definition in_tile_row (y0 : Z) (cols : list nat) (x y : Z) : bool :=
  (y0 <=? y) && (y <? y0 + 28) && (1 <=? x) && ((x - 1) mod 29 <? 28)
  && existsb (fun i => Z.of_nat i =? (x - 1) / 29) cols.

(** Whether ([x], [y]) is a pixel of a tile of the rows [a], ..., [a + k - 1]
    of a grid of ten columns of such tiles. *)
Definition in_tile_grid (a k : nat) (x y : Z) : bool :=
  (1 <=? y) && ((y - 1) mod 29 <? 28)
  && (Z.of_nat a <=? (y - 1) / 29) && ((y - 1) / 29 <? Z.of_nat (a + k))
  && (1 <=? x) && ((x - 1) mod 29 <? 28) && ((x - 1) / 29 <? 10).

(** ** Counting events *)

Definition is_zero_grad (e : Event) : bool :=
  match e with ZeroGrad => true | _ => false end.

Definition is_backward (e : Event) : bool :=
  match e with Backward => true | _ => false end.

Definition is_optimizer_step (e : Event) : bool :=
  match e with OptimizerStep => true | _ => false end.

Definition is_final_report (e : Event) : bool :=
  match e with PrintFinalTestAccuracy _ => true | _ => false end.

Definition count (p : Event -> bool) (evs : list Event) : nat :=
  length (filter p evs).

(** What the search maintains about the order of the records:
    [filter_counts] is the first recorded pair that reached
    [best_accuracy], which is positive once a pair is bound. *)
Definition first_best (l : NasLocals) (evs : list Event) : Prop :=
  match filter_counts l with
  | None =>
      best_accuracy l = 0%R /\
      forall i c1 c2 a, In (PrintArchitecture i c1 c2 a) evs -> (a <= 0)%R
  | Some fc =>
      (0 < best_accuracy l)%R /\
      exists i pre post,
        evs = pre ++ PrintArchitecture i (fst fc) (snd fc) (best_accuracy l) :: post /\
        (forall i c1 c2 a, In (PrintArchitecture i c1 c2 a) pre ->
           (a < best_accuracy l)%R) /\
        (forall i c1 c2 a, In (PrintArchitecture i c1 c2 a) post ->
           (a <= best_accuracy l)%R)
  end.

(** A student that gets half of every real batch right, whatever its
    parameters. *)
Definition half_right : Collaborators :=
  {| RealBatch := unit;
     Grads := unit;
     AdamState := unit;
     randint := fun _ lo _ => lo;
     randn := fun _ _ => 0%R;
     learner_initial := fun n _ _ => INR (S n);
     learner_loss := fun _ theta _ => (theta O * theta O / 2)%R;
     learner_grad := fun _ theta _ => theta;
     count_correct := fun _ _ _ => 64;
     backward := fun _ _ _ _ => tt;
     adam_step := fun _ a pc _ => (pc, a) |}.

(** A world before the search cell runs, for these collaborators. *)
Definition start_search : @World half_right :=
  @mkWorld half_right zero_teacher zero_buffers (fun _ => 0%R) None tt
    [] O O [] [].

(** The counters [num_batches_tracked] of the teacher's four batch-norm
    layers. *)
Definition batches_tracked (b : TeacherBuffers) : list Z :=
  map num_batches_tracked [buf_fc1 b; buf_fc2 b; buf_conv1 b; buf_conv2 b].

(** * Properties *)

(** ** Sums and broadcasting *)

Lemma obind_Some {A B : Type} (o : option A) (k : A -> option B) (b : B) :
  obind o k = Some b -> exists a, o = Some a /\ k a = Some b.
Proof. destruct o as [a|]; simpl; [eauto | discriminate]. Qed.

Lemma sum_upto_nonneg (n : nat) (f : Z -> R) :
  (forall i, 0 <= f i)%R -> (0 <= sum_upto n f)%R.
Proof.
  intros Hf. induction n as [|n IH]; simpl.
  - lra.
  - specialize (Hf (Z.of_nat n)). lra.
Qed.

Lemma sum_over_nonneg (sh : list Z) :
  forall f : list Z -> R, (forall idx, 0 <= f idx)%R -> (0 <= sum_over sh f)%R.
Proof.
  induction sh as [|d sh IH]; intros f Hf; simpl.
  - apply Hf.
  - unfold Rsum. apply sum_upto_nonneg. intros i. apply IH. intros idx. apply Hf.
Qed.

Lemma bdim_refl (a : Z) : bdim a a = Some a.
Proof. unfold bdim. now rewrite Z.eqb_refl. Qed.

Lemma bdim_one_r (a : Z) : bdim a 1 = Some a.
Proof.
  unfold bdim. destruct (a =? 1) eqn:E; [reflexivity|].
  now rewrite Z.eqb_refl.
Qed.

(** ** ModulatedConv2d *)

Lemma eps_positive w_dim ic oc k p cw lw lb :
  (0 < eps (ModulatedConv2d_init w_dim ic oc k p cw lw lb))%R.
Proof. simpl. lra. Qed.

(** Whatever is summed, the quantity under the square root is at least
    [eps]. *)
Lemma demod_denominator_lower (m : ModulatedConv2d) lo hi sub w_prime den :
  demod_denominator m lo hi sub w_prime = Some den ->
  forall idx, (eps m <= elem den idx)%R.
Proof.
  unfold demod_denominator. intros H idx.
  apply obind_Some in H as (s & Hs & H).
  apply obind_Some in H as (s' & Hs' & H).
  injection H as <-.
  unfold tsum_dims in Hs. destruct (hi <=? rank (tpow2 w_prime))%nat; [|discriminate].
  injection Hs as <-.
  unfold getitem_none in Hs'.
  match type of Hs' with
  | (if ?c then _ else _) = _ => destruct c; [|discriminate]
  end.
  injection Hs' as <-. cbn [tadd_scalar tmap elem].
  match goal with
  | |- (_ <= sum_over ?sh ?f + _)%R =>
      assert (0 <= sum_over sh f)%R; [|lra]
  end.
  apply sum_over_nonneg. intros r. cbn [tpow2 tmap elem]. nra.
Qed.

(** C4. For every convolution weight and every style-scale vector, the
    demodulation denominator of [ModulatedConv2d.forward],
    [(w_prime ** 2).sum([1, 2, 3]) + eps], is computed and is strictly
    positive at every output channel, so its square root is positive too;
    [eps] is the constant [1e-6]. *)
Theorem demodulation_denominator_positive
    (w_dim ic oc k p : Z) (cw lw lb : list Z -> R) (style_scale : tensor) :
  shape style_scale = [ic] ->
  let m := ModulatedConv2d_init w_dim ic oc k p cw lw lb in
  eps m = (1 / 1000000)%R /\
  exists s4 w_prime den,
    getitem_none [NewAxis; Colon; NewAxis; NewAxis] style_scale = Some s4 /\
    broadcast2 Rmult (conv_weight m) s4 = Some w_prime /\
    demod_denominator m 1 4 [Colon; NewAxis; NewAxis; NewAxis] w_prime = Some den /\
    shape den = [oc; 1; 1; 1] /\
    forall idx, (0 < elem den idx)%R /\ (0 < sqrt (elem den idx))%R.
Proof.
  intros Hs m. split; [reflexivity|].
  destruct style_scale as [sh f]. cbn in Hs. subst sh.
  assert (Hb : broadcast_shapes [oc; ic; k; k] [1; ic; 1; 1] = Some [oc; ic; k; k]).
  { unfold broadcast_shapes. cbn.
    rewrite !bdim_one_r, bdim_refl. reflexivity. }
  destruct (getitem_none [NewAxis; Colon; NewAxis; NewAxis] (mkTensor [ic] f))
    as [s4|] eqn:H4; [|discriminate].
  injection H4 as H4.
  destruct (broadcast2 Rmult (conv_weight m) s4) as [w_prime|] eqn:Hw.
  2:{ unfold broadcast2 in Hw. subst s4. cbn [shape conv_weight m ModulatedConv2d_init] in Hw.
      rewrite Hb in Hw. discriminate. }
  assert (Hsh : shape w_prime = [oc; ic; k; k]).
  { unfold broadcast2 in Hw. subst s4. cbn [shape conv_weight m ModulatedConv2d_init] in Hw.
    rewrite Hb in Hw. injection Hw as <-. reflexivity. }
  destruct w_prime as [shw fw]. cbn in Hsh. subst shw.
  destruct (demod_denominator m 1 4 [Colon; NewAxis; NewAxis; NewAxis]
              (mkTensor [oc; ic; k; k] fw)) as [den|] eqn:Hden; [|discriminate].
  exists s4, (mkTensor [oc; ic; k; k] fw), den.
  split; [now subst s4|]. split; [exact Hw|]. split; [exact Hden|].
  pose proof (eps_positive w_dim ic oc k p cw lw lb) as He. fold m in He.
  split.
  - cbv [demod_denominator tsum_dims getitem_none rank tpow2 tmap shape] in Hden.
    cbn in Hden. injection Hden as <-. reflexivity.
  - intros idx.
    pose proof (demod_denominator_lower _ _ _ _ _ _ Hden idx) as Hl.
    split; [lra|]. apply sqrt_lt_R0. lra.
Qed.

Lemma demodulation_denominator_positive_witness :
  shape (mkTensor [3] (fun _ => 2%R)) = [3] /\
  exists den,
    shape den = [3; 1; 1; 1] /\ (0 < elem den [0%Z; 0%Z; 0%Z; 0%Z])%R.
Proof.
  split; [reflexivity|].
  destruct (demodulation_denominator_positive 128 3 3 3 1
              (fun _ => 1%R) (fun _ => 1%R) (fun _ => 0%R)
              (mkTensor [3] (fun _ => 2%R)) eq_refl)
    as (_ & s4 & w_prime & den & _ & _ & _ & H4 & H5).
  exists den. split; [exact H4 | apply H5].
Defined.

(** C2. The two evaluation strategies disagree as soon as the numbers of
    input and output channels differ: on one 2x2 image with one channel and
    two output channels [forward] returns a batch of shape (1, 2, 2, 2),
    while [forward_efficient], which reads the number of output channels
    from dimension 2 of the (b, out, in, k, k) weights, fails in [view]. *)
Theorem forward_efficient_diverges :
  let m := ModulatedConv2d_init 1 1 2 3 1 (fun _ => 1%R) (fun _ => 1%R) (fun _ => 0%R) in
  let image := mkTensor [1; 1; 2; 2] (fun _ => 1%R) in
  let w := mkTensor [1; 1] (fun _ => 1%R) in
  option_map shape (forward m image w) = Some [1; 2; 2; 2] /\
  forward_efficient m image w = None.
Proof. split; reflexivity. Qed.

(** With as many output as input channels and a padding that keeps the
    size, as in the notebook's example, both strategies answer with the
    same shape and, here, the same elements. *)
Example forward_efficient_agrees (cw lw lb im wv : list Z -> R) :
  let m := ModulatedConv2d_init 3 2 2 3 1 cw lw lb in
  let image := mkTensor [2; 2; 2; 3] im in
  let w := mkTensor [2; 3] wv in
  exists y y',
    forward m image w = Some y /\ forward_efficient m image w = Some y' /\
    shape y = shape y' /\
    elem y [1; 1; 1; 2] = elem y' [1; 1; 1; 2] /\
    elem y [0; 1; 0; 1] = elem y' [0; 1; 0; 1].
Proof.
  intros m image w.
  destruct (forward m image w) as [y|] eqn:E; [|discriminate].
  destruct (forward_efficient m image w) as [y'|] eqn:E'; [|discriminate].
  exists y, y'. injection E as <-. injection E' as <-.
  repeat split; lazy -[Rplus Rmult Rdiv sqrt IZR Rinv]; reflexivity.
Qed.
(** ** Layers *)



Lemma cat_shape (x y : tensor) (b n m : Z) :
  shape x = [b; n] -> shape y = [b; m] ->
  exists z, cat [x; y] 1 = Some z /\ shape z = [b; n + m].
Proof.
  intros Hx Hy. destruct x as [sx fx], y as [sy fy]. cbn in Hx, Hy. subst sx sy.
  unfold cat, rank. cbn. rewrite Z.eqb_refl. cbn. eexists. split; [reflexivity|].
  cbn. now rewrite Z.add_0_r.
Qed.

Lemma Linear_forward_shape (i o : Z) (w b : list Z -> R) (x : tensor) (n : Z) :
  shape x = [n; i] ->
  exists y, Linear_forward (Linear_init i o w b) x = Some y /\ shape y = [n; o].
Proof.
  intros Hx. unfold Linear_forward, F_linear. cbn. rewrite Hx. cbn.
  rewrite !Z.eqb_refl. cbn. eexists. split; reflexivity.
Qed.

Lemma BatchNorm_forward_shape (training : bool) (m : BatchNorm) (buf : BNBuffers)
    (x : tensor) :
  existsb (Nat.eqb (rank x)) (bn_ranks m) = true ->
  nth 1 (shape x) 0 = num_features m ->
  (training = true -> per_channel (shape x) <> 1) ->
  exists y buf', BatchNorm_forward training m buf x = Some (y, buf') /\ shape y = shape x.
Proof.
  intros Hr Hc Hn. unfold BatchNorm_forward.
  rewrite Hr, Hc, Z.eqb_refl. cbn.
  destruct training.
  - destruct (per_channel (shape x) =? 1) eqn:E.
    + apply Z.eqb_eq in E. now elim Hn.
    + eexists. eexists. split; reflexivity.
  - eexists. eexists. split; reflexivity.
Qed.

Lemma view_teacher (x : tensor) (b : Z) :
  shape x = [b; 100352] ->
  exists y, view x [-1; 128; 28; 28] = Some y /\ shape y = [b; 128; 28; 28].
Proof.
  intros Hx. unfold view, infer_size. rewrite Hx. cbn -[Z.mul Z.div Z.modulo].
  replace (b * (100352 * 1)) with (b * 100352) by lia.
  replace (128 * (28 * (28 * 1))) with 100352 by reflexivity.
  rewrite Z.mod_mul, Z.div_mul by lia. cbn.
  eexists. split; reflexivity.
Qed.

Lemma Conv2d_forward_shape (c o k p : Z) (wt bs : list Z -> R) (x : tensor)
    (n h w : Z) :
  shape x = [n; c; h; w] ->
  0 < k -> 0 <= p -> k <= h + 2 * p -> k <= w + 2 * p ->
  exists y, Conv2d_forward (Conv2d_init c o k p wt bs) x = Some y /\
            shape y = [n; o; h + 2 * p - k + 1; w + 2 * p - k + 1].
Proof.
  intros Hx Hk Hp Hh Hw. unfold Conv2d_forward, F_conv2d. cbn [conv_w conv_b conv_padding Conv2d_init shape].
  rewrite Hx.
  replace (c =? c * 1) with true by (symmetry; apply Z.eqb_eq; lia).
  rewrite Z.mod_1_r.
  replace (0 <? k) with true by (symmetry; apply Z.ltb_lt; lia).
  replace (0 <=? p) with true by (symmetry; apply Z.leb_le; lia).
  replace (k <=? h + 2 * p) with true by (symmetry; apply Z.leb_le; lia).
  replace (k <=? w + 2 * p) with true by (symmetry; apply Z.leb_le; lia).
  cbn [andb Z.ltb Z.eqb Z.compare list_eqb]. rewrite Z.eqb_refl. cbn [andb].
  eexists. split; reflexivity.
Qed.

Lemma max_pool2d_shape (x : tensor) (n c h w k : Z) :
  shape x = [n; c; h; w] -> 0 < k -> k <= h -> k <= w ->
  exists y, max_pool2d x k = Some y /\
            shape y = [n; c; (h - k) / k + 1; (w - k) / k + 1].
Proof.
  intros Hx Hk Hh Hw. unfold max_pool2d. rewrite Hx.
  assert (0 <= (h - k) / k) by (apply Z.div_pos; lia).
  assert (0 <= (w - k) / k) by (apply Z.div_pos; lia).
  replace (0 <? k) with true by (symmetry; apply Z.ltb_lt; lia).
  replace (0 <? (h - k) / k + 1) with true by (symmetry; apply Z.ltb_lt; lia).
  replace (0 <? (w - k) / k + 1) with true by (symmetry; apply Z.ltb_lt; lia).
  cbn [andb]. eexists. split; reflexivity.
Qed.

Lemma flatten1_shape (x : tensor) (n c h w : Z) :
  shape x = [n; c; h; w] ->
  exists y, flatten1 x = Some y /\ shape y = [n; c * h * w].
Proof.
  intros Hx. unfold flatten1. rewrite Hx. eexists. split; [reflexivity|].
  cbn. f_equal. f_equal. lia.
Qed.
(** ** Teacher *)

Ltac bind_with L :=
  let y := fresh "y" in
  let E := fresh "E" in
  let S := fresh "S" in
  destruct L as (y & E & S); rewrite E; cbn [obind fst snd].

Ltac bind_bn L :=
  let y := fresh "y" in
  let b := fresh "bf" in
  let E := fresh "E" in
  let S := fresh "S" in
  destruct L as (y & b & E & S); rewrite E; cbn [obind fst snd].

Lemma BatchNorm1d_forward_shape (training : bool) (n : Z) (mo : R) (w b : list Z -> R)
    (buf : BNBuffers) (x : tensor) (bs : Z) :
  shape x = [bs; n] -> (training = true -> bs <> 1) ->
  exists y buf', BatchNorm_forward training (BatchNorm1d_init n mo w b) buf x
                 = Some (y, buf') /\ shape y = [bs; n].
Proof.
  intros Hx Hb.
  destruct (BatchNorm_forward_shape training (BatchNorm1d_init n mo w b) buf x)
    as (y & buf' & E & S).
  - unfold rank. rewrite Hx. reflexivity.
  - rewrite Hx. reflexivity.
  - intros Ht. rewrite Hx. cbn. specialize (Hb Ht). lia.
  - exists y, buf'. split; [exact E | congruence].
Qed.

Lemma BatchNorm2d_forward_shape (training : bool) (n : Z) (mo : R) (w b : list Z -> R)
    (buf : BNBuffers) (x : tensor) (bs h wd : Z) :
  shape x = [bs; n; h; wd] -> (training = true -> bs * (h * wd) <> 1) ->
  exists y buf', BatchNorm_forward training (BatchNorm2d_init n mo w b) buf x
                 = Some (y, buf') /\ shape y = [bs; n; h; wd].
Proof.
  intros Hx Hb.
  destruct (BatchNorm_forward_shape training (BatchNorm2d_init n mo w b) buf x)
    as (y & buf' & E & S).
  - unfold rank. rewrite Hx. reflexivity.
  - rewrite Hx. reflexivity.
  - intros Ht. rewrite Hx. cbn. specialize (Hb Ht). lia.
  - exists y, buf'. split; [exact E | congruence].
Qed.

(** The forward pass succeeds on a batch of [b] samples, except in training
    mode on a single sample; its result is [tanh_normalise] applied to a
    tensor of shape (b, 1, 28, 28). *)
Lemma Teacher_forward_ok (training : bool) (p : TeacherParams) (buf : TeacherBuffers)
    (x target : tensor) (b : Z) :
  shape x = [b; noise_size] -> shape target = [b; num_classes] ->
  (training = true -> b <> 1) ->
  exists r buf',
    Teacher_forward training (Teacher_init p) buf x target
    = Some ((tmap tanh_normalise r, target), buf') /\
    shape r = [b; 1; img_size; img_size].
Proof.
  intros Hx Ht Hb. unfold Teacher_forward.
  cbn [Teacher_init fc1 bn_fc1 fc2 bn_fc2 conv1 bn_conv1 conv2 bn_conv2
       fc2_filters fc2_width].
  unfold noise_size, num_classes, img_size in *.
  change (128 * 28 * 28) with 100352. change (3 / 2) with 1.
  bind_with (cat_shape x target b 64 10 Hx Ht).
  bind_with (Linear_forward_shape (64 + 10) 1024 (t_fc1_w p) (t_fc1_b p) y b S).
  bind_bn (BatchNorm1d_forward_shape training 1024 (1 / 10) (t_bn_fc1_w p)
             (t_bn_fc1_b p) (buf_fc1 buf) (leaky_relu (1 / 10) y0) b S0 Hb).
  bind_with (Linear_forward_shape 1024 100352 (t_fc2_w p) (t_fc2_b p) y1 b S1).
  bind_with (view_teacher (leaky_relu (1 / 10) y2) b S2).
  assert (Hn : training = true -> b * (28 * 28) <> 1) by (intros; lia).
  bind_bn (BatchNorm2d_forward_shape training 128 (1 / 10) (t_bn_fc2_w p)
             (t_bn_fc2_b p) (buf_fc2 buf) y3 b 28 28 S3 Hn).
  bind_with (Conv2d_forward_shape 128 64 3 1 (t_conv1_w p) (t_conv1_b p) y4
               b 28 28 S4 ltac:(lia) ltac:(lia) ltac:(lia) ltac:(lia)).
  change (28 + 2 * 1 - 3 + 1) with 28 in S5.
  bind_bn (BatchNorm2d_forward_shape training 64 (1 / 10) (t_bn_conv1_w p)
             (t_bn_conv1_b p) (buf_conv1 buf) y5 b 28 28 S5 Hn).
  bind_with (Conv2d_forward_shape 64 1 3 1 (t_conv2_w p) (t_conv2_b p)
               (leaky_relu (1 / 10) y6) b 28 28 S6
               ltac:(lia) ltac:(lia) ltac:(lia) ltac:(lia)).
  change (28 + 2 * 1 - 3 + 1) with 28 in S7.
  bind_bn (BatchNorm2d_forward_shape training 1 (1 / 10) (t_bn_conv2_w p)
             (t_bn_conv2_b p) (buf_conv2 buf) y7 b 28 28 S7 Hn).
  eexists. eexists. split; [reflexivity | exact S8].
Qed.

Lemma BatchNorm_train_buffers (m : BatchNorm) (b1 b2 : BNBuffers) (x : tensor) :
  match BatchNorm_forward true m b1 x, BatchNorm_forward true m b2 x with
  | Some r1, Some r2 => fst r1 = fst r2
  | None, None => True
  | _, _ => False
  end.
Proof.
  unfold BatchNorm_forward.
  destruct (existsb (Nat.eqb (rank x)) (bn_ranks m)
            && (nth 1 (shape x) 0 =? num_features m)); [|exact I].
  destruct (per_channel (shape x) =? 1); [exact I | reflexivity].
Qed.

Ltac same_bn m b1 b2 x :=
  let H := fresh "H" in
  pose proof (BatchNorm_train_buffers m b1 b2 x) as H;
  destruct (BatchNorm_forward true m b1 x) as [[? ?]|];
  destruct (BatchNorm_forward true m b2 x) as [[? ?]|];
  try contradiction; try reflexivity;
  cbn [fst snd] in H; subst; cbn [obind fst snd].

(** In training mode the images a teacher returns do not depend on the
    running statistics its batch-norm layers hold. *)
Lemma Teacher_forward_buffers (t : Teacher) (b1 b2 : TeacherBuffers)
    (x target : tensor) :
  option_map fst (Teacher_forward true t b1 x target)
  = option_map fst (Teacher_forward true t b2 x target).
Proof.
  unfold Teacher_forward.
  destruct (cat [x; target] 1) as [x1|]; [|reflexivity]. cbn [obind].
  destruct (Linear_forward (fc1 t) x1) as [x2|]; [|reflexivity]. cbn [obind].
  same_bn (bn_fc1 t) (buf_fc1 b1) (buf_fc1 b2) (leaky_relu (1 / 10) x2).
  destruct (Linear_forward (fc2 t) t1) as [x3|]; [|reflexivity]. cbn [obind].
  destruct (view (leaky_relu (1 / 10) x3) [-1; fc2_filters t; fc2_width t; fc2_width t])
    as [x4|]; [|reflexivity]. cbn [obind].
  same_bn (bn_fc2 t) (buf_fc2 b1) (buf_fc2 b2) x4.
  destruct (Conv2d_forward (conv1 t) t2) as [x5|]; [|reflexivity]. cbn [obind].
  same_bn (bn_conv1 t) (buf_conv1 b1) (buf_conv1 b2) x5.
  destruct (Conv2d_forward (conv2 t) (leaky_relu (1 / 10) t3)) as [x6|];
    [|reflexivity]. cbn [obind].
  same_bn (bn_conv2 t) (buf_conv2 b1) (buf_conv2 b2) x6.
  reflexivity.
Qed.





(** ** Learner *)

Lemma c1_size_value : c1_size = 13.
Proof. reflexivity. Qed.

Lemma c2_size_value : c2_size = 5.
Proof. reflexivity. Qed.


(** ** The inner loop *)

Section LoopProperties.
Context {C : Collaborators}.

Lemma getitem_curriculum (h : Hyper) (w : World) (step : nat) :
  (step < inner_loop_iterations h)%nat ->
  getitem (curriculum_tensor h w) (Z.of_nat step)
  = Some (mkTensor [inner_loop_batch_size; noise_size]
            (fun idx => curriculum w (Z.of_nat step :: idx))).
Proof.
  intros Hs. unfold getitem, curriculum_tensor. cbn [shape elem].
  replace (0 <=? Z.of_nat step) with true by (symmetry; apply Z.leb_le; lia).
  replace (Z.of_nat step <? Z.of_nat (inner_loop_iterations h)) with true
    by (symmetry; apply Z.ltb_lt; lia).
  reflexivity.
Qed.

Lemma synthesize_done (h : Hyper) (step : nat) (w w0 : World) :
  (step < inner_loop_iterations h)%nat ->
  teacher w = teacher w0 -> curriculum w = curriculum w0 ->
  torch_random w = (torch_random w0 + (if use_curriculum h then 0 else step))%nat ->
  exists x w',
    synthesize h step w = Done x w' /\
    batch_of h w0 step = Some x /\
    same_training_state w w' /\
    unrolled w' = unrolled w /\ trace w' = trace w /\
    torch_random w' = (torch_random w + (if use_curriculum h then 0 else 1))%nat.
Proof.
  intros Hs Ht Hc Hr.
  unfold synthesize, batch_of, noise_of, z_vec_at.
  destruct (use_curriculum h) eqn:U; cbn [fst].
  - rewrite !getitem_curriculum by exact Hs. cbn [with_torch_random curriculum].
    set (z := mkTensor [inner_loop_batch_size; noise_size]
                (fun idx => curriculum w (Z.of_nat step :: idx))).
    destruct (Teacher_forward_ok true (teacher w) (teacher_buffers w) z one_hot
                inner_loop_batch_size eq_refl eq_refl) as (r & b' & E & S).
    { intros _. unfold inner_loop_batch_size. lia. }
    rewrite E. cbn [fst].
    pose proof (Teacher_forward_buffers (Teacher_init (teacher w))
                  (teacher_buffers w0) (teacher_buffers w) z one_hot) as HB.
    rewrite E in HB. cbn [option_map fst] in HB.
    exists (tmap tanh_normalise r), (with_buffers w b').
    split; [reflexivity|]. split.
    { rewrite <- Hc. fold z. rewrite <- Ht. cbn [obind].
      destruct (Teacher_forward true (Teacher_init (teacher w)) (teacher_buffers w0)
                  z one_hot) as [[o ?]|]; [|discriminate].
      cbn [option_map fst obind] in HB |- *. injection HB as ->. reflexivity. }
    split; [repeat split|]. split; [reflexivity|]. split; [reflexivity|].
    cbn. lia.
  - cbn [with_torch_random torch_random teacher teacher_buffers].
    rewrite Hr.
    set (z := mkTensor [inner_loop_batch_size; noise_size]
                (randn (torch_random w0 + step)%nat)).
    destruct (Teacher_forward_ok true (teacher w) (teacher_buffers w) z one_hot
                inner_loop_batch_size eq_refl eq_refl) as (r & b' & E & S).
    { intros _. unfold inner_loop_batch_size. lia. }
    rewrite E. cbn [fst].
    pose proof (Teacher_forward_buffers (Teacher_init (teacher w))
                  (teacher_buffers w0) (teacher_buffers w) z one_hot) as HB.
    rewrite E in HB. cbn [option_map fst] in HB.
    eexists. eexists.
    split; [reflexivity|]. split.
    { rewrite <- Ht. cbn [obind].
      destruct (Teacher_forward true (Teacher_init (teacher w)) (teacher_buffers w0)
                  z one_hot) as [[o ?]|]; [|discriminate].
      cbn [option_map fst obind] in HB |- *. injection HB as ->. reflexivity. }
    split; [repeat split|]. split; [reflexivity|]. split; [reflexivity|].
    cbn. lia.
Qed.


Lemma last_cons_default {A : Type} (l : list A) :
  forall a d : A, last (a :: l) d = last l a.
Proof.
  induction l as [|b l IH]; intros a d; [reflexivity|].
  change (last (a :: b :: l) d) with (last (b :: l) d).
  rewrite (IH b d), (IH b a). reflexivity.
Qed.

Lemma same_training_state_trans (w1 w2 w3 : World) :
  same_training_state w1 w2 -> same_training_state w2 w3 ->
  same_training_state w1 w3.
Proof.
  unfold same_training_state. intros (A1 & A2 & A3 & A4 & A5 & A6)
    (B1 & B2 & B3 & B4 & B5 & B6). repeat split; congruence.
Qed.

(** The inner loop runs to its end.  It trains the student on the batches
    the teacher makes of the noise of each step, records every snapshot, and
    leaves the teacher, the curriculum, the optimizer and the iterators as
    they were. *)
Lemma inner_loop_seq (h : Hyper) (show : bool) (arch : Z * Z) (lr mom : R)
    (w0 : World) :
  forall (k a : nat) (s : Student) (losses : list R) (w : World),
    (a + k <= inner_loop_iterations h)%nat ->
    teacher w = teacher w0 -> curriculum w = curriculum w0 ->
    torch_random w = (torch_random w0 + (if use_curriculum h then 0 else a))%nat ->
    exists batches s' losses' w',
      inner_loop h show arch lr mom (seq a k) s losses w = Done (s', losses') w' /\
      map Some batches = map (batch_of h w0) (seq a k) /\
      s' = last (unroll arch lr mom batches s) s /\
      unrolled w' = unrolled w ++ unroll arch lr mom batches s /\
      same_training_state w w' /\
      torch_random w' = (torch_random w + (if use_curriculum h then 0 else k))%nat /\
      exists evs, trace w' = trace w ++ evs /\ forallb is_display evs = true /\
                  (show = false -> evs = []).
Proof.
  induction k as [|k IH]; intros a s losses w Hk Ht Hc Hr.
  - exists [], s, losses, w. cbn. repeat split.
    + now rewrite app_nil_r.
    + destruct (use_curriculum h); lia.
    + exists []. rewrite app_nil_r. repeat split.
  - cbn [seq inner_loop].
    destruct (synthesize_done h a w w0 ltac:(lia) Ht Hc Hr)
      as (x & w1 & E & B & F1 & U1 & T1 & R1).
    rewrite E.
    set (w2 := if show && (Z.of_nat a =? 0) then emit w1 (Display x) else w1).
    set (w3 := if show && (Z.of_nat a =? Z.of_nat (inner_loop_iterations h) - 1)
               then emit w2 (Display x) else w2).
    set (s1 := diffopt_step lr mom (learner_grad arch (fast_weights s) x) s).
    assert (F3 : same_training_state w w3 /\ unrolled w3 = unrolled w /\
                 torch_random w3 = torch_random w1 /\
                 exists evs, trace w3 = trace w ++ evs /\ forallb is_display evs = true
                             /\ (show = false -> evs = [])).
    { subst w3 w2. destruct F1 as (A1 & A2 & A3 & A4 & A5 & A6).
      destruct show; cbn [andb].
      - destruct (Z.of_nat a =? 0);
          destruct (Z.of_nat a =? Z.of_nat (inner_loop_iterations h) - 1);
          cbn; (split; [repeat split; assumption|]); (split; [assumption|]);
          (split; [reflexivity|]); rewrite T1.
        + exists [Display x; Display x]. rewrite <- app_assoc. repeat split. discriminate.
        + exists [Display x]. repeat split. discriminate.
        + exists [Display x]. repeat split. discriminate.
        + exists []. rewrite app_nil_r. repeat split.
      - split; [repeat split; assumption|]. split; [assumption|].
        split; [reflexivity|]. exists []. rewrite T1, app_nil_r. repeat split. }
    destruct F3 as (F3 & U3 & R3 & evs3 & T3 & D3 & N3).
    destruct (IH (S a) s1 (losses ++ [learner_loss arch (fast_weights s) x])
                (with_unrolled w3 (unrolled w3 ++ [s1])))
      as (batches & s' & losses' & w' & E' & B' & L' & U' & F' & R' & evs & T' & D' & N').
    + lia.
    + cbn. destruct F3 as (A1 & _). congruence.
    + cbn. destruct F3 as (_ & A2 & _). congruence.
    + cbn. rewrite R3, R1, Hr. destruct (use_curriculum h); lia.
    + exists (x :: batches), s', losses', w'.
      split; [exact E'|]. split; [cbn [map]; now rewrite B, B'|].
      split.
      { cbn [unroll]. fold s1. rewrite last_cons_default. exact L'. }
      split.
      { rewrite U'. cbn [with_unrolled unrolled unroll]. fold s1.
        rewrite U3, <- app_assoc. reflexivity. }
      split.
      { eapply same_training_state_trans; [exact F3|].
        destruct F' as (A1 & A2 & A3 & A4 & A5 & A6). repeat split; assumption. }
      split.
      { rewrite R'. cbn. rewrite R3, R1. destruct (use_curriculum h); lia. }
      exists (evs3 ++ evs). split.
      { rewrite T'. cbn. rewrite T3, <- app_assoc. reflexivity. }
      split.
      { rewrite forallb_app, D3, D'. reflexivity. }
      intros Hs. rewrite (N3 Hs), (N' Hs). reflexivity.
Qed.

End LoopProperties.
(** ** The outer iteration *)

Section OuterProperties.
Context {C : Collaborators}.

Lemma unroll_length (arch : Z * Z) (lr mom : R) (batches : list tensor) :
  forall s, length (unroll arch lr mom batches s) = length batches.
Proof.
  induction batches as [|x rest IH]; intros s; cbn; [reflexivity|].
  now rewrite IH.
Qed.

(** Each snapshot is one [diffopt.step] away from the one before. *)
Lemma nth_unroll (arch : Z * Z) (lr mom : R) (d : Student) (dx : tensor) :
  forall (batches : list tensor) (s : Student) (t : nat),
    (t < length batches)%nat ->
    let u := s :: unroll arch lr mom batches s in
    nth (S t) u d
    = diffopt_step lr mom
        (learner_grad arch (fast_weights (nth t u d)) (nth t batches dx))
        (nth t u d).
Proof.
  induction batches as [|x rest IH]; intros s t Ht; cbn in Ht; [lia|].
  destruct t as [|t]; [reflexivity|].
  cbv zeta. cbn [unroll].
  set (s1 := diffopt_step lr mom (learner_grad arch (fast_weights s) x) s).
  change (nth (S (S t)) (s :: s1 :: unroll arch lr mom rest s1) d)
    with (nth (S t) (s1 :: unroll arch lr mom rest s1) d).
  change (nth (S t) (s :: s1 :: unroll arch lr mom rest s1) d)
    with (nth t (s1 :: unroll arch lr mom rest s1) d).
  change (nth (S t) (x :: rest) dx) with (nth t rest dx).
  apply IH. lia.
Qed.

(** The final snapshot is the initial one moved by [- lr] times the sum of
    the directions. *)
Lemma unroll_net_update (arch : Z * Z) (lr mom : R) :
  forall (batches : list tensor) (s : Student) (k : nat),
    fast_weights (last (unroll arch lr mom batches s) s) k
    = (fast_weights s k + - lr * net_update arch lr mom batches s k)%R.
Proof.
  induction batches as [|x rest IH]; intros s k; cbn [unroll net_update].
  - cbn [last]. lra.
  - rewrite last_cons_default, IH. cbn [diffopt_step fast_weights]. lra.
Qed.

Lemma py_div_batch (c : Z) :
  py_div c outer_loop_batch_size = Some (IZR c / IZR outer_loop_batch_size)%R.
Proof. reflexivity. Qed.

Lemma optimizer_step_unrolled (h : Hyper) (w : World) :
  unrolled (optimizer_step h w) = unrolled w.
Proof. unfold optimizer_step. destruct (grads w); reflexivity. Qed.

Lemma SGD_accepts_nonneg (lr mom : R) :
  (0 <= lr)%R -> (0 <= mom)%R -> SGD_accepts lr mom = true.
Proof.
  intros Hl Hm. unfold SGD_accepts.
  destruct (Rlt_dec lr 0); [lra|]. destruct (Rlt_dec mom 0); [lra|]. reflexivity.
Qed.

(** A negative learning rate or momentum stops the iteration before any
    inner step. *)
Lemma outer_body_rejected (h : Hyper) (test_loader : list RealBatch) (it : nat)
    (real_data : RealBatch) (w : World) :
  let lr := fst (t_learner_optim_params (teacher w)) in
  let mom := snd (t_learner_optim_params (teacher w)) in
  let sw := sample_widths 32 64 64 128 (zero_grad w) in
  SGD_accepts lr mom = false ->
  outer_body h test_loader it real_data w
  = Raise ValueError (snd (new_learner (fst sw) (snd sw))).
Proof.
  intros lr mom sw Hrej. unfold outer_body. subst sw.
  cbv [sample_widths new_learner]. cbn [fst snd].
  change (teacher (zero_grad w)) with (teacher w). fold lr mom.
  rewrite Hrej. reflexivity.
Qed.

(** One outer iteration, its inner loop resolved. *)
Lemma outer_body_unfold (h : Hyper) (test_loader : list RealBatch) (it : nat)
    (real_data : RealBatch) (w : World) :
  let lr := fst (t_learner_optim_params (teacher w)) in
  let mom := snd (t_learner_optim_params (teacher w)) in
  let sw := sample_widths 32 64 64 128 (zero_grad w) in
  let arch := fst sw in
  let s0 := fst (new_learner arch (snd sw)) in
  let w_in := innerloop_ctx s0 (snd (new_learner arch (snd sw))) in
  SGD_accepts lr mom = true ->
  exists batches s losses w1,
    map Some batches = map (batch_of h w_in) (seq 0 (inner_loop_iterations h)) /\
    s = last (unroll arch lr mom batches s0) s0 /\
    unrolled w1 = s0 :: unroll arch lr mom batches s0 /\
    same_training_state w_in w1 /\
    (exists evs, trace w1 = trace w_in ++ evs /\ forallb is_display evs = true) /\
    outer_body h test_loader it real_data w =
      let w := emit (emit w1 (PrintInnerLosses losses))
                 (PrintTrainAccuracy
                    (IZR (count_correct arch (fast_weights s) real_data)
                     / IZR outer_loop_batch_size)) in
      match val_iterator w with
      | [] => Raise StopIteration w
      | data :: rest =>
          let w := emit (with_val_iterator w rest)
                     (PrintValAccuracy
                        (IZR (count_correct arch (fast_weights s) data)
                         / IZR outer_loop_batch_size)) in
          if Z.of_nat it =? Z.of_nat (outer_loop_iterations h) - 1 then
            match py_div (total_correct arch s test_loader)
                    (outer_loop_batch_size * Z.of_nat (length test_loader)) with
            | None => Raise ZeroDivisionError w
            | Some accuracy =>
                Break (emit (emit w (PrintFinalTestAccuracy accuracy)) (Plot losses))
            end
          else
            Next (optimizer_step h
                    (emit (with_grads w
                             (Some (backward (teacher w) (curriculum w) (unrolled w)
                                      real_data)))
                          Backward))
      end.
Proof.
  intros lr mom sw arch s0 w_in Hacc.
  destruct (inner_loop_seq h true arch lr mom w_in (inner_loop_iterations h) 0 s0 [] w_in)
    as (batches & s & losses & w1 & E & B & L & U & F & R' & evs & T & D & _).
  - lia.
  - reflexivity.
  - reflexivity.
  - destruct (use_curriculum h); lia.
  - exists batches, s, losses, w1.
    split; [exact B|]. split; [exact L|]. split; [exact U|]. split; [exact F|].
    split; [exists evs; split; assumption|].
    unfold outer_body. subst w_in s0 arch sw.
    cbv [sample_widths new_learner] in E |- *. cbn [fst snd] in E |- *.
    change (teacher (zero_grad w)) with (teacher w). fold lr mom.
    rewrite Hacc. cbn [negb].
    rewrite E. rewrite py_div_batch. cbv zeta.
    destruct (val_iterator _) as [|data rest]; [reflexivity|].
    rewrite py_div_batch. reflexivity.
Qed.

Lemma map_Some_inj {A : Type} (l l' : list A) :
  map Some l = map Some l' -> l = l'.
Proof.
  revert l'. induction l as [|a l IH]; intros [|a' l'] H; cbn in H;
    try discriminate; [reflexivity|].
  injection H as -> H. f_equal. now apply IH.
Qed.

Lemma outer_body_unrolled (h : Hyper) (test_loader : list RealBatch) (it : nat)
    (real_data : RealBatch) (w : World) :
  let lr := fst (t_learner_optim_params (teacher w)) in
  let mom := snd (t_learner_optim_params (teacher w)) in
  let sw := sample_widths 32 64 64 128 (zero_grad w) in
  let arch := fst sw in
  let s0 := fst (new_learner arch (snd sw)) in
  let w_in := innerloop_ctx s0 (snd (new_learner arch (snd sw))) in
  SGD_accepts lr mom = true ->
  exists batches,
    map Some batches = map (batch_of h w_in) (seq 0 (inner_loop_iterations h)) /\
    unrolled (control_world (outer_body h test_loader it real_data w))
    = s0 :: unroll arch lr mom batches s0.
Proof.
  intros lr mom sw arch s0 w_in Hacc.
  destruct (outer_body_unfold h test_loader it real_data w Hacc)
    as (batches & s & losses & w1 & B & L & U & F & _ & E).
  exists batches. split; [exact B|]. rewrite E. cbv zeta.
  fold lr mom sw arch s0 in U. rewrite <- U.
  destruct (val_iterator _) as [|data rest]; [reflexivity|].
  destruct (Z.of_nat it =? Z.of_nat (outer_loop_iterations h) - 1).
  - destruct (py_div _ _); reflexivity.
  - cbn [control_world]. rewrite optimizer_step_unrolled. reflexivity.
Qed.

(** C1, as the code has it.  In one outer iteration the recorded students
    are the initial one followed by one [diffopt.step] per inner step: the
    student of step [t + 1] is computed from the student of step [t] (its
    fast weights and its momentum buffer), the batch the teacher makes at
    that step, and the learning rate and momentum read once from the
    teacher.  The batches and the whole trajectory are the same whatever
    the real batch is.  (With a negative learning rate or momentum there is
    no step at all: the learner's optimizer is refused, whatever the real
    batch.) *)
Theorem inner_trajectory (h : Hyper) (test_loader : list RealBatch) (it : nat)
    (w : World) :
  let lr := fst (t_learner_optim_params (teacher w)) in
  let mom := snd (t_learner_optim_params (teacher w)) in
  let sw := sample_widths 32 64 64 128 (zero_grad w) in
  let arch := fst sw in
  let s0 := fst (new_learner arch (snd sw)) in
  let w_in := innerloop_ctx s0 (snd (new_learner arch (snd sw))) in
  exists batches,
    map Some batches = map (batch_of h w_in) (seq 0 (inner_loop_iterations h)) /\
    (SGD_accepts lr mom = false /\
     (forall real_data : RealBatch,
        outer_body h test_loader it real_data w
        = Raise ValueError (snd (new_learner arch (snd sw))))
     \/
     SGD_accepts lr mom = true /\
     (forall real_data : RealBatch,
        let u := unrolled (control_world (outer_body h test_loader it real_data w)) in
        u = s0 :: unroll arch lr mom batches s0 /\
        forall t, (t < inner_loop_iterations h)%nat ->
          nth (S t) u s0
          = diffopt_step lr mom
              (learner_grad arch (fast_weights (nth t u s0)) (nth t batches one_hot))
              (nth t u s0))).
Proof.
  intros lr mom sw arch s0 w_in.
  destruct (inner_loop_seq h true arch lr mom w_in (inner_loop_iterations h) 0 s0 [] w_in)
    as (batches & _ & _ & _ & _ & B & _).
  { lia. } { reflexivity. } { reflexivity. } { destruct (use_curriculum h); lia. }
  exists batches. split; [exact B|].
  destruct (SGD_accepts lr mom) eqn:Hacc.
  - right. split; [reflexivity|]. intros real_data u.
    destruct (outer_body_unrolled h test_loader it real_data w Hacc)
      as (batches' & B' & U).
    fold lr mom sw arch s0 w_in in B', U.
    assert (batches' = batches) as ->.
    { apply map_Some_inj. now rewrite B, B'. }
    subst u. rewrite U. split; [reflexivity|].
    intros t Ht. apply (nth_unroll arch lr mom s0 one_hot batches s0 t).
    apply (f_equal (@length _)) in B. rewrite !length_map, length_seq in B. lia.
  - left. split; [reflexivity|]. intros real_data.
    apply (outer_body_rejected h test_loader it real_data w Hacc).
Qed.

End OuterProperties.

Lemma inner_trajectory_witness :
  exists batches : list tensor,
    length batches = inner_loop_iterations notebook /\
    forall real_data : unit,
      length (unrolled (control_world
                          (outer_body (C := quadratic) notebook [] 0 real_data
                             (start 5))))
      = S (inner_loop_iterations notebook).
Proof.
  destruct (inner_trajectory (C := quadratic) notebook [] 0 (start 5))
    as (batches & B & [(Hrej & _)|(_ & H)]).
  { exfalso. revert Hrej. cbn [start teacher zero_teacher t_learner_optim_params
                                fst snd]. unfold SGD_accepts.
    destruct (Rlt_dec (2 / 100) 0); [lra|].
    destruct (Rlt_dec (1 / 2) 0); [lra | discriminate]. }
  apply (f_equal (@length _)) in B. rewrite !length_map, length_seq in B.
  exists batches. split; [exact B|].
  intros real_data. destruct (H real_data) as (U & _).
  rewrite U. cbn [length]. rewrite unroll_length, B. reflexivity.
Defined.

(** C1 does not hold for the parameter snapshot alone: the fast weights
    after a step are not a function of
    the fast weights before it, the batch and the two scalars alone.  Two
    students trained on the same batches with the same learning rate 1 and
    momentum 1/2 have the same fast weights after the first step and
    different ones after the second, because their momentum buffers
    differ. *)
Lemma same_snapshot_different_successor :
  let x := one_hot in
  let a := unroll (C := quadratic) (32, 64) 1 (1 / 2) [x; x]
             (mkStudent (fun _ => 1%R) None) in
  let b := unroll (C := quadratic) (32, 64) 1 (1 / 2) [x; x]
             (mkStudent (fun _ => 2%R) None) in
  let d := mkStudent (fun _ => 0%R) None in
  (forall k, fast_weights (nth 0 a d) k = fast_weights (nth 0 b d) k) /\
  fast_weights (nth 1 a d) O <> fast_weights (nth 1 b d) O.
Proof.
  cbv [unroll nth quadratic learner_grad diffopt_step update_direction
       fast_weights momentum_buffer].
  destruct (Req_dec_T (1 / 2) 0) as [H|H]; [lra|].
  split.
  - intros k. lra.
  - lra.
Qed.

Section InnerProperties.
Context {C : Collaborators}.

(** The inner loop runs to its end and moves the snapshot by [- lr] times
    the sum of the directions applied at its steps. *)
Lemma inner_loop_net_update (h : Hyper) (show : bool) (arch : Z * Z)
    (lr mom : R) (s : Student) (w : World) :
  exists batches s' losses w',
    inner_loop h show arch lr mom (seq 0 (inner_loop_iterations h)) s [] w
    = Done (s', losses) w' /\
    map Some batches = map (batch_of h w) (seq 0 (inner_loop_iterations h)) /\
    forall k, fast_weights s' k
              = (fast_weights s k + - lr * net_update arch lr mom batches s k)%R.
Proof.
  destruct (inner_loop_seq h show arch lr mom w (inner_loop_iterations h) 0 s [] w)
    as (batches & s' & losses & w' & E & B & L & _).
  { lia. } { reflexivity. } { reflexivity. } { destruct (use_curriculum h); lia. }
  exists batches, s', losses, w'. split; [exact E|]. split; [exact B|].
  intros k. rewrite L. apply unroll_net_update.
Qed.

(** C3, as the code has it.  The inner loop ends with the initial snapshot
    moved by [- lr] times the sum of the directions applied at its steps
    (the gradient, or the momentum buffer).  So the final snapshot equals
    the initial one when the learning rate is zero, for any momentum and any
    number of steps, and for a non-zero learning rate it differs from it
    exactly at the parameters where that sum is not zero. *)
Theorem inner_loop_final_snapshot (h : Hyper) (show : bool) (arch : Z * Z)
    (lr mom : R) (s : Student) (w : World) :
  exists batches s' losses w',
    inner_loop h show arch lr mom (seq 0 (inner_loop_iterations h)) s [] w
    = Done (s', losses) w' /\
    map Some batches = map (batch_of h w) (seq 0 (inner_loop_iterations h)) /\
    (forall k, fast_weights s' k
               = (fast_weights s k + - lr * net_update arch lr mom batches s k)%R) /\
    (lr = 0%R -> forall k, fast_weights s' k = fast_weights s k) /\
    (lr <> 0%R ->
     forall k, fast_weights s' k <> fast_weights s k
               <-> net_update arch lr mom batches s k <> 0%R).
Proof.
  destruct (inner_loop_net_update h show arch lr mom s w)
    as (batches & s' & losses & w' & E & B & H).
  exists batches, s', losses, w'. split; [exact E|]. split; [exact B|].
  split; [exact H|]. split.
  - intros -> k. rewrite H. lra.
  - intros Hlr k. rewrite H. split.
    + intros Hd Hn. apply Hd. rewrite Hn. lra.
    + intros Hn Hd. apply Hn.
      assert (lr * net_update arch lr mom batches s k = 0)%R as Hz by lra.
      apply Rmult_integral in Hz. destruct Hz; [contradiction | assumption].
Qed.

End InnerProperties.

Lemma inner_loop_final_snapshot_witness :
  exists s' losses w',
    inner_loop (C := quadratic) notebook false (32, 64) 0 (1 / 2) (seq 0 32)
      (mkStudent (fun _ => 1%R) None) [] (start 5) = Done (s', losses) w' /\
    forall k, fast_weights s' k = 1%R.
Proof.
  destruct (inner_loop_final_snapshot (C := quadratic) notebook false (32, 64)
              0 (1 / 2) (mkStudent (fun _ => 1%R) None) (start 5))
    as (batches & s' & losses & w' & E & _ & _ & H0 & _).
  exists s', losses, w'. split; [exact E|].
  intros k. apply (H0 eq_refl k).
Defined.

(** At a stationary point of the synthetic loss nothing moves. *)
Lemma net_update_stationary (arch : Z * Z) (lr mom : R) :
  forall (batches : list tensor) (s : Student),
    (forall k, fast_weights s k = 0%R) ->
    (forall b, momentum_buffer s = Some b -> forall k, b k = 0%R) ->
    forall k, net_update (C := quadratic) arch lr mom batches s k = 0%R.
Proof.
  induction batches as [|x rest IH]; intros s Hw Hb k; cbn [net_update];
    [reflexivity|].
  assert (Hd : forall j,
             update_direction mom
               (learner_grad (Collaborators := quadratic) arch (fast_weights s) x) s j
             = 0%R).
  { intros j. unfold update_direction. cbn [learner_grad quadratic].
    destruct (Req_dec_T mom 0); [apply Hw|].
    destruct (momentum_buffer s) as [b|] eqn:Eb; [|apply Hw].
    rewrite (Hb b eq_refl j), Hw. lra. }
  rewrite Hd, IH; [lra| |].
  - intros j. cbn [diffopt_step fast_weights]. rewrite Hd, Hw. lra.
  - intros b. cbn [diffopt_step momentum_buffer].
    destruct (Req_dec_T mom 0); [apply Hb|].
    intros Hb' j. injection Hb' as <-. apply Hd.
Qed.

(** C3 does not hold for every student: with learning rate 0.02, momentum 0.5 and the 32
    steps of the notebook, a student that starts at the minimum of its
    synthetic loss ends with the snapshot it started with. *)
Lemma nonzero_rate_unchanged_snapshot :
  let s := mkStudent (fun _ => 0%R) None in
  exists s' losses w',
    inner_loop (C := quadratic) notebook false (32, 64) (2 / 100) (1 / 2)
      (seq 0 (inner_loop_iterations notebook)) s [] (start 5)
    = Done (s', losses) w' /\
    (2 / 100 <> 0)%R /\ (0 < inner_loop_iterations notebook)%nat /\
    forall k, fast_weights s' k = fast_weights s k.
Proof.
  intros s.
  destruct (inner_loop_net_update (C := quadratic) notebook false (32, 64)
              (2 / 100) (1 / 2) s (start 5))
    as (batches & s' & losses & w' & E & _ & H).
  exists s', losses, w'. split; [exact E|]. split; [lra|]. split; [cbn; lia|].
  intros k. rewrite H, net_update_stationary; [lra | reflexivity | discriminate].
Qed.

(** ** The outer loop *)

Section BudgetProperties.
Context {C : Collaborators}.

Lemma optimizer_step_val_iterator (h : Hyper) (w : World) :
  val_iterator (optimizer_step h w) = val_iterator w.
Proof. unfold optimizer_step. destruct (grads w); reflexivity. Qed.

(** Only the iteration at the budget leaves the loop. *)
Lemma outer_body_break_only (h : Hyper) (test_loader : list RealBatch) (it : nat)
    (real_data : RealBatch) (w w' : World) :
  outer_body h test_loader it real_data w = Break w' ->
  Z.of_nat it = Z.of_nat (outer_loop_iterations h) - 1.
Proof.
  destruct (SGD_accepts (fst (t_learner_optim_params (teacher w)))
              (snd (t_learner_optim_params (teacher w)))) eqn:Hacc.
  - destruct (outer_body_unfold h test_loader it real_data w Hacc)
      as (batches & s & losses & w1 & _ & _ & _ & _ & _ & E).
    rewrite E. cbv zeta.
    destruct (val_iterator _) as [|data rest]; [discriminate|].
    destruct (Z.of_nat it =? Z.of_nat (outer_loop_iterations h) - 1) eqn:Ei;
      [|discriminate].
    intros _. now apply Z.eqb_eq.
  - rewrite (outer_body_rejected h test_loader it real_data w Hacc). discriminate.
Qed.

(** At the budget an iteration leaves the loop after the test accuracy,
    without [loss.backward()] and without [optimizer_teacher.step()]. *)
Lemma outer_body_break (h : Hyper) (test_loader : list RealBatch) (it : nat)
    (real_data : RealBatch) (w : World) :
  Z.of_nat it = Z.of_nat (outer_loop_iterations h) - 1 ->
  val_iterator w <> [] -> test_loader <> [] ->
  (0 <= fst (t_learner_optim_params (teacher w)))%R ->
  (0 <= snd (t_learner_optim_params (teacher w)))%R ->
  let arch := fst (sample_widths 32 64 64 128 (zero_grad w)) in
  exists w' displays losses a_train a_val,
    outer_body h test_loader it real_data w = Break w' /\
    teacher w' = teacher w /\ curriculum w' = curriculum w /\
    optimizer_teacher w' = optimizer_teacher w /\ grads w' = None /\
    forallb is_display displays = true /\
    forall d,
      trace w' = trace w ++ ZeroGrad :: displays
                 ++ [PrintInnerLosses losses; PrintTrainAccuracy a_train;
                     PrintValAccuracy a_val;
                     PrintFinalTestAccuracy
                       (IZR (total_correct arch (last (unrolled w') d) test_loader)
                        / IZR (outer_loop_batch_size * Z.of_nat (length test_loader)));
                     Plot losses].
Proof.
  intros Hit Hv Ht Hlr Hmom arch.
  destruct (outer_body_unfold h test_loader it real_data w
              (SGD_accepts_nonneg _ _ Hlr Hmom))
    as (batches & s & losses & w1 & _ & L & U & F & (evs & T & D) & E).
  rewrite E. cbv zeta. cbn [emit val_iterator].
  destruct F as (F1 & F2 & F3 & F4 & Fv & _). cbn in F1, F2, F3, F4, Fv, T.
  rewrite Fv.
  destruct (val_iterator w) as [|data rest]; [contradiction|].
  apply Z.eqb_eq in Hit. rewrite Hit.
  unfold py_div.
  replace (outer_loop_batch_size * Z.of_nat (length test_loader) =? 0) with false.
  2:{ symmetry. apply Z.eqb_neq. unfold outer_loop_batch_size.
      destruct test_loader; [contradiction|]. cbn [length]. lia. }
  eexists. exists evs, losses.
  eexists. eexists. split; [reflexivity|].
  cbn [teacher curriculum optimizer_teacher grads trace unrolled emit
       with_val_iterator with_grads zero_grad].
  rewrite F1, F2, F3, F4, T, U.
  repeat (split; [reflexivity || assumption|]).
  intros d. rewrite last_cons_default, <- L.
  cbn [sample_widths new_learner innerloop_ctx with_np_random with_torch_random
       with_unrolled zero_grad emit with_grads trace snd fst].
  rewrite <- !app_assoc. reflexivity.
Qed.

(** If the first [k] batches, all before the budget, are processed without
    an exception, the loop goes on with the next batch from the world they
    leave. *)
Lemma outer_loop_prefix (h : Hyper) (test_loader : list RealBatch) :
  forall (k it : nat) (train_loader : list RealBatch) (w w_k : World),
    Z.of_nat it + Z.of_nat k <= Z.of_nat (outer_loop_iterations h) - 1 ->
    (k <= length train_loader)%nat ->
    outer_loop h test_loader it (firstn k train_loader) w = Finished w_k ->
    outer_loop h test_loader it train_loader w
    = outer_loop h test_loader (it + k) (skipn k train_loader) w_k.
Proof.
  induction k as [|k IH]; intros it train_loader w w_k Hk Hl H.
  - cbn in H. injection H as <-. now rewrite Nat.add_0_r.
  - destruct train_loader as [|real_data rest]; [cbn in Hl; lia|].
    cbn [firstn skipn outer_loop] in H |- *.
    destruct (outer_body h test_loader it real_data w) as [e w1|w1|w1] eqn:E.
    + discriminate.
    + rewrite (IH (S it) rest w1 w_k); [f_equal; lia | lia | cbn in Hl; lia | exact H].
    + apply outer_body_break_only in E. lia.
Qed.


(** Before the budget an iteration with a validation batch and an accepted
    learning rate and momentum ends with the teacher's update. *)
Lemma outer_body_next (h : Hyper) (test_loader : list RealBatch) (it : nat)
    (real_data : RealBatch) (w : World) :
  Z.of_nat it <> Z.of_nat (outer_loop_iterations h) - 1 ->
  val_iterator w <> [] ->
  (0 <= fst (t_learner_optim_params (teacher w)))%R ->
  (0 <= snd (t_learner_optim_params (teacher w)))%R ->
  exists w1 g,
    outer_body h test_loader it real_data w
    = Next (optimizer_step h (emit (with_grads w1 (Some g)) Backward)) /\
    teacher w1 = teacher w /\ curriculum w1 = curriculum w /\
    optimizer_teacher w1 = optimizer_teacher w /\
    val_iterator w1 = tl (val_iterator w).
Proof.
  intros Hit Hv Hlr Hmom.
  destruct (outer_body_unfold h test_loader it real_data w
              (SGD_accepts_nonneg _ _ Hlr Hmom))
    as (batches & s & losses & w1 & _ & _ & _ & F & _ & E).
  rewrite E. cbv zeta. cbn [emit val_iterator].
  destruct F as (F1 & F2 & _ & F4 & Fv & _). cbn in F1, F2, F4, Fv. rewrite Fv.
  destruct (val_iterator w) as [|data rest]; [contradiction|].
  apply Z.eqb_neq in Hit. rewrite Hit.
  eexists. eexists. split; [reflexivity|].
  cbn. repeat split; assumption.
Qed.

End BudgetProperties.

(** With the collaborators [quadratic], whose Adam leaves the parameters
    where they are, the iterations before the budget all end normally. *)
Lemma outer_loop_quadratic_prefix (h : Hyper) (test_loader : list unit) :
  forall (k it : nat) (train_loader : list unit) (w : @World quadratic),
    Z.of_nat it + Z.of_nat k <= Z.of_nat (outer_loop_iterations h) - 1 ->
    (k <= length train_loader)%nat -> (k <= length (val_iterator w))%nat ->
    teacher w = zero_teacher ->
    exists w_k,
      outer_loop (C := quadratic) h test_loader it (firstn k train_loader) w
      = Finished w_k /\
      teacher w_k = zero_teacher /\
      length (val_iterator w_k) = (length (val_iterator w) - k)%nat.
Proof.
  induction k as [|k IH]; intros it train_loader w Hk Hl Hv Ht.
  - exists w. cbn. repeat split; [assumption | lia].
  - destruct train_loader as [|real_data rest]; [cbn in Hl; lia|].
    cbn [firstn outer_loop].
    destruct (outer_body_next (C := quadratic) h test_loader it real_data w)
      as (w1 & g & E & T1 & _ & _ & V).
    { lia. }
    { destruct (val_iterator w); [cbn in Hv; lia | discriminate]. }
    { rewrite Ht. cbn. lra. }
    { rewrite Ht. cbn. lra. }
    rewrite E.
    destruct (IH (S it) rest
                (optimizer_step h (emit (with_grads w1 (Some g)) Backward)))
      as (w_k & Ek & Tk & Vk).
    + lia.
    + cbn in Hl. lia.
    + rewrite optimizer_step_val_iterator. cbn. rewrite V.
      destruct (val_iterator w); cbn in Hv |- *; lia.
    + cbn. congruence.
    + exists w_k. split; [exact Ek|]. split; [exact Tk|].
      rewrite Vk, optimizer_step_val_iterator. cbn. rewrite V.
      destruct (val_iterator w); cbn in Hv |- *; lia.
Qed.

(** ** Architecture search *)

Section SearchProperties.
Context {C : Collaborators}.

(** One trial, its inner loop resolved. *)
Lemma nas_body_unfold (h : Hyper) (val_loader test_loader : list RealBatch)
    (i : nat) (l : NasLocals) (w : World) :
  let sw := sample_widths 1 64 1 128 w in
  let arch := fst sw in
  exists s w1,
    teacher w1 = teacher w /\ curriculum w1 = curriculum w /\
    grads w1 = grads w /\ optimizer_teacher w1 = optimizer_teacher w /\
    trace w1 = trace w /\
    nas_body h val_loader test_loader i l w =
      if negb (SGD_accepts (fst (t_learner_optim_params (teacher w)))
                 (snd (t_learner_optim_params (teacher w))))
      then Raised ValueError (snd (new_learner arch (snd sw))) else
      match py_div (total_correct arch s val_loader)
              (outer_loop_batch_size * Z.of_nat (length val_loader)) with
      | None => Raised ZeroDivisionError w1
      | Some accuracy =>
          let l := if Rlt_dec (best_accuracy l) accuracy
                   then {| best_accuracy := accuracy; filter_counts := Some arch |}
                   else l in
          let w := emit w1 (PrintArchitecture (i + 1) (fst arch) (snd arch) accuracy) in
          if Z.of_nat i =? Z.of_nat (num_architectures h) - 1 then
            match py_div (total_correct arch s test_loader)
                    (outer_loop_batch_size * Z.of_nat (length test_loader)) with
            | None => Raised ZeroDivisionError w
            | Some accuracy =>
                match filter_counts l with
                | None => Raised NameError w
                | Some fc =>
                    Done l (emit w (PrintBestArchitecture (fst fc) (snd fc) accuracy))
                end
            end
          else Done l w
      end.
Proof.
  intros sw arch.
  set (s0 := fst (new_learner arch (snd sw))).
  set (w_in := innerloop_ctx s0 (snd (new_learner arch (snd sw)))).
  destruct (inner_loop_seq h false arch
              (fst (t_learner_optim_params (teacher w)))
              (snd (t_learner_optim_params (teacher w)))
              w_in (inner_loop_iterations h) 0 s0 [] w_in)
    as (batches & s & losses & w1 & E & _ & _ & _ & F & _ & evs & T & _ & N).
  { lia. } { reflexivity. } { reflexivity. } { destruct (use_curriculum h); lia. }
  destruct F as (F1 & F2 & F3 & F4 & F5 & F6). cbn in F1, F2, F3, F4, F5, F6.
  exists s, w1. repeat (split; [assumption|]). split.
  { rewrite T, (N eq_refl), app_nil_r. reflexivity. }
  unfold nas_body. subst s0 w_in arch sw.
  cbv [sample_widths new_learner] in E |- *. cbn [fst snd] in E |- *.
  cbn [teacher with_unrolled with_torch_random with_np_random] in E |- *.
  destruct (negb _); [reflexivity|].
  rewrite E. reflexivity.
Qed.


(** A trial trains no teacher: whatever its outcome, the teacher, the
    curriculum, their gradients and the optimizer are untouched, and it only
    prints. *)
Lemma nas_body_frame (h : Hyper) (val_loader test_loader : list RealBatch)
    (i : nat) (l : NasLocals) (w : World) :
  let w' := result_world (nas_body h val_loader test_loader i l w) in
  teacher w' = teacher w /\ curriculum w' = curriculum w /\
  grads w' = grads w /\ optimizer_teacher w' = optimizer_teacher w /\
  exists evs, trace w' = trace w ++ evs /\ forallb is_search_report evs = true.
Proof.
  destruct (nas_body_unfold h val_loader test_loader i l w)
    as (s & w1 & F1 & F2 & F3 & F4 & T & E).
  rewrite E. cbv zeta.
  destruct (negb _).
  { cbn. repeat split. exists []. now rewrite app_nil_r. }
  destruct (py_div _ _) as [accuracy|].
  2:{ cbn. repeat (split; [assumption|]). exists []. now rewrite app_nil_r. }
  destruct (Z.of_nat i =? Z.of_nat (num_architectures h) - 1).
  2:{ cbn. repeat (split; [assumption|]). rewrite T. eexists. split; reflexivity. }
  destruct (py_div _ _) as [accuracy'|].
  2:{ cbn. repeat (split; [assumption|]). rewrite T. eexists. split; reflexivity. }
  destruct (filter_counts _) as [fc|].
  - cbn. repeat (split; [assumption|]). rewrite T, <- app_assoc.
    eexists. split; reflexivity.
  - cbn. repeat (split; [assumption|]). rewrite T. eexists. split; reflexivity.
Qed.

Lemma nas_loop_frame (h : Hyper) (val_loader test_loader : list RealBatch) :
  forall (range : list nat) (l : NasLocals) (w : World),
    let w' := result_world (nas_loop h val_loader test_loader range l w) in
    teacher w' = teacher w /\ curriculum w' = curriculum w /\
    grads w' = grads w /\ optimizer_teacher w' = optimizer_teacher w /\
    exists evs, trace w' = trace w ++ evs /\ forallb is_search_report evs = true.
Proof.
  induction range as [|i rest IH]; intros l w; cbn [nas_loop].
  - cbn. repeat split. exists []. now rewrite app_nil_r.
  - pose proof (nas_body_frame h val_loader test_loader i l w) as H.
    destruct (nas_body h val_loader test_loader i l w) as [e w1|l1 w1];
      [exact H|].
    cbn [result_world] in H.
    destruct H as (F1 & F2 & F3 & F4 & evs & T & D).
    destruct (IH l1 w1) as (G1 & G2 & G3 & G4 & evs' & T' & D').
    cbv zeta. repeat split; try congruence.
    exists (evs ++ evs'). split.
    + rewrite T', T, <- app_assoc. reflexivity.
    + rewrite forallb_app, D, D'. reflexivity.
Qed.

(** C7. The architecture search leaves the teacher's parameters, the
    learner's learning rate and momentum among them, and the curriculum as
    they were, whether it ends or raises: it applies no optimizer step and
    no backward pass, it only prints. *)
Theorem nas_keeps_teacher (h : Hyper) (val_loader test_loader : list RealBatch)
    (w : World) :
  let w' := result_world (nas h val_loader test_loader w) in
  teacher w' = teacher w /\
  t_learner_optim_params (teacher w') = t_learner_optim_params (teacher w) /\
  curriculum w' = curriculum w /\
  optimizer_teacher w' = optimizer_teacher w /\
  exists evs, trace w' = trace w ++ evs /\
              ~ In OptimizerStep evs /\ ~ In Backward evs.
Proof.
  destruct (nas_loop_frame h val_loader test_loader (seq 0 (num_architectures h))
              {| best_accuracy := 0%R; filter_counts := None |} w)
    as (F1 & F2 & F3 & F4 & evs & T & D).
  cbv zeta. unfold nas. rewrite F1. repeat split; try assumption.
  exists evs. split; [exact T|].
  rewrite forallb_forall in D.
  split; intros H; apply D in H; discriminate.
Qed.

End SearchProperties.

(** *** The reported architecture *)

Section BestProperties.
Context {C : Collaborators}.

(** A trial that ends records its accuracy and raises the best one when it
    is beaten; the last trial also prints [filter_counts]. *)
Lemma nas_body_done (h : Hyper) (val_loader test_loader : list RealBatch)
    (i : nat) (l l' : NasLocals) (w w' : World) :
  nas_body h val_loader test_loader i l w = Done l' w' ->
  exists arch accuracy,
    ((best_accuracy l < accuracy)%R /\
     l' = {| best_accuracy := accuracy; filter_counts := Some arch |}
     \/ (accuracy <= best_accuracy l)%R /\ l' = l) /\
    let record := PrintArchitecture (i + 1) (fst arch) (snd arch) accuracy in
    (Z.of_nat i <> Z.of_nat (num_architectures h) - 1 /\
     trace w' = trace w ++ [record]
     \/ Z.of_nat i = Z.of_nat (num_architectures h) - 1 /\
        exists fc test_accuracy,
          filter_counts l' = Some fc /\
          trace w' = trace w ++ [record;
                                 PrintBestArchitecture (fst fc) (snd fc) test_accuracy]).
Proof.
  destruct (nas_body_unfold h val_loader test_loader i l w)
    as (s & w1 & _ & _ & _ & _ & T & E).
  rewrite E. cbv zeta. clear E.
  destruct (negb _); [discriminate|].
  destruct (py_div _ _) as [accuracy|]; [|discriminate].
  set (arch := fst (sample_widths 1 64 1 128 w)).
  set (l1 := if Rlt_dec (best_accuracy l) accuracy
             then {| best_accuracy := accuracy; filter_counts := Some arch |}
             else l).
  assert (Hl : (best_accuracy l < accuracy)%R /\
               l1 = {| best_accuracy := accuracy; filter_counts := Some arch |}
               \/ (accuracy <= best_accuracy l)%R /\ l1 = l).
  { subst l1. destruct (Rlt_dec (best_accuracy l) accuracy) as [H|H].
    - left. split; [exact H | reflexivity].
    - right. split; [lra | reflexivity]. }
  destruct (Z.of_nat i =? Z.of_nat (num_architectures h) - 1) eqn:Ei.
  - apply Z.eqb_eq in Ei.
    destruct (py_div _ _) as [accuracy'|]; [|discriminate].
    destruct (filter_counts l1) as [fc|] eqn:Ef; [|discriminate].
    intros H. injection H as <- <-.
    exists arch, accuracy. split; [exact Hl|]. right. split; [exact Ei|].
    exists fc, accuracy'. split; [exact Ef|].
    cbn. rewrite T, <- app_assoc. reflexivity.
  - apply Z.eqb_neq in Ei. intros H. injection H as <- <-.
    exists arch, accuracy. split; [exact Hl|]. left. split; [exact Ei|].
    cbn. rewrite T. reflexivity.
Qed.

Lemma nas_loop_done (h : Hyper) (val_loader test_loader : list RealBatch) :
  forall (k a : nat) (l l' : NasLocals) (w w' : World) (evs : list Event),
    (a + S k = num_architectures h)%nat ->
    best_so_far l evs ->
    nas_loop h val_loader test_loader (seq a (S k)) l w = Done l' w' ->
    exists fc test_accuracy evs',
      filter_counts l' = Some fc /\
      trace w' = trace w ++ evs' /\
      In (PrintBestArchitecture (fst fc) (snd fc) test_accuracy) evs' /\
      best_so_far l' (evs ++ evs').
Proof.
  induction k as [|k IH]; intros a l l' w w' evs Ha Hinv H.
  - cbn [seq nas_loop] in H.
    destruct (nas_body h val_loader test_loader a l w) as [e w1|l1 w1] eqn:E;
      [discriminate|].
    injection H as <- <-.
    destruct (nas_body_done _ _ _ _ _ _ _ _ E) as (arch & acc & Hl & Ht).
    cbv zeta in Ht. destruct Ht as [[Hn _]|[_ (fc & ta & Ef & T)]]; [lia|].
    exists fc, ta. eexists. split; [exact Ef|]. split; [exact T|].
    split; [cbn; auto|].
    destruct Hinv as (Hb & Hf). split.
    + intros i c1 c2 a' Hin. apply in_app_or in Hin as [Hin|Hin].
      * specialize (Hb _ _ _ _ Hin).
        destruct Hl as [[Hlt ->]|[Hle ->]]; cbn; lra.
      * cbn in Hin. destruct Hin as [Hin|[Hin|[]]]; [|discriminate].
        injection Hin as _ _ _ <-.
        destruct Hl as [[Hlt ->]|[Hle ->]]; cbn; lra.
    + rewrite Ef. destruct Hl as [[Hlt ->]|[Hle ->]].
      * cbn in Ef. injection Ef as <-. exists (a + 1)%nat. cbn.
        apply in_or_app. right. left. reflexivity.
      * rewrite Ef in Hf. destruct Hf as (i & Hin). exists i.
        apply in_or_app. left. exact Hin.
  - change (seq a (S (S k))) with (a :: seq (S a) (S k)) in H.
    cbn [nas_loop] in H.
    destruct (nas_body h val_loader test_loader a l w) as [e w1|l1 w1] eqn:E;
      [discriminate|].
    destruct (nas_body_done _ _ _ _ _ _ _ _ E) as (arch & acc & Hl & Ht).
    cbv zeta in Ht. destruct Ht as [[_ T]|[He _]]; [|lia].
    assert (Hinv1 : best_so_far l1
                      (evs ++ [PrintArchitecture (a + 1) (fst arch) (snd arch) acc])).
    { destruct Hinv as (Hb & Hf). split.
      - intros i c1 c2 a' Hin. apply in_app_or in Hin as [Hin|Hin].
        + specialize (Hb _ _ _ _ Hin).
          destruct Hl as [[Hlt ->]|[Hle ->]]; cbn; lra.
        + cbn in Hin. destruct Hin as [Hin|[]]. injection Hin as _ _ _ <-.
          destruct Hl as [[Hlt ->]|[Hle ->]]; cbn; lra.
      - destruct Hl as [[Hlt ->]|[Hle ->]].
        + cbn. exists (a + 1)%nat. apply in_or_app. right. left. reflexivity.
        + destruct (filter_counts l) as [fc|]; [|exact I].
          destruct Hf as (i & Hin). exists i. apply in_or_app. now left. }
    destruct (IH (S a) l1 l' w1 w' _ ltac:(lia) Hinv1 H)
      as (fc & ta & evs' & Ef & T' & Hp & Hinv').
    exists fc, ta. eexists. split; [exact Ef|]. split.
    { rewrite T', T, <- app_assoc. reflexivity. }
    split.
    { apply in_or_app. right. exact Hp. }
    rewrite <- app_assoc in Hinv'. exact Hinv'.
Qed.

(** When the search ends, the pair it prints as best was recorded with an
    accuracy that no recorded accuracy exceeds. *)
Lemma nas_reports_best (h : Hyper) (val_loader test_loader : list RealBatch)
    (w w' : World) (l : NasLocals) :
  (1 <= num_architectures h)%nat ->
  nas h val_loader test_loader w = Done l w' ->
  exists fc test_accuracy evs,
    trace w' = trace w ++ evs /\
    In (PrintBestArchitecture (fst fc) (snd fc) test_accuracy) evs /\
    (exists i, In (PrintArchitecture i (fst fc) (snd fc) (best_accuracy l)) evs) /\
    forall i c1 c2 a, In (PrintArchitecture i c1 c2 a) evs -> (a <= best_accuracy l)%R.
Proof.
  intros HN H. unfold nas in H.
  destruct (num_architectures h) as [|k] eqn:EN; [lia|].
  assert (H0 : best_so_far {| best_accuracy := 0%R; filter_counts := None |} []).
  { split; [intros ? ? ? ? []|exact I]. }
  destruct (nas_loop_done h val_loader test_loader k 0 _ l w w' [] ltac:(lia) H0 H)
    as (fc & ta & evs & Ef & T & Hp & Hb & Hf).
  exists fc, ta, evs. split; [exact T|]. split; [exact Hp|].
  rewrite Ef in Hf. cbn [app] in Hb, Hf. split; [exact Hf | exact Hb].
Qed.

End BestProperties.

(** *** No trial beats the initial best accuracy *)

Lemma total_correct_quadratic (arch : Z * Z) (s : Student) (loader : list unit) :
  total_correct (C := quadratic) arch s loader = 0.
Proof.
  unfold total_correct.
  assert (H : forall c, fold_left
                (fun correct d =>
                   correct + count_correct (Collaborators := quadratic) arch
                               (fast_weights s) d) loader c = c).
  { induction loader as [|d loader IH]; intros c; cbn [fold_left]; [reflexivity|].
    cbn [count_correct quadratic]. rewrite Z.add_0_r. apply IH. }
  apply H.
Qed.

Lemma py_div_zero (b : Z) : b <> 0 -> py_div 0 b = Some 0%R.
Proof.
  intros Hb. unfold py_div. apply Z.eqb_neq in Hb. rewrite Hb.
  f_equal. unfold Rdiv. apply Rmult_0_l.
Qed.

(** When every prediction is wrong, [filter_counts] stays unbound and the
    last trial raises [NameError]. *)
Lemma nas_loop_unbound (h : Hyper) (val_loader test_loader : list unit) :
  val_loader <> [] -> test_loader <> [] ->
  forall (k a : nat) (l : NasLocals) (w : @World quadratic),
    (a + S k = num_architectures h)%nat ->
    teacher w = zero_teacher ->
    filter_counts l = None -> best_accuracy l = 0%R ->
    exists w', nas_loop (C := quadratic) h val_loader test_loader (seq a (S k)) l w
               = Raised NameError w'.
Proof.
  intros Hv Ht.
  assert (Hnz : forall loader : list unit, loader <> [] ->
                outer_loop_batch_size * Z.of_nat (length loader) <> 0).
  { intros [|d loader] H; [contradiction|]. unfold outer_loop_batch_size.
    cbn [length]. lia. }
  assert (Hbody : forall a l w, teacher w = zero_teacher ->
            filter_counts l = None -> best_accuracy l = 0%R ->
            exists w1,
              teacher w1 = zero_teacher /\
              nas_body (C := quadratic) h val_loader test_loader a l w
              = if Z.of_nat a =? Z.of_nat (num_architectures h) - 1
                then Raised NameError w1 else Done l w1).
  { intros a l w Hw Hf Hb.
    destruct (nas_body_unfold (C := quadratic) h val_loader test_loader a l w)
      as (s & w1 & F1 & _ & _ & _ & _ & E).
    rewrite E. cbv zeta. rewrite Hw.
    rewrite (SGD_accepts_nonneg (fst (t_learner_optim_params zero_teacher))
               (snd (t_learner_optim_params zero_teacher)))
      by (cbn; lra).
    cbn [negb]. rewrite !total_correct_quadratic.
    rewrite !py_div_zero by (apply Hnz; assumption).
    destruct (Rlt_dec (best_accuracy l) 0) as [H|H]; [rewrite Hb in H; lra|].
    rewrite Hf.
    destruct (Z.of_nat a =? Z.of_nat (num_architectures h) - 1);
      eexists; (split; [|reflexivity]); cbn; congruence. }
  induction k as [|k IH]; intros a l w Ha Hw Hf Hb.
  - cbn [seq nas_loop]. destruct (Hbody a l w Hw Hf Hb) as (w1 & _ & E). rewrite E.
    replace (Z.of_nat a =? Z.of_nat (num_architectures h) - 1) with true
      by (symmetry; apply Z.eqb_eq; lia).
    exists w1. reflexivity.
  - change (seq a (S (S k))) with (a :: seq (S a) (S k)). cbn [nas_loop].
    destruct (Hbody a l w Hw Hf Hb) as (w1 & Hw1 & E). rewrite E.
    replace (Z.of_nat a =? Z.of_nat (num_architectures h) - 1) with false
      by (symmetry; apply Z.eqb_neq; lia).
    apply IH; [lia | assumption | assumption | assumption].
Qed.

(** C6. A search whose ten students get no validation image right never
    binds [filter_counts], and the final report raises [NameError] instead
    of naming a best pair. *)
Theorem nas_unbound_filter_counts :
  exists w',
    nas (C := quadratic) notebook [tt] [tt] (start 5) = Raised NameError w'.
Proof.
  unfold nas.
  apply (nas_loop_unbound notebook [tt] [tt] ltac:(discriminate) ltac:(discriminate)
           9 0); reflexivity.
Qed.

(** * Further properties *)

(** ** Sums *)

Lemma sum_upto_ext (n : nat) (f g : Z -> R) :
  (forall i, 0 <= i < Z.of_nat n -> f i = g i) -> sum_upto n f = sum_upto n g.
Proof.
  induction n as [|n IH]; intros H; cbn [sum_upto]; [reflexivity|].
  rewrite IH, (H (Z.of_nat n)) by (intros; try apply H; lia). reflexivity.
Qed.

Lemma Rsum_ext (n : Z) (f g : Z -> R) :
  (forall i, 0 <= i < n -> f i = g i) -> Rsum n f = Rsum n g.
Proof. intros H. apply sum_upto_ext. intros i Hi. apply H. lia. Qed.

Lemma sum_over_ext (sh : list Z) :
  forall f g : list Z -> R,
    (forall r, in_range sh r -> f r = g r) -> sum_over sh f = sum_over sh g.
Proof.
  induction sh as [|d sh IH]; intros f g H; cbn [sum_over].
  - apply H. exact I.
  - apply Rsum_ext. intros i Hi. apply IH. intros r Hr. apply H. split; assumption.
Qed.

Lemma sum_upto_scal (n : nat) (c : R) (f : Z -> R) :
  sum_upto n (fun i => c * f i)%R = (c * sum_upto n f)%R.
Proof. induction n as [|n IH]; cbn [sum_upto]; [lra | rewrite IH; lra]. Qed.




(** ** Positions *)

Lemma in_range_length (sh : list Z) :
  forall idx, in_range sh idx -> length idx = length sh.
Proof.
  induction sh as [|d sh IH]; intros [|i idx] H; try contradiction; [reflexivity|].
  cbn. f_equal. apply IH. apply H.
Qed.


Lemma numel_pos (sh : list Z) : Forall (fun d => 0 < d) sh -> 0 < numel sh.
Proof.
  induction 1 as [|d sh Hd _ IH]; cbn; [lia|]. fold (numel sh). nia.
Qed.

Lemma in_range_pos (sh : list Z) :
  forall idx, in_range sh idx -> Forall (fun d => 0 < d) sh.
Proof.
  induction sh as [|d sh IH]; intros [|i idx] H; try contradiction; [constructor|].
  destruct H as (Hi & H). constructor; [lia | eauto].
Qed.

Lemma ravel_bound (sh : list Z) :
  forall idx, in_range sh idx -> 0 <= ravel sh idx < numel sh.
Proof.
  induction sh as [|d sh IH]; intros [|i idx] H; try contradiction; [cbn; lia|].
  destruct H as (Hi & H). specialize (IH idx H).
  cbn [ravel numel fold_right]. fold (numel sh). nia.
Qed.

(** Reading a position back gives the index it came from. *)
Lemma unravel_ravel (sh : list Z) :
  forall idx, in_range sh idx -> unravel sh (ravel sh idx) = idx.
Proof.
  induction sh as [|d sh IH]; intros [|i idx] H; try contradiction; [reflexivity|].
  destruct H as (Hi & H). pose proof (ravel_bound sh idx H) as Hb.
  cbn [ravel unravel].
  rewrite Z.add_comm, Z.div_add, Z.mod_add by lia.
  rewrite Z.div_small, Z.mod_small by lia. cbn. now rewrite IH.
Qed.

(** [view] with explicit sizes. *)
Lemma view_explicit (t : tensor) (req : list Z) :
  Forall (fun d => 0 <= d) req -> numel req = numel (shape t) ->
  view t req
  = Some (mkTensor req (fun idx => elem t (unravel (shape t) (ravel req idx)))).
Proof.
  intros Hpos Hn. unfold view, infer_size.
  assert (Hf : filter (fun d => negb (d =? -1)) req = req).
  { clear Hn. induction Hpos as [|d req Hd _ IH]; [reflexivity|]. cbn [filter].
    replace (d =? -1) with false by (symmetry; apply Z.eqb_neq; lia).
    cbn. now rewrite IH. }
  assert (Hc : count_occ Z.eq_dec req (-1) = O).
  { clear Hn Hf. induction Hpos as [|d req Hd _ IH]; [reflexivity|]. cbn [count_occ].
    destruct (Z.eq_dec d (-1)); [lia | exact IH]. }
  assert (Hb : forallb (fun d => 0 <=? d) req = true).
  { apply forallb_forall. intros d Hd. rewrite Forall_forall in Hpos.
    apply Z.leb_le. now apply Hpos. }
  rewrite Hf, Hb, Hc. cbn [negb]. rewrite Hn, Z.eqb_refl. reflexivity.
Qed.

Lemma view_mismatch (t : tensor) (req : list Z) :
  Forall (fun d => 0 <= d) req -> numel req <> numel (shape t) ->
  view t req = None.
Proof.
  intros Hpos Hn. unfold view, infer_size.
  assert (Hf : filter (fun d => negb (d =? -1)) req = req).
  { clear Hn. induction Hpos as [|d req Hd _ IH]; [reflexivity|]. cbn [filter].
    replace (d =? -1) with false by (symmetry; apply Z.eqb_neq; lia).
    cbn. now rewrite IH. }
  assert (Hc : count_occ Z.eq_dec req (-1) = O).
  { clear Hn Hf. induction Hpos as [|d req Hd _ IH]; [reflexivity|]. cbn [count_occ].
    destruct (Z.eq_dec d (-1)); [lia | exact IH]. }
  assert (Hb : forallb (fun d => 0 <=? d) req = true).
  { apply forallb_forall. intros d Hd. rewrite Forall_forall in Hpos.
    apply Z.leb_le. now apply Hpos. }
  rewrite Hf, Hb, Hc. cbn [negb].
  replace (numel (shape t) =? numel req) with false
    by (symmetry; apply Z.eqb_neq; congruence).
  reflexivity.
Qed.

Lemma list_eqb_refl (l : list Z) : list_eqb l l = true.
Proof. induction l as [|x l IH]; cbn; [reflexivity|]. now rewrite Z.eqb_refl. Qed.

(** [torch.cat] of single-sample batches along dimension 0. *)
Lemma cat_elem_singletons (rest : list Z) (d : tensor) :
  forall (ts : list tensor) (n : nat) (idx : list Z),
    (forall j, (j < length ts)%nat -> shape (nth j ts d) = 1 :: rest) ->
    (n < length ts)%nat ->
    cat_elem 0 ts (Z.of_nat n :: idx) = elem (nth n ts d) (0 :: idx).
Proof.
  induction ts as [|t ts IH]; intros n idx Hs Hn; cbn in Hn; [lia|].
  cbn [cat_elem]. pose proof (Hs O ltac:(cbn; lia)) as H0. cbn [nth] in H0.
  rewrite H0. cbn [nth replace_nth].
  destruct n as [|n].
  - reflexivity.
  - replace (Z.of_nat (S n) <? 1) with false by (symmetry; apply Z.ltb_ge; lia).
    replace (Z.of_nat (S n) - 1) with (Z.of_nat n) by lia.
    apply IH; [|lia]. intros j Hj. apply (Hs (S j)). cbn. lia.
Qed.

Lemma cat_singletons (rest : list Z) (d : tensor) (ts : list tensor) :
  ts <> [] ->
  (forall j, (j < length ts)%nat -> shape (nth j ts d) = 1 :: rest) ->
  exists t,
    cat ts 0 = Some t /\
    shape t = Z.of_nat (length ts) :: rest /\
    forall (n : nat) (idx : list Z), (n < length ts)%nat ->
      elem t (Z.of_nat n :: idx) = elem (nth n ts d) (0 :: idx).
Proof.
  intros Hne Hs. destruct ts as [|t ts]; [contradiction|].
  unfold cat.
  assert (H0 : shape t = 1 :: rest) by (apply (Hs O); cbn; lia).
  assert (Hall : forall u, In u (t :: ts) -> shape u = 1 :: rest).
  { intros u Hu. apply (In_nth _ _ d) in Hu as (j & Hj & <-). now apply Hs. }
  assert (Hc : forallb (fun u => (rank u =? rank t)%nat
                           && list_eqb (remove_nth 0 (shape u)) (remove_nth 0 (shape t)))
                 ts = true).
  { apply forallb_forall. intros u Hu. unfold rank.
    rewrite (Hall u) by (now right). rewrite H0.
    cbn [remove_nth length]. now rewrite Nat.eqb_refl, list_eqb_refl. }
  rewrite Hc. unfold rank. rewrite H0. cbn [length Nat.ltb Nat.leb andb].
  eexists. split; [reflexivity|]. split.
  - cbn [shape replace_nth]. f_equal.
    assert (Hsum : forall l : list tensor, (forall u, In u l -> shape u = 1 :: rest) ->
              fold_right (fun u acc => nth 0 (shape u) 0 + acc) 0 l
              = Z.of_nat (length l)).
    { induction l as [|u l IH]; intros Hl; [reflexivity|].
      cbn [fold_right length]. rewrite (Hl u) by (now left). cbn [nth].
      rewrite IH by (intros; apply Hl; now right). lia. }
    apply Hsum. exact Hall.
  - intros n idx Hn. cbn [elem]. now apply (cat_elem_singletons rest).
Qed.

(** ** ModulatedConv2d: both strategies *)

Lemma getitem_ok (t : tensor) (d i : Z) (rest : list Z) :
  shape t = d :: rest -> 0 <= i < d ->
  getitem t i = Some (mkTensor rest (fun idx => elem t (i :: idx))).
Proof.
  intros Hs Hi. unfold getitem. rewrite Hs.
  replace (0 <=? i) with true by (symmetry; apply Z.leb_le; lia).
  replace (i <? d) with true by (symmetry; apply Z.ltb_lt; lia).
  reflexivity.
Qed.

Lemma bdim_index (d i : Z) : 0 <= i < d -> (if d =? 1 then 0 else i) = i.
Proof. intros Hi. destruct (d =? 1) eqn:E; [apply Z.eqb_eq in E; lia | reflexivity]. Qed.

Ltac split_index r :=
  let a := fresh "ci" in let b := fresh "ky" in let c := fresh "kx" in
  destruct r as [|a [|b [|c [|? ?]]]]; cbn [in_range] in *; try tauto.

Section ModulatedConvForward.
Variables (w_dim ic oc k p : Z) (cw lw lb : list Z -> R).
Variables (image w : tensor) (b nb H W : Z).
Hypothesis Himage : shape image = [nb; ic; H; W].
Hypothesis Hw : shape w = [b; w_dim].
Hypothesis Hoc : 0 < oc.
Hypothesis Hk : 0 < k.
Hypothesis Hp : 0 <= p.
Hypothesis HkH : k <= H + 2 * p.
Hypothesis HkW : k <= W + 2 * p.

Let m := ModulatedConv2d_init w_dim ic oc k p cw lw lb.
Let Ho := H + 2 * p - k + 1.
Let Wo := W + 2 * p - k + 1.

Lemma forward_sample_value (i : Z) :
  0 <= i < b -> i < nb ->
  exists t,
    forward_sample m image w i = Some t /\
    shape t = [1; oc; Ho; Wo] /\
    forall o y x, 0 <= o < oc ->
      elem t [0; o; y; x] = modulated_conv m image w i o y x.
Proof.
  intros Hi Hn. unfold forward_sample.
  rewrite (getitem_ok w b i [w_dim] Hw Hi). cbn [obind].
  unfold Linear_forward, F_linear.
  cbn [m ModulatedConv2d_init style_scale_transform Linear_init lin_weight lin_bias
       shape last removelast app list_eqb conv_weight padding].
  rewrite !Z.eqb_refl. cbn [andb obind].
  unfold getitem_none at 1. cbn [count_colon rank shape length Nat.leb obind
    subscript_shape].
  unfold broadcast2 at 1. cbn [shape].
  assert (Hb : broadcast_shapes [oc; ic; k; k] [1; ic; 1; 1] = Some [oc; ic; k; k]).
  { unfold broadcast_shapes. cbn.
    rewrite !bdim_one_r, bdim_refl. reflexivity. }
  rewrite Hb. cbn [obind length].
  unfold demodulate, demod_denominator, tsum_dims.
  cbn [rank shape tpow2 tmap length Nat.leb obind firstn skipn app Nat.sub].
  unfold getitem_none at 1.
  cbn [count_colon rank shape length Nat.leb obind subscript_shape tadd_scalar tmap tsqrt].
  unfold broadcast2 at 1. cbn [shape tsqrt tadd_scalar tmap].
  assert (Hb' : broadcast_shapes [oc; ic; k; k] [oc; 1; 1; 1] = Some [oc; ic; k; k]).
  { unfold broadcast_shapes. cbn.
    rewrite !bdim_one_r, bdim_refl. reflexivity. }
  rewrite Hb'. cbn [obind length].
  rewrite (getitem_ok image nb i [ic; H; W] Himage) by lia. cbn [obind].
  unfold getitem_none at 1.
  cbn [count_colon rank shape length Nat.leb obind subscript_shape].
  unfold F_conv2d. cbn [shape].
  replace (0 <? 1) with true by reflexivity.
  replace (ic =? ic * 1) with true by (symmetry; apply Z.eqb_eq; lia).
  rewrite Z.mod_1_r.
  replace (0 <=? p) with true by (symmetry; apply Z.leb_le; lia).
  replace (0 <? k) with true by (symmetry; apply Z.ltb_lt; lia).
  replace (k <=? H + 2 * p) with true by (symmetry; apply Z.leb_le; lia).
  replace (k <=? W + 2 * p) with true by (symmetry; apply Z.leb_le; lia).
  cbn [andb Z.eqb].
  eexists. split; [reflexivity|]. split; [reflexivity|].
  intros o y x Ho'. cbn [elem].
  unfold modulated_conv.
  cbn [m ModulatedConv2d_init conv_weight shape tl padding].
  rewrite Himage. cbn [nth].
  rewrite Rplus_0_r.
  apply sum_over_ext. intros r Hr. split_index r.
  destruct Hr as (Hci & Hky & Hkx & _).
  rewrite Z.div_1_r, Z.div_small by lia. cbn [Z.mul Z.add].
  apply f_equal2; [reflexivity|].
  unfold demodulated, demod_sum, modulated, style_of.
  cbn [m ModulatedConv2d_init conv_weight style_scale_transform Linear_init
       lin_weight lin_bias shape tl nth elem eps].
  unfold bread.
  cbn [rank shape length Nat.sub skipn bindex elem subscript_index removelast last
       app tsqrt tadd_scalar tmap Z.eqb Pos.eqb].
  rewrite !(bdim_index oc o), !(bdim_index ic ci), !(bdim_index k ky),
    !(bdim_index k kx) by lia.
  f_equal. f_equal. f_equal.
  apply sum_over_ext. intros r Hr. split_index r.
  destruct Hr as (Hci' & Hky' & Hkx' & _).
  cbn [app tpow2 tmap elem nth].
  unfold bread.
  cbn [rank shape length Nat.sub skipn bindex elem subscript_index removelast last
       app tsqrt tadd_scalar tmap Z.eqb Pos.eqb].
  rewrite !(bdim_index oc o), !(bdim_index ic ci0), !(bdim_index k ky0),
    !(bdim_index k kx0) by lia.
  reflexivity.
Qed.

Lemma forward_loop_value (d : tensor) :
  forall (n a : nat) (acc : list tensor),
    Z.of_nat (a + n) <= b -> Z.of_nat (a + n) <= nb ->
    exists ts,
      forward_loop m image w (seq a n) acc = Some (acc ++ ts) /\
      length ts = n /\
      forall j, (j < n)%nat ->
        shape (nth j ts d) = [1; oc; Ho; Wo] /\
        forall o y x, 0 <= o < oc ->
          elem (nth j ts d) [0; o; y; x]
          = modulated_conv m image w (Z.of_nat (a + j)) o y x.
Proof.
  induction n as [|n IH]; intros a acc Hb Hn.
  - exists []. cbn. rewrite app_nil_r. repeat split; lia.
  - cbn [seq forward_loop].
    destruct (forward_sample_value (Z.of_nat a)) as (t & E & St & V); [lia | lia |].
    rewrite E. cbn [obind].
    destruct (IH (S a) (acc ++ [t])) as (ts & E' & L & P); [lia | lia |].
    exists (t :: ts). split; [rewrite E', <- app_assoc; reflexivity|].
    split; [cbn; lia|].
    intros [|j] Hj.
    + cbn [nth]. rewrite Nat.add_0_r. split; [exact St | exact V].
    + cbn [nth]. replace (a + S j)%nat with (S a + j)%nat by lia.
      apply P. lia.
Qed.

(** [forward] returns one image per row of [w]: the convolution of the
    image of the same position with the demodulated weights. *)
Lemma forward_value :
  1 <= b <= nb ->
  exists t,
    forward m image w = Some t /\
    shape t = [b; oc; Ho; Wo] /\
    forall n o y x, 0 <= n < b -> 0 <= o < oc ->
      elem t [n; o; y; x] = modulated_conv m image w n o y x.
Proof.
  intros Hb. unfold forward. rewrite Hw.
  set (d := mkTensor [] (fun _ => 0%R)).
  destruct (forward_loop_value d (Z.to_nat b) 0 []) as (ts & E & L & P);
    [lia | lia |].
  rewrite E. cbn [app obind].
  destruct (cat_singletons [oc; Ho; Wo] d ts) as (t & Ec & Sc & Vc).
  { intros ->. cbn in L. lia. }
  { intros j Hj. apply P. lia. }
  exists t. split; [exact Ec|]. split.
  { rewrite Sc, L. f_equal. lia. }
  intros n o y x Hn Ho'.
  replace n with (Z.of_nat (Z.to_nat n)) at 1 by lia.
  rewrite Vc by lia.
  destruct (P (Z.to_nat n)) as (_ & V); [lia|].
  rewrite V by exact Ho'. cbn [Nat.add]. f_equal. lia.
Qed.

Lemma bdim_one_l (a : Z) : bdim 1 a = Some a.
Proof.
  unfold bdim. destruct (1 =? a) eqn:E; [apply Z.eqb_eq in E; now subst|].
  reflexivity.
Qed.

Hypothesis Hic : 0 < ic.
Hypothesis HH : 0 < H.
Hypothesis HW : 0 < W.
Hypothesis Hbn : b = nb.
Hypothesis Hb1 : 1 <= b.

(** The weights [forward_efficient] demodulates, for all samples at once. *)
Lemma forward_efficient_unfold :
  exists w'',
    shape w'' = [b; oc; ic; k; k] /\
    (forall n o ci ky kx,
       0 <= n < b -> 0 <= o < oc -> 0 <= ci < ic -> 0 <= ky < k -> 0 <= kx < k ->
       elem w'' [n; o; ci; ky; kx] = demodulated m w n [o; ci; ky; kx]) /\
    forward_efficient m image w =
      (efficient_image <- view image [1; nb * ic; H; W] ;;
       efficient_filter <- view w'' [nb * ic; ic; k; k] ;;
       efficient_out <- F_conv2d efficient_image efficient_filter None p nb ;;
       view efficient_out [nb; ic; H; W]).
Proof.
  unfold forward_efficient.
  unfold Linear_forward, F_linear.
  cbn [m ModulatedConv2d_init style_scale_transform Linear_init lin_weight lin_bias
       shape last removelast app list_eqb conv_weight padding].
  rewrite Hw. cbn [last removelast app].
  rewrite !Z.eqb_refl. cbn [andb obind].
  unfold getitem_none at 1 2. cbn [count_colon rank shape length Nat.leb obind
    subscript_shape].
  unfold broadcast2 at 1. cbn [shape].
  assert (Hbs : broadcast_shapes [1; oc; ic; k; k] [b; 1; ic; 1; 1]
                = Some [b; oc; ic; k; k]).
  { unfold broadcast_shapes. cbn.
    rewrite !bdim_one_r, bdim_refl, bdim_one_l. reflexivity. }
  rewrite Hbs. cbn [obind length].
  unfold demodulate, demod_denominator, tsum_dims.
  cbn [rank shape tpow2 tmap length Nat.leb obind firstn skipn app Nat.sub].
  unfold getitem_none at 1.
  cbn [count_colon rank shape length Nat.leb obind subscript_shape tadd_scalar tmap tsqrt].
  unfold broadcast2 at 1. cbn [shape tsqrt tadd_scalar tmap].
  assert (Hbs' : broadcast_shapes [b; oc; ic; k; k] [b; oc; 1; 1; 1]
                 = Some [b; oc; ic; k; k]).
  { unfold broadcast_shapes. cbn.
    rewrite !bdim_one_r, !bdim_refl. reflexivity. }
  rewrite Hbs'. cbn [obind length].
  rewrite Himage. cbn [nth_error shape skipn app].
  eexists. split; [|split; [|reflexivity]]; [reflexivity|].
  intros n o ci ky kx Hn Ho' Hci Hky Hkx. cbn [elem].
  unfold demodulated, demod_sum, modulated, style_of.
  cbn [m ModulatedConv2d_init conv_weight style_scale_transform Linear_init
       lin_weight lin_bias shape tl nth elem eps].
  unfold bread.
  cbn [rank shape length Nat.sub skipn bindex elem subscript_index removelast last
       app tsqrt tadd_scalar tmap Z.eqb Pos.eqb].
  rewrite !(bdim_index oc o), !(bdim_index ic ci), !(bdim_index k ky),
    !(bdim_index k kx), !(bdim_index b n) by lia.
  f_equal. f_equal. f_equal.
  apply sum_over_ext. intros r Hr. split_index r.
  destruct Hr as (Hci' & Hky' & Hkx' & _).
  cbn [app tpow2 tmap elem nth].
  unfold bread.
  cbn [rank shape length Nat.sub skipn bindex elem subscript_index removelast last
       app tsqrt tadd_scalar tmap Z.eqb Pos.eqb].
  rewrite !(bdim_index oc o), !(bdim_index ic ci0), !(bdim_index k ky0),
    !(bdim_index k kx0), !(bdim_index b n) by lia.
  reflexivity.
Qed.

Lemma efficient_image_view :
  view image [1; nb * ic; H; W]
  = Some (mkTensor [1; nb * ic; H; W]
            (fun idx => elem image (unravel (shape image)
                                      (ravel [1; nb * ic; H; W] idx)))).
Proof.
  apply view_explicit.
  - repeat constructor; nia.
  - rewrite Himage. cbn [numel fold_right]. ring.
Qed.

(** [forward_efficient] takes the number of output channels from the
    dimension of the input channels: with different numbers its filter
    cannot be viewed as asked. *)
Lemma forward_efficient_channels : oc <> ic -> forward_efficient m image w = None.
Proof.
  intros Hne. destruct forward_efficient_unfold as (w'' & S'' & _ & E).
  rewrite E, efficient_image_view. cbn [obind].
  rewrite view_mismatch; [reflexivity| |].
  - repeat constructor; nia.
  - rewrite S''. cbn [numel fold_right]. rewrite Hbn.
    intros Heq.
    assert (Hz : nb * ic * k * k * (ic - oc) = 0) by nia.
    assert (0 < nb * ic * k * k) by nia. nia.
Qed.

Lemma efficient_conv (efficient_filter : list Z -> R) :
  F_conv2d
    (mkTensor [1; nb * ic; H; W]
       (fun idx => elem image (unravel (shape image) (ravel [1; nb * ic; H; W] idx))))
    (mkTensor [nb * ic; ic; k; k] efficient_filter) None p nb
  = Some (mkTensor [1; nb * ic; Ho; Wo]
      (fun idx =>
         match idx with
         | [bn; bo; y; x] =>
             (sum_over [ic; k; k]
                (fun r =>
                   match r with
                   | [ci; ky; kx] =>
                       padded
                         (mkTensor [1; nb * ic; H; W]%Z
                            (fun idx => elem image (unravel (shape image)
                                                      (ravel [1; nb * ic; H; W]%Z idx))))
                         H W bn (bo / (nb * ic / nb) * ic + ci)%Z
                         (y + ky - p)%Z (x + kx - p)%Z
                       * efficient_filter [bo; ci; ky; kx]
                   | _ => 0
                   end) + 0)%R
         | _ => 0%R
         end)).
Proof.
  unfold F_conv2d. cbn [shape elem].
  replace (0 <? nb) with true by (symmetry; apply Z.ltb_lt; lia).
  replace (nb * ic =? ic * nb) with true by (symmetry; apply Z.eqb_eq; lia).
  rewrite Z.mul_comm, Z.mod_mul by lia.
  replace (0 <=? p) with true by (symmetry; apply Z.leb_le; lia).
  replace (0 <? k) with true by (symmetry; apply Z.ltb_lt; lia).
  replace (k <=? H + 2 * p) with true by (symmetry; apply Z.leb_le; lia).
  replace (k <=? W + 2 * p) with true by (symmetry; apply Z.leb_le; lia).
  cbn [andb Z.eqb]. rewrite (Z.mul_comm ic nb). reflexivity.
Qed.

(** The last [view] asks for the size of the input image: the convolution
    must keep it. *)
Lemma forward_efficient_kernel :
  oc = ic -> k <> 2 * p + 1 -> forward_efficient m image w = None.
Proof.
  intros Hoi Hkp. destruct forward_efficient_unfold as (w'' & S'' & _ & E).
  rewrite E, efficient_image_view. cbn [obind].
  rewrite view_explicit.
  2:{ repeat constructor; nia. }
  2:{ rewrite S'', Hoi, Hbn. cbn [numel fold_right]. ring. }
  cbn [obind]. rewrite efficient_conv. cbn [obind].
  rewrite view_mismatch; [reflexivity| |].
  - repeat constructor; nia.
  - cbn [shape numel fold_right]. subst Ho Wo.
    intros Heq.
    assert (Hz : nb * ic * ((H + 2 * p - k + 1) * (W + 2 * p - k + 1) - H * W) = 0)
      by nia.
    assert (0 < nb * ic) by nia.
    assert ((H + 2 * p - k + 1) * (W + 2 * p - k + 1) = H * W) by nia.
    assert (0 < H + 2 * p - k + 1) by lia.
    assert (0 < W + 2 * p - k + 1) by lia.
    nia.
Qed.

(** With as many output as input channels and a kernel of size
    [2 * padding + 1], [forward_efficient] returns the same convolutions
    with the demodulated weights. *)
Lemma forward_efficient_value :
  oc = ic -> k = 2 * p + 1 ->
  exists t,
    forward_efficient m image w = Some t /\
    shape t = [b; oc; Ho; Wo] /\
    forall n o y x, 0 <= n < b -> 0 <= o < oc -> 0 <= y < Ho -> 0 <= x < Wo ->
      elem t [n; o; y; x] = modulated_conv m image w n o y x.
Proof.
  intros Hoi Hkp. destruct forward_efficient_unfold as (w'' & S'' & V'' & E).
  assert (EH : Ho = H) by (subst Ho; lia).
  assert (EW : Wo = W) by (subst Wo; lia).
  rewrite E, efficient_image_view. cbn [obind].
  rewrite view_explicit.
  2:{ repeat constructor; nia. }
  2:{ rewrite S'', Hoi, Hbn. cbn [numel fold_right]. ring. }
  cbn [obind]. rewrite efficient_conv. cbn [obind].
  rewrite view_explicit.
  2:{ repeat constructor; nia. }
  2:{ cbn [shape numel fold_right]. rewrite EH, EW. ring. }
  eexists. split; [reflexivity|]. split.
  { cbn [shape]. now rewrite EH, EW, Hbn, Hoi. }
  intros n o y x Hn Ho' Hy Hx. cbn [elem shape].
  rewrite EH, EW in *.
  replace (ravel [nb; ic; H; W] [n; o; y; x])
    with (ravel [1; nb * ic; H; W] [0; n * ic + o; y; x])
    by (cbn [ravel numel fold_right]; ring).
  rewrite unravel_ravel by (cbn [in_range]; repeat split; try lia; nia).
  rewrite Rplus_0_r.
  unfold modulated_conv.
  cbn [m ModulatedConv2d_init conv_weight shape tl padding].
  rewrite Himage. cbn [nth].
  apply sum_over_ext. intros r Hr. split_index r.
  destruct Hr as (Hci & Hky & Hkx & _).
  replace (nb * ic / nb) with ic by (rewrite Z.mul_comm, Z.div_mul; lia).
  replace ((n * ic + o) / ic) with n
    by (rewrite Z.add_comm, Z.div_add, Z.div_small; lia).
  apply f_equal2.
  - unfold padded. cbn [elem].
    destruct ((0 <=? y + ky - p) && (y + ky - p <? H) && (0 <=? x + kx - p)
              && (x + kx - p <? W)) eqn:Ein; [|reflexivity].
    apply andb_prop in Ein as (Ein & E4). apply andb_prop in Ein as (Ein & E3).
    apply andb_prop in Ein as (E1 & E2).
    apply Z.leb_le in E1, E3. apply Z.ltb_lt in E2, E4.
    replace (ravel [1; nb * ic; H; W] [0; n * ic + ci; y + ky - p; x + kx - p])
      with (ravel [nb; ic; H; W] [n; ci; y + ky - p; x + kx - p])
      by (cbn [ravel numel fold_right]; ring).
    rewrite unravel_ravel by (cbn [in_range]; repeat split; lia).
    reflexivity.
  - rewrite S''.
    replace (ravel [nb * ic; ic; k; k] [n * ic + o; ci; ky; kx])
      with (ravel [b; oc; ic; k; k] [n; o; ci; ky; kx])
      by (rewrite Hoi, Hbn; cbn [ravel numel fold_right]; ring).
    rewrite unravel_ravel by (cbn [in_range]; repeat split; lia).
    apply V''; lia.
Qed.

(** The two strategies return the same tensor: the same shape and the same
    element at every index. *)
Lemma forward_agree :
  oc = ic -> k = 2 * p + 1 ->
  exists t t',
    forward m image w = Some t /\ forward_efficient m image w = Some t' /\
    shape t = [b; oc; H; W] /\ shape t' = shape t /\
    forall idx, in_range (shape t) idx -> elem t idx = elem t' idx.
Proof.
  intros Hoi Hkp.
  destruct forward_value as (t & E & S & V); [lia|].
  destruct (forward_efficient_value Hoi Hkp) as (t' & E' & S' & V').
  assert (EH : Ho = H) by (subst Ho; lia).
  assert (EW : Wo = W) by (subst Wo; lia).
  exists t, t'. split; [exact E|]. split; [exact E'|].
  split; [now rewrite S, EH, EW|]. split; [congruence|].
  intros idx Hidx. rewrite S in Hidx.
  destruct idx as [|n [|o [|y [|x [|? ?]]]]]; cbn [in_range] in Hidx; try tauto.
  destruct Hidx as (Hn & Ho' & Hy & Hx & _).
  rewrite V, V' by lia. reflexivity.
Qed.

End ModulatedConvForward.

(** ** Demodulation normalises *)


(** ** [forward]: batches that do not fit *)

Lemma getitem_out (t : tensor) (d i : Z) (rest : list Z) :
  shape t = d :: rest -> d <= i -> getitem t i = None.
Proof.
  intros Hs Hi. unfold getitem. rewrite Hs.
  replace (i <? d) with false by (symmetry; apply Z.ltb_ge; lia).
  now rewrite andb_false_r.
Qed.

Lemma forward_sample_out (m : ModulatedConv2d) (image w : tensor) (nb i : Z)
    (rest : list Z) :
  shape image = nb :: rest -> nb <= i -> forward_sample m image w i = None.
Proof.
  intros Hs Hi. unfold forward_sample.
  rewrite (getitem_out image nb i rest Hs Hi).
  destruct (getitem w i); [|reflexivity]. cbn [obind].
  destruct (Linear_forward _ _); [|reflexivity]. cbn [obind].
  destruct (getitem_none _ _); [|reflexivity]. cbn [obind].
  destruct (broadcast2 _ _ _); [|reflexivity]. cbn [obind].
  destruct (demodulate _ _ _ _ _); reflexivity.
Qed.

Lemma forward_loop_out (m : ModulatedConv2d) (image w : tensor) (nb : Z)
    (rest : list Z) :
  shape image = nb :: rest ->
  forall (n a : nat) (acc : list tensor),
    Z.of_nat a <= nb < Z.of_nat (a + n) ->
    forward_loop m image w (seq a n) acc = None.
Proof.
  intros Hs. induction n as [|n IH]; intros a acc Ha; [lia|].
  cbn [seq forward_loop].
  destruct (Z.eq_dec (Z.of_nat a) nb) as [E|E].
  - rewrite (forward_sample_out m image w nb (Z.of_nat a) rest Hs) by lia.
    reflexivity.
  - destruct (forward_sample m image w (Z.of_nat a)); [|reflexivity].
    cbn [obind]. apply IH. lia.
Qed.

(** ** SimpleGenerator and the path length penalty *)






(** ** StyleGAN2 notebook: further properties *)



(** X2. [ModulatedConv2d.forward] raises when [w] has no row
    ([torch.cat] of an empty list) and when [w] has more rows than there
    are images ([image[i]] out of range). *)
Theorem ModulatedConv2d_forward_batch (m : ModulatedConv2d) (image w : tensor)
    (nb b : Z) (rest rest' : list Z) :
  shape image = nb :: rest -> shape w = b :: rest' ->
  b <= 0 \/ 0 <= nb < b ->
  forward m image w = None.
Proof.
  intros Hi Hw Hb. unfold forward. rewrite Hw. destruct Hb as [Hb|Hb].
  - replace (Z.to_nat b) with O by lia. reflexivity.
  - rewrite (forward_loop_out m image w nb rest Hi (Z.to_nat b) 0 []) by lia.
    reflexivity.
Qed.

Lemma ModulatedConv2d_forward_batch_witness :
  forward (ModulatedConv2d_init 1 1 1 3 1 (fun _ => 1%R) (fun _ => 1%R) (fun _ => 0%R))
    (mkTensor [1; 1; 2; 2] (fun _ => 1%R)) (mkTensor [2; 1] (fun _ => 1%R)) = None.
Proof.
  apply (ModulatedConv2d_forward_batch _ _ _ 1 2 [1; 2; 2] [1]);
    [reflexivity | reflexivity | right; lia].
Defined.

(** X3. [ModulatedConv2d.forward_efficient] returns nothing unless the
    numbers of input and output channels are equal and the kernel size is
    [2 * padding + 1]: otherwise one of its [view] calls raises, on inputs
    for which [forward] returns a batch. *)
Theorem forward_efficient_domain (w_dim ic oc k p : Z) (cw lw lb : list Z -> R)
    (image w : tensor) (b H W : Z) :
  shape image = [b; ic; H; W] -> shape w = [b; w_dim] ->
  1 <= b -> 0 < ic -> 0 < oc -> 0 < H -> 0 < W ->
  0 < k -> 0 <= p -> k <= H + 2 * p -> k <= W + 2 * p ->
  oc <> ic \/ k <> 2 * p + 1 ->
  let m := ModulatedConv2d_init w_dim ic oc k p cw lw lb in
  forward_efficient m image w = None /\
  exists t, forward m image w = Some t /\
            shape t = [b; oc; H + 2 * p - k + 1; W + 2 * p - k + 1].
Proof.
  intros Hi Hw Hb Hic Hoc HH HW Hk Hp HkH HkW Hd m. split.
  - destruct (Z.eq_dec oc ic) as [Hoi|Hoi].
    + destruct Hd as [Hd|Hd]; [contradiction|].
      now apply (forward_efficient_kernel w_dim ic oc k p cw lw lb image w b b H W).
    + now apply (forward_efficient_channels w_dim ic oc k p cw lw lb image w b b H W).
  - destruct (forward_value w_dim ic oc k p cw lw lb image w b b H W)
      as (t & E & S & _); try assumption; try lia.
    exists t. split; assumption.
Qed.

Lemma forward_efficient_domain_witness :
  forward_efficient
    (ModulatedConv2d_init 128 3 3 1 1 (fun _ => 1%R) (fun _ => 1%R) (fun _ => 0%R))
    (mkTensor [2; 3; 64; 64] (fun _ => 1%R)) (mkTensor [2; 128] (fun _ => 1%R))
  = None.
Proof.
  apply (forward_efficient_domain 128 3 3 1 1 (fun _ => 1%R) (fun _ => 1%R)
           (fun _ => 0%R) (mkTensor [2; 3; 64; 64] (fun _ => 1%R))
           (mkTensor [2; 128] (fun _ => 1%R)) 2 64 64);
    try reflexivity; try lia.
Defined.

(** X4. With as many output as input channels and a kernel of size
    [2 * padding + 1], as in the notebook's example, [forward] and
    [forward_efficient] return the same tensor: the same shape, the shape of
    the input, and the same element at every index. *)
Theorem forward_efficient_equivalent (w_dim ic k p : Z) (cw lw lb : list Z -> R)
    (image w : tensor) (b H W : Z) :
  shape image = [b; ic; H; W] -> shape w = [b; w_dim] ->
  1 <= b -> 0 < ic -> 0 < H -> 0 < W -> 0 <= p -> k = 2 * p + 1 ->
  let m := ModulatedConv2d_init w_dim ic ic k p cw lw lb in
  exists t t',
    forward m image w = Some t /\ forward_efficient m image w = Some t' /\
    shape t = [b; ic; H; W] /\ shape t' = shape t /\
    forall idx, in_range (shape t) idx -> elem t idx = elem t' idx.
Proof.
  intros Hi Hw Hb Hic HH HW Hp Hk m.
  apply (forward_agree w_dim ic ic k p cw lw lb image w b b H W);
    try assumption; try reflexivity; lia.
Qed.

Lemma forward_efficient_equivalent_witness :
  exists t t',
    forward (ModulatedConv2d_init 128 3 3 3 1 (fun _ => 1%R) (fun _ => 1%R) (fun _ => 0%R))
      (mkTensor [2; 3; 64; 64] (fun _ => 1%R)) (mkTensor [2; 128] (fun _ => 1%R))
    = Some t /\
    forward_efficient
      (ModulatedConv2d_init 128 3 3 3 1 (fun _ => 1%R) (fun _ => 1%R) (fun _ => 0%R))
      (mkTensor [2; 3; 64; 64] (fun _ => 1%R)) (mkTensor [2; 128] (fun _ => 1%R))
    = Some t' /\
    elem t [1; 2; 63; 0] = elem t' [1; 2; 63; 0].
Proof.
  destruct (forward_efficient_equivalent 128 3 3 1
              (fun _ => 1%R) (fun _ => 1%R) (fun _ => 0%R)
              (mkTensor [2; 3; 64; 64] (fun _ => 1%R))
              (mkTensor [2; 128] (fun _ => 1%R)) 2 64 64)
    as (t & t' & E & E' & S & _ & V); try reflexivity; try lia.
  exists t, t'. split; [exact E|]. split; [exact E'|].
  apply V. rewrite S. cbn. lia.
Defined.







(** X8. [show_tensor_images] lays out at most [num_images] images, the
    first ones, and every value it hands to [make_grid] lies between 0
    and 1: a value [v] of [-1, 1] becomes [(v + 1) / 2], the others are
    clipped. *)
Theorem shown_images_range (image_tensor : tensor) (num_images d : Z)
    (rest : list Z) :
  shape image_tensor = d :: rest -> 0 <= num_images ->
  exists t,
    shown_images image_tensor num_images = Some t /\
    shape t = Z.min num_images d :: rest /\
    forall idx,
      (0 <= elem t idx <= 1)%R /\
      ((-1 <= elem image_tensor idx <= 1)%R ->
       elem t idx = ((elem image_tensor idx + 1) / 2)%R) /\
      ((elem image_tensor idx <= -1)%R -> elem t idx = 0%R) /\
      ((1 <= elem image_tensor idx)%R -> elem t idx = 1%R).
Proof.
  intros Hs Hn. unfold shown_images, slice_upto, image_unflat, clamp.
  cbn [tmap shape elem]. rewrite Hs.
  replace (num_images <? 0) with false by (symmetry; apply Z.ltb_ge; lia).
  eexists. split; [reflexivity|]. split; [reflexivity|].
  intros idx. cbn [elem]. set (v := elem image_tensor idx).
  unfold Rmin, Rmax.
  repeat split; intros;
    destruct (Rle_dec 0 ((v + 1) / 2)); destruct (Rle_dec 1 ((v + 1) / 2));
    try destruct (Rle_dec 1 0); lra.
Qed.

Lemma shown_images_range_witness :
  exists t,
    shown_images (mkTensor [6; 3; 64; 64] (fun _ => 3%R)) 16 = Some t /\
    shape t = [6; 3; 64; 64] /\ elem t [0; 0; 0; 0] = 1%R.
Proof.
  destruct (shown_images_range (mkTensor [6; 3; 64; 64] (fun _ => 3%R)) 16 6
              [3; 64; 64] eq_refl ltac:(lia)) as (t & E & S & V).
  exists t. split; [exact E|]. split; [exact S|].
  apply (V [0; 0; 0; 0]). cbn. lra.
Defined.

(** ** Pictures *)

Section RenderingProperties.
Variable byte : R -> Z.

Lemma generate_img_example (out : tensor) (B i : Z) :
  shape out = [B; 1; 28; 28] -> 0 <= i < B ->
  exists ex im,
    getitem out i = Some ex /\ generate_img byte ex = Picture im /\
    im_size im = (28, 28) /\
    forall x y, im_pixel im x y = rendered byte out i x y.
Proof.
  intros Hs Hi. rewrite (getitem_ok out B i [1; 28; 28] Hs Hi).
  eexists. eexists. split; [reflexivity|].
  unfold generate_img, ToPILImage. cbn [shape tmap Z.eqb Pos.eqb].
  split; [reflexivity|]. split; [reflexivity|]. intros x y. reflexivity.
Qed.

Lemma tile_column (i x : Z) :
  0 <= i ->
  (29 * i + 1 <= x < 29 * i + 29
   <-> 1 <= x /\ (x - 1) mod 29 < 28 /\ (x - 1) / 29 = i).
Proof. intros Hi. Z.div_mod_to_equations. lia. Qed.

Lemma tile_offset (i x : Z) :
  0 <= i -> 29 * i + 1 <= x < 29 * i + 29 -> x - (29 * i + 1) = (x - 1) mod 29.
Proof. intros Hi Hx. Z.div_mod_to_equations. lia. Qed.

Lemma paste_examples_row (out : tensor) (B y0 : Z) (box : Z -> Z * Z) :
  shape out = [B; 1; 28; 28] ->
  (forall i, box i = (29 * i + 1, y0)) ->
  forall (cols : list nat) (bg : Image),
    (forall i, In i cols -> Z.of_nat i < B) ->
    exists img,
      paste_examples byte out box cols bg = Picture img /\
      im_size img = im_size bg /\
      forall x y,
        im_pixel img x y
        = if in_tile_row y0 cols x y
          then rendered byte out ((x - 1) / 29) ((x - 1) mod 29) (y - y0)
          else im_pixel bg x y.
Proof.
  intros Hs Hbox. induction cols as [|i cols IH]; intros bg Hc.
  - exists bg. split; [reflexivity|]. split; [reflexivity|].
    intros x y. unfold in_tile_row. cbn [existsb]. now rewrite andb_false_r.
  - cbn [paste_examples].
    destruct (generate_img_example out B (Z.of_nat i) Hs) as (ex & im & E1 & E2 & Sz & P).
    { split; [lia|]. apply Hc. now left. }
    rewrite E1, E2.
    destruct (IH (paste bg im (box (Z.of_nat i)))) as (img & E & Si & Pi).
    { intros j Hj. apply Hc. now right. }
    exists img. split; [exact E|]. split; [rewrite Si; reflexivity|].
    intros x y. rewrite Pi. unfold in_tile_row. cbn [existsb paste im_pixel].
    rewrite Hbox, Sz. cbn [fst snd].
    pose proof (tile_column (Z.of_nat i) x ltac:(lia)) as Ht.
    pose proof (tile_offset (Z.of_nat i) x ltac:(lia)) as Ho.
    destruct (existsb (fun i0 => Z.of_nat i0 =? (x - 1) / 29) cols) eqn:Ex;
      rewrite ?orb_true_r, ?orb_false_r, ?andb_true_r, ?andb_false_r.
    + destruct ((y0 <=? y) && (y <? y0 + 28) && (1 <=? x) && ((x - 1) mod 29 <? 28))
        eqn:Erc; [reflexivity|].
      destruct ((29 * Z.of_nat i + 1 <=? x) && (x <? 29 * Z.of_nat i + 1 + 28)
                && (y0 <=? y) && (y <? y0 + 28)) eqn:Ein; [|reflexivity].
      exfalso.
      rewrite !andb_true_iff, !Z.leb_le, !Z.ltb_lt in Ein.
      rewrite !andb_false_iff, !Z.leb_gt, !Z.ltb_ge in Erc. lia.
    + destruct ((29 * Z.of_nat i + 1 <=? x) && (x <? 29 * Z.of_nat i + 1 + 28)
                && (y0 <=? y) && (y <? y0 + 28)) eqn:Ein.
      * rewrite !andb_true_iff, !Z.leb_le, !Z.ltb_lt in Ein.
        replace ((y0 <=? y) && (y <? y0 + 28) && (1 <=? x) && ((x - 1) mod 29 <? 28)
                 && (Z.of_nat i =? (x - 1) / 29)) with true.
        { rewrite P, Ho by lia. replace ((x - 1) / 29) with (Z.of_nat i) by lia.
          reflexivity. }
        symmetry. rewrite !andb_true_iff, !Z.leb_le, !Z.ltb_lt, Z.eqb_eq. lia.
      * replace ((y0 <=? y) && (y <? y0 + 28) && (1 <=? x) && ((x - 1) mod 29 <? 28)
                 && (Z.of_nat i =? (x - 1) / 29)) with false; [reflexivity|].
        symmetry.
        rewrite !andb_false_iff, !Z.leb_gt, !Z.ltb_ge in Ein.
        rewrite !andb_false_iff, !Z.leb_gt, !Z.ltb_ge, Z.eqb_neq. lia.
Qed.
End RenderingProperties.

Lemma existsb_seq (v : Z) (n : nat) :
  existsb (fun i => Z.of_nat i =? v) (seq 0 n) = (0 <=? v) && (v <? Z.of_nat n).
Proof.
  apply eq_true_iff_eq. rewrite existsb_exists, andb_true_iff, Z.leb_le, Z.ltb_lt.
  split.
  - intros (i & Hi & E). apply in_seq in Hi. apply Z.eqb_eq in E. lia.
  - intros (H0 & H1). exists (Z.to_nat v). split.
    + apply in_seq. lia.
    + apply Z.eqb_eq. lia.
Qed.

Section LayoutProperties.
Variable byte : R -> Z.

Lemma examples_row_pixels (teacher_output : tensor) (B : Z) :
  shape teacher_output = [B; 1; 28; 28] -> imgs_per_row <= B ->
  exists img,
    examples_row byte teacher_output = Picture img /\
    im_size img = (291, 30) /\
    forall x y,
      im_pixel img x y
      = if in_tile_row 1 (seq 0 10) x y
        then rendered byte teacher_output ((x - 1) / 29) ((x - 1) mod 29) (y - 1)
        else 0.
Proof.
  intros Hs HB. unfold examples_row.
  change (Image_new (img_size * imgs_per_row + imgs_per_row + 1, img_size + 2))
    with (@inr exn Image (mkImage (291, 30) (fun _ _ => 0))).
  change (Z.to_nat imgs_per_row) with 10%nat.
  destruct (paste_examples_row byte teacher_output B 1 (fun i => (i * 28 + i + 1, 1))
              Hs ltac:(intros; apply f_equal2; [lia | reflexivity]) (seq 0 10)
              (mkImage (291, 30) (fun _ _ => 0)))
    as (img & E & S & P).
  { intros i Hi. apply in_seq in Hi. unfold imgs_per_row, num_classes in HB. lia. }
  exists img. split; [exact E|]. split; [exact S|]. exact P.
Qed.

End LayoutProperties.

Section VisualizationProperties.
Variable byte : R -> Z.
Context {C : Collaborators}.

(** The teacher makes a batch at every step of the curriculum; with a
    curriculum the batch depends on the teacher and the curriculum only. *)
Lemma synthesize_batch (h : Hyper) (step : nat) (w : World) :
  (step < inner_loop_iterations h)%nat ->
  exists x w',
    synthesize h step w = Done x w' /\
    shape x = [inner_loop_batch_size; 1; img_size; img_size] /\
    teacher w' = teacher w /\ curriculum w' = curriculum w /\
    trace w' = trace w /\
    (use_curriculum h = true ->
     torch_random w' = torch_random w /\
     forall w0 : World, teacher w0 = teacher w -> curriculum w0 = curriculum w ->
       batch_of h w0 step = Some x).
Proof.
  intros Hs. unfold synthesize, z_vec_at.
  destruct (use_curriculum h) eqn:U.
  - rewrite getitem_curriculum by exact Hs.
    set (z := mkTensor [inner_loop_batch_size; noise_size]
                (fun idx => curriculum w (Z.of_nat step :: idx))).
    destruct (Teacher_forward_ok true (teacher w) (teacher_buffers w) z one_hot
                inner_loop_batch_size eq_refl eq_refl) as (r & b' & E & S).
    { intros _. unfold inner_loop_batch_size. lia. }
    rewrite E. cbn [fst].
    exists (tmap tanh_normalise r), (with_buffers w b').
    split; [reflexivity|]. split; [exact S|].
    split; [reflexivity|]. split; [reflexivity|]. split; [reflexivity|].
    intros _. split; [reflexivity|]. intros w0 Ht Hc.
    unfold batch_of, noise_of, z_vec_at. rewrite U. cbn [fst].
    rewrite getitem_curriculum by exact Hs. cbn [with_torch_random curriculum].
    rewrite Hc. fold z. cbn [obind]. rewrite Ht.
    pose proof (Teacher_forward_buffers (Teacher_init (teacher w))
                  (teacher_buffers w0) (teacher_buffers w) z one_hot) as HB.
    rewrite E in HB. cbn [option_map fst] in HB.
    cbn [with_torch_random teacher teacher_buffers].
    destruct (Teacher_forward true (Teacher_init (teacher w)) (teacher_buffers w0)
                z one_hot) as [[o ?]|]; [|discriminate].
    cbn [option_map fst obind] in HB |- *. injection HB as ->. reflexivity.
  - cbn [with_torch_random torch_random teacher teacher_buffers].
    set (z := mkTensor [inner_loop_batch_size; noise_size] (randn (torch_random w))).
    destruct (Teacher_forward_ok true (teacher w) (teacher_buffers w) z one_hot
                inner_loop_batch_size eq_refl eq_refl) as (r & b' & E & S).
    { intros _. unfold inner_loop_batch_size. lia. }
    rewrite E. cbn [fst].
    eexists. eexists. split; [reflexivity|]. split; [exact S|].
    split; [reflexivity|]. split; [reflexivity|]. split; [reflexivity|].
    discriminate.
Qed.

Lemma visualization_loop_pixels (h : Hyper) (d : tensor) :
  forall (k a : nat) (bg : Image) (w : World),
    (2 * (a + k) <= S (inner_loop_iterations h))%nat ->
    exists xs img w',
      visualization_loop byte h (map (fun r => (2 * r)%nat) (seq a k)) bg w
      = Done (Picture img) w' /\
      length xs = k /\ im_size img = im_size bg /\
      teacher w' = teacher w /\ curriculum w' = curriculum w /\
      trace w' = trace w /\
      (use_curriculum h = true ->
       forall j, (j < k)%nat -> batch_of h w (2 * (a + j)) = Some (nth j xs d)) /\
      forall x y,
        im_pixel img x y
        = if in_tile_grid a k x y
          then rendered byte (nth (Z.to_nat ((y - 1) / 29) - a) xs d)
                 ((x - 1) / 29) ((x - 1) mod 29) ((y - 1) mod 29)
          else im_pixel bg x y.
Proof.
  induction k as [|k IH]; intros a bg w Hk.
  - exists [], bg, w. cbn [seq map visualization_loop length].
    do 6 (split; [reflexivity|]). split; [intros _ j Hj; lia|].
    intros x y. unfold in_tile_grid.
    replace (Z.of_nat a <=? (y - 1) / 29) with
      (negb ((y - 1) / 29 <? Z.of_nat (a + 0)))
      by (rewrite Nat.add_0_r, Z.ltb_antisym, negb_involutive; reflexivity).
    destruct ((y - 1) / 29 <? Z.of_nat (a + 0)); cbn [negb];
      rewrite ?andb_false_r; reflexivity.
  - cbn [seq map visualization_loop].
    destruct (synthesize_batch h (2 * a) w ltac:(lia))
      as (x0 & w1 & E & Sx & T1 & C1 & Tr1 & B1).
    rewrite E.
    destruct (paste_examples_row byte x0 inner_loop_batch_size
                (29 * Z.of_nat a + 1)
                (fun i => (i * img_size + i + 1,
                           Z.of_nat (2 * a) / 2 * img_size + Z.of_nat (2 * a) / 2 + 1))
                Sx) with (cols := seq 0 10) (bg := bg)
      as (bg1 & E1 & S1 & P1).
    { intros i. replace (Z.of_nat (2 * a) / 2) with (Z.of_nat a)
        by (rewrite Nat2Z.inj_mul, Z.mul_comm, Z.div_mul; lia).
      unfold img_size. apply f_equal2; lia. }
    { intros i Hi. apply in_seq in Hi. unfold inner_loop_batch_size. lia. }
    change (Z.to_nat imgs_per_row) with 10%nat. rewrite E1.
    destruct (IH (S a) bg1 w1 ltac:(lia))
      as (xs & img & w' & E' & L & Si & T' & C' & Tr' & B' & P').
    exists (x0 :: xs), img, w'. split; [exact E'|].
    split; [cbn; lia|]. split; [congruence|]. split; [congruence|].
    split; [congruence|]. split; [congruence|]. split.
    { intros U [|j] Hj.
      - cbn [nth]. rewrite Nat.add_0_r. apply (B1 U); reflexivity.
      - cbn [nth]. replace (a + S j)%nat with (S a + j)%nat by lia.
        destruct (B1 U) as (_ & Hb).
        specialize (B' U j ltac:(lia)).
        rewrite <- B'. unfold batch_of, noise_of, z_vec_at. rewrite U. cbn [fst].
        unfold curriculum_tensor. cbn [with_torch_random curriculum teacher
          teacher_buffers]. rewrite C1, T1.
        set (z := getitem _ _). destruct z as [z|]; [|reflexivity]. cbn [obind].
        pose proof (Teacher_forward_buffers (Teacher_init (teacher w))
                      (teacher_buffers w) (teacher_buffers w1) z one_hot) as HB.
        destruct (Teacher_forward true (Teacher_init (teacher w)) (teacher_buffers w)
                    z one_hot) as [[o ?]|];
          destruct (Teacher_forward true (Teacher_init (teacher w)) (teacher_buffers w1)
                      z one_hot) as [[o' ?]|]; cbn in HB |- *; congruence. }
    intros x y. rewrite P', P1. unfold in_tile_grid, in_tile_row.
    rewrite existsb_seq. change (Z.of_nat 10) with 10.
    assert (Hrow : forall r, 0 <= r ->
              (29 * r + 1 <= y < 29 * r + 29
               <-> 1 <= y /\ (y - 1) mod 29 < 28 /\ (y - 1) / 29 = r)).
    { intros r Hr. apply tile_column. exact Hr. }
    pose proof (Hrow (Z.of_nat a) ltac:(lia)) as Ha.
    pose proof (tile_offset (Z.of_nat a) y ltac:(lia)) as Hoff.
    set (col := (1 <=? x) && ((x - 1) mod 29 <? 28)).
    destruct ((1 <=? y) && ((y - 1) mod 29 <? 28)
              && (Z.of_nat (S a) <=? (y - 1) / 29)
              && ((y - 1) / 29 <? Z.of_nat (S a + k))
              && (1 <=? x) && ((x - 1) mod 29 <? 28) && ((x - 1) / 29 <? 10)) eqn:Erest.
    + rewrite !andb_true_iff, !Z.leb_le, !Z.ltb_lt in Erest.
      replace ((1 <=? y) && ((y - 1) mod 29 <? 28)
               && (Z.of_nat a <=? (y - 1) / 29)
               && ((y - 1) / 29 <? Z.of_nat (a + S k))
               && (1 <=? x) && ((x - 1) mod 29 <? 28) && ((x - 1) / 29 <? 10))
        with true
        by (symmetry; rewrite !andb_true_iff, !Z.leb_le, !Z.ltb_lt; lia).
      replace (Z.to_nat ((y - 1) / 29) - a)%nat
        with (S (Z.to_nat ((y - 1) / 29) - S a))%nat by lia.
      reflexivity.
    + rewrite !andb_false_iff, !Z.leb_gt, !Z.ltb_ge in Erest.
      destruct ((29 * Z.of_nat a + 1 <=? y) && (y <? 29 * Z.of_nat a + 1 + 28)
                && (1 <=? x) && ((x - 1) mod 29 <? 28)
                && ((0 <=? (x - 1) / 29) && ((x - 1) / 29 <? 10))) eqn:Ecur.
      * rewrite !andb_true_iff, !Z.leb_le, !Z.ltb_lt in Ecur.
        replace ((1 <=? y) && ((y - 1) mod 29 <? 28)
                 && (Z.of_nat a <=? (y - 1) / 29)
                 && ((y - 1) / 29 <? Z.of_nat (a + S k))
                 && (1 <=? x) && ((x - 1) mod 29 <? 28) && ((x - 1) / 29 <? 10))
          with true
          by (symmetry; rewrite !andb_true_iff, !Z.leb_le, !Z.ltb_lt; lia).
        replace (Z.to_nat ((y - 1) / 29) - a)%nat with O by lia.
        cbn [nth]. rewrite Hoff by lia. reflexivity.
      * rewrite !andb_false_iff, !Z.leb_gt, !Z.ltb_ge in Ecur.
        replace ((1 <=? y) && ((y - 1) mod 29 <? 28)
                 && (Z.of_nat a <=? (y - 1) / 29)
                 && ((y - 1) / 29 <? Z.of_nat (a + S k))
                 && (1 <=? x) && ((x - 1) mod 29 <? 28) && ((x - 1) / 29 <? 10))
          with false; [reflexivity|].
        symmetry. rewrite !andb_false_iff, !Z.leb_gt, !Z.ltb_ge.
        assert (0 <= (x - 1) / 29 \/ x < 1)
          by (destruct (Z_lt_le_dec x 1); [right; lia | left; apply Z.div_pos; lia]).
        assert ((y - 1) / 29 = Z.of_nat a \/ (y - 1) / 29 <> Z.of_nat a) by lia.
        lia.
Qed.

End VisualizationProperties.

(** ** Generative Teaching Network notebook: further properties *)

Lemma sum_upto_indicator (l : Z) (n : nat) :
  0 <= l ->
  sum_upto n (fun c => if c =? l then 1%R else 0%R)
  = if l <? Z.of_nat n then 1%R else 0%R.
Proof.
  intros Hl. induction n as [|n IH]; cbn [sum_upto].
  - replace (l <? Z.of_nat 0) with false by (symmetry; apply Z.ltb_ge; lia).
    reflexivity.
  - rewrite IH.
    destruct (l <? Z.of_nat n) eqn:E1; destruct (Z.of_nat n =? l) eqn:E2;
      destruct (l <? Z.of_nat (S n)) eqn:E3;
      rewrite ?Z.ltb_lt, ?Z.ltb_ge, ?Z.eqb_eq, ?Z.eqb_neq in *; try lia; lra.
Qed.

(** X9. The labels of the synthetic batch are cyclic over the classes:
    example [x] has label [x mod 10], its row of [one_hot] has a one at that
    class and zeros elsewhere, so it sums to one, and examples ten apart
    have the same label. *)
Theorem one_hot_rows (x : Z) :
  0 <= x < inner_loop_batch_size ->
  0 <= label x < num_classes /\
  elem one_hot [x; label x] = 1%R /\
  (forall c, c <> label x -> elem one_hot [x; c] = 0%R) /\
  Rsum num_classes (fun c => elem one_hot [x; c]) = 1%R /\
  label (x + num_classes) = label x.
Proof.
  intros Hx. unfold label, num_classes.
  assert (Hl : 0 <= x mod 10 < 10) by (apply Z.mod_pos_bound; lia).
  split; [exact Hl|]. cbn [one_hot elem nth]. unfold label, num_classes.
  split; [now rewrite Z.eqb_refl|]. split.
  { intros c Hc. apply Z.eqb_neq in Hc. now rewrite Hc. }
  split.
  { unfold Rsum. rewrite sum_upto_indicator by lia.
    change (Z.of_nat (Z.to_nat 10)) with 10.
    replace (x mod 10 <? 10) with true by (symmetry; apply Z.ltb_lt; lia).
    reflexivity. }
  rewrite <- (Z.mul_1_l 10) at 1. apply Z.mod_add. lia.
Qed.

Lemma one_hot_rows_witness :
  label 127 = 7 /\ elem one_hot [127; 7] = 1%R.
Proof.
  destruct (one_hot_rows 127) as (_ & H & _).
  { unfold inner_loop_batch_size. lia. }
  split; [reflexivity | exact H].
Defined.

Section PictureProperties.
Variable byte : R -> Z.



(** X12. The picture the training cell displays is 291 by 30 pixels:
    example [i] of the batch, for [i] from 0 to 9, fills the 28 by 28 pixels
    from column [29 i + 1] and row 1, and the lines between and around the
    examples stay black. *)
Theorem examples_row_layout (teacher_output : tensor) (B : Z) :
  shape teacher_output = [B; 1; 28; 28] -> 10 <= B ->
  exists img,
    examples_row byte teacher_output = Picture img /\
    im_size img = (291, 30) /\
    (forall i dx dy, 0 <= i < 10 -> 0 <= dx < 28 -> 0 <= dy < 28 ->
       getpixel img (29 * i + 1 + dx, 1 + dy)
       = Some (rendered byte teacher_output i dx dy)) /\
    (forall x y, 0 <= x < 291 -> 0 <= y < 30 ->
       x mod 29 = 0 \/ y = 0 \/ y = 29 -> getpixel img (x, y) = Some 0).
Proof.
  intros Hs HB.
  destruct (examples_row_pixels byte teacher_output B Hs HB) as (img & E & S & P).
  exists img. split; [exact E|]. split; [exact S|]. split.
  - intros i dx dy Hi Hdx Hdy. unfold getpixel. rewrite S. cbn [fst snd].
    replace ((0 <=? 29 * i + 1 + dx) && (29 * i + 1 + dx <? 291)
             && (0 <=? 1 + dy) && (1 + dy <? 30)) with true
      by (symmetry; rewrite !andb_true_iff, !Z.leb_le, !Z.ltb_lt; lia).
    rewrite P. unfold in_tile_row. rewrite existsb_seq. change (Z.of_nat 10) with 10.
    assert (Hq : (29 * i + 1 + dx - 1) / 29 = i) by (Z.div_mod_to_equations; lia).
    assert (Hr : (29 * i + 1 + dx - 1) mod 29 = dx) by (Z.div_mod_to_equations; lia).
    rewrite Hq, Hr.
    replace ((1 <=? 1 + dy) && (1 + dy <? 1 + 28) && (1 <=? 29 * i + 1 + dx)
             && (dx <? 28) && ((0 <=? i) && (i <? 10))) with true
      by (symmetry; rewrite !andb_true_iff, !Z.leb_le, !Z.ltb_lt; lia).
    do 2 f_equal. lia.
  - intros x y Hx Hy Hg. unfold getpixel. rewrite S. cbn [fst snd].
    replace ((0 <=? x) && (x <? 291) && (0 <=? y) && (y <? 30)) with true
      by (symmetry; rewrite !andb_true_iff, !Z.leb_le, !Z.ltb_lt; lia).
    rewrite P.
    replace (in_tile_row 1 (seq 0 10) x y) with false; [reflexivity|].
    symmetry. unfold in_tile_row.
    rewrite !andb_false_iff, !Z.leb_gt, !Z.ltb_ge.
    destruct Hg as [Hg|Hg]; [|lia].
    destruct (Z.eq_dec x 0) as [->|Hx0]; [lia|].
    left. right. Z.div_mod_to_equations. lia.
Qed.

End PictureProperties.


Lemma examples_row_layout_witness :
  exists img,
    examples_row (fun _ => 7) (mkTensor [128; 1; 28; 28] (fun _ => 0%R)) = Picture img /\
    getpixel img (1, 1) = Some 7 /\ getpixel img (0, 0) = Some 0.
Proof.
  destruct (examples_row_layout (fun _ => 7) (mkTensor [128; 1; 28; 28] (fun _ => 0%R))
              128 eq_refl ltac:(lia)) as (img & E & _ & T & G).
  exists img. split; [exact E|]. split.
  - apply (T 0 0 0); lia.
  - apply (G 0 0); lia.
Defined.

Section GridProperties.
Variable byte : R -> Z.
Context {C : Collaborators}.

(** X13. The visualization cell always ends with a picture of 291 columns
    and [29 * (n / 2) + 1] rows for [n] inner steps.  The teacher is asked
    for the batch of every second step, [(n + 1) / 2] batches in all; row
    [r] of the grid shows the first ten examples of the batch of step
    [2 r], each in its own 28 by 28 pixels, and the lines between them stay
    black.  For an odd [n] the batch of the last step is made and pasted
    below the last row of the picture, where nothing of it is kept.  The
    teacher's parameters and the curriculum are unchanged. *)
Theorem visualization_layout (h : Hyper) (w : World) :
  let n := inner_loop_iterations h in
  let d := mkTensor [] (fun _ => 0%R) in
  exists batches img w',
    visualization byte h w = Done (Picture img) w' /\
    teacher w' = teacher w /\ curriculum w' = curriculum w /\
    length batches = (S n / 2)%nat /\
    (use_curriculum h = true ->
     forall r, (r < length batches)%nat ->
       batch_of h w (2 * r) = Some (nth r batches d)) /\
    im_size img = (291, 29 * Z.of_nat ((n / 2)%nat) + 1) /\
    (forall (r : nat) i dx dy,
       (r < (n / 2)%nat)%nat -> 0 <= i < 10 -> 0 <= dx < 28 -> 0 <= dy < 28 ->
       getpixel img (29 * i + 1 + dx, 29 * Z.of_nat r + 1 + dy)
       = Some (rendered byte (nth r batches d) i dx dy)) /\
    (forall x y, 0 <= x < 291 -> 0 <= y < 29 * Z.of_nat ((n / 2)%nat) + 1 ->
       x mod 29 = 0 \/ y mod 29 = 0 -> getpixel img (x, y) = Some 0) /\
    (forall x dy, 0 <= dy ->
       getpixel img (x, 29 * Z.of_nat ((n / 2)%nat) + 1 + dy) = None).
Proof.
  intros n d. unfold visualization. fold n.
  assert (Hn2 : Z.of_nat n / 2 = Z.of_nat ((n / 2)%nat)).
  { rewrite Nat2Z.inj_div. reflexivity. }
  assert (Hrows : Z.of_nat n / 2 * img_size + Z.of_nat n / 2 + 1
                  = 29 * Z.of_nat ((n / 2)%nat) + 1).
  { rewrite Hn2. unfold img_size. lia. }
  rewrite Hrows.
  change (imgs_per_row * img_size + imgs_per_row + 1) with 291.
  unfold Image_new. cbn [fst snd].
  replace ((291 <? 0) || (29 * Z.of_nat ((n / 2)%nat) + 1 <? 0)) with false.
  2:{ symmetry. apply orb_false_iff. split; apply Z.ltb_ge; lia. }
  unfold range_by_two.
  assert (Hd : (2 * (S n / 2)%nat <= S n)%nat).
  { apply Nat.Div0.mul_div_le. }
  destruct (visualization_loop_pixels byte h d ((S n / 2)%nat) 0
              (mkImage (291, 29 * Z.of_nat ((n / 2)%nat) + 1) (fun _ _ => 0)) w)
    as (xs & img & w' & E & L & Sz & T & Cu & _ & B & P).
  { fold n. lia. }
  cbn [im_size im_pixel] in Sz, P.
  exists xs, img, w'. split; [exact E|]. split; [exact T|]. split; [exact Cu|].
  split; [exact L|]. split.
  { intros U r Hr. apply (B U r). lia. }
  split; [exact Sz|].
  assert (Hle : ((n / 2)%nat <= (S n / 2)%nat)%nat).
  { apply Nat.Div0.div_le_mono. lia. }
  split; [|split].
  - intros r i dx dy Hr Hi Hdx Hdy. unfold getpixel. rewrite Sz. cbn [fst snd].
    replace ((0 <=? 29 * i + 1 + dx) && (29 * i + 1 + dx <? 291)
             && (0 <=? 29 * Z.of_nat r + 1 + dy)
             && (29 * Z.of_nat r + 1 + dy <? 29 * Z.of_nat ((n / 2)%nat) + 1))
      with true
      by (symmetry; rewrite !andb_true_iff, !Z.leb_le, !Z.ltb_lt; lia).
    rewrite P. unfold in_tile_grid.
    assert (Hq : (29 * i + 1 + dx - 1) / 29 = i) by (Z.div_mod_to_equations; lia).
    assert (Hr' : (29 * i + 1 + dx - 1) mod 29 = dx) by (Z.div_mod_to_equations; lia).
    assert (Hqy : (29 * Z.of_nat r + 1 + dy - 1) / 29 = Z.of_nat r)
      by (Z.div_mod_to_equations; lia).
    assert (Hry : (29 * Z.of_nat r + 1 + dy - 1) mod 29 = dy)
      by (Z.div_mod_to_equations; lia).
    rewrite Hq, Hr', Hqy, Hry.
    replace ((1 <=? 29 * Z.of_nat r + 1 + dy) && (dy <? 28)
             && (Z.of_nat 0 <=? Z.of_nat r)
             && (Z.of_nat r <? Z.of_nat (0 + (S n / 2)%nat))
             && (1 <=? 29 * i + 1 + dx) && (dx <? 28) && (i <? 10)) with true
      by (symmetry; rewrite !andb_true_iff, !Z.leb_le, !Z.ltb_lt; lia).
    rewrite Nat2Z.id, Nat.sub_0_r. reflexivity.
  - intros x y Hx Hy Hg. unfold getpixel. rewrite Sz. cbn [fst snd].
    replace ((0 <=? x) && (x <? 291) && (0 <=? y)
             && (y <? 29 * Z.of_nat ((n / 2)%nat) + 1)) with true
      by (symmetry; rewrite !andb_true_iff, !Z.leb_le, !Z.ltb_lt; lia).
    rewrite P.
    replace (in_tile_grid 0 ((S n / 2)%nat) x y) with false; [reflexivity|].
    symmetry. unfold in_tile_grid.
    rewrite !andb_false_iff, !Z.leb_gt, !Z.ltb_ge.
    destruct Hg as [Hg|Hg].
    + destruct (Z.eq_dec x 0) as [->|Hx0]; [lia|].
      left. right. Z.div_mod_to_equations. lia.
    + destruct (Z.eq_dec y 0) as [->|Hy0]; [lia|].
      do 5 left. right. Z.div_mod_to_equations. lia.
  - intros x dy Hdy. unfold getpixel. rewrite Sz. cbn [fst snd].
    replace (29 * Z.of_nat ((n / 2)%nat) + 1 + dy <? 29 * Z.of_nat ((n / 2)%nat) + 1)
      with false by (symmetry; apply Z.ltb_ge; lia).
    now rewrite andb_false_r.
Qed.

End GridProperties.

(** ** Learner: image sizes *)

(** The side of a feature map after a 3x3 convolution and a 2x2 pooling. *)
Lemma pooled_side (h : Z) : (h + 2 * 0 - 3 + 1 - 2) / 2 + 1 = (h - 2) / 2.
Proof. Z.div_mod_to_equations. lia. Qed.

Lemma Learner_flattened_general (training : bool) (randint : Z -> Z -> Z)
    (num_conv1 num_conv2 : option Z) (p : LearnerParams) (buf : LearnerBuffers)
    (x : tensor) (b H W : Z) :
  1 <= b -> 10 <= H -> 10 <= W ->
  shape x = [b; 1; H; W] ->
  let l := Learner_init randint num_conv1 num_conv2 p in
  let h2 := ((H - 2) / 2 - 2) / 2 in
  let w2 := ((W - 2) / 2 - 2) / 2 in
  exists f bufs,
    Learner_flattened training l buf x = Some (f, bufs) /\
    shape f = [b; conv2_filters_of randint num_conv2 * h2 * w2] /\
    1 <= h2 /\ 1 <= w2.
Proof.
  intros Hb HH HW Hx l h2 w2.
  unfold Learner_flattened, l.
  cbn [Learner_init lconv1 bn1 lconv2 bn2 fc bn3].
  set (c1 := conv1_filters_of randint num_conv1).
  set (c2 := conv2_filters_of randint num_conv2).
  assert (A1 : 4 <= (H - 2) / 2) by (Z.div_mod_to_equations; lia).
  assert (A2 : 4 <= (W - 2) / 2) by (Z.div_mod_to_equations; lia).
  assert (A3 : 1 <= h2) by (subst h2; Z.div_mod_to_equations; lia).
  assert (A4 : 1 <= w2) by (subst w2; Z.div_mod_to_equations; lia).
  bind_with (Conv2d_forward_shape 1 c1 3 0 (l_conv1_w p) (l_conv1_b p) x
               b H W Hx ltac:(lia) ltac:(lia) ltac:(lia) ltac:(lia)).
  assert (Hn : training = true -> b * ((H + 2 * 0 - 3 + 1) * (W + 2 * 0 - 3 + 1)) <> 1)
    by (intros; nia).
  bind_bn (BatchNorm2d_forward_shape training c1 (1 / 10) (l_bn1_w p) (l_bn1_b p)
             (buf1 buf) (leaky_relu (1 / 10) y) b _ _ S Hn).
  bind_with (max_pool2d_shape y0 b c1 _ _ 2 S0 ltac:(lia) ltac:(lia) ltac:(lia)).
  rewrite !pooled_side in S1.
  bind_with (Conv2d_forward_shape c1 c2 3 0 (l_conv2_w p) (l_conv2_b p) y1
               b _ _ S1 ltac:(lia) ltac:(lia) ltac:(lia) ltac:(lia)).
  assert (Hn' : training = true ->
                b * (((H - 2) / 2 + 2 * 0 - 3 + 1) * ((W - 2) / 2 + 2 * 0 - 3 + 1)) <> 1)
    by (intros; nia).
  bind_bn (BatchNorm2d_forward_shape training c2 (1 / 10) (l_bn2_w p) (l_bn2_b p)
             (buf2 buf) (leaky_relu (1 / 10) y2) b _ _ S2 Hn').
  bind_with (max_pool2d_shape y3 b c2 _ _ 2 S3 ltac:(lia) ltac:(lia) ltac:(lia)).
  rewrite !pooled_side in S4. fold h2 w2 in S4.
  bind_with (flatten1_shape y4 b c2 h2 w2 S4).
  eexists. eexists. split; [reflexivity|]. split; [exact S5|]. split; assumption.
Qed.

Lemma F_linear_mismatch (x : tensor) (o i : Z) (w b : list Z -> R) (n f : Z) :
  shape x = [n; f] -> f <> i ->
  Linear_forward (Linear_init i o w b) x = None.
Proof.
  intros Hx Hf. unfold Linear_forward, F_linear. cbn. rewrite Hx. cbn.
  replace (f =? i) with false by (symmetry; apply Z.eqb_neq; lia). reflexivity.
Qed.

(** X14. [Learner.forward] accepts a batch of single-channel images of
    height [H] and width [W] (at least 10) exactly when the second pooled
    feature map has the 25 positions the fully connected layer was built
    for, that is when [((H - 2) / 2 - 2) / 2 * (((W - 2) / 2 - 2) / 2) = 25]:
    for square images, the sides 26 to 29.  Other sizes make [fc] raise. *)
Theorem Learner_forward_image_size (training : bool) (randint : Z -> Z -> Z)
    (num_conv1 num_conv2 : option Z) (p : LearnerParams) (buf : LearnerBuffers)
    (x : tensor) (b H W : Z) :
  0 < conv1_filters_of randint num_conv1 ->
  0 < conv2_filters_of randint num_conv2 ->
  2 <= b -> 10 <= H -> 10 <= W ->
  shape x = [b; 1; H; W] ->
  let l := Learner_init randint num_conv1 num_conv2 p in
  let positions := ((H - 2) / 2 - 2) / 2 * (((W - 2) / 2 - 2) / 2) in
  (positions = c2_size * c2_size ->
   exists out buf', Learner_forward training l buf x = Some (out, buf') /\
                    shape out = [b; num_classes]) /\
  (positions <> c2_size * c2_size -> Learner_forward training l buf x = None).
Proof.
  intros _ Hc2 Hb HH HW Hx l positions.
  destruct (Learner_flattened_general training randint num_conv1 num_conv2 p buf x
              b H W ltac:(lia) HH HW Hx) as (f & bufs & Ef & Sf & _ & _).
  fold l in Ef. unfold Learner_forward. rewrite Ef. cbn [obind fst snd].
  unfold l. cbn [Learner_init fc bn3].
  set (c2 := conv2_filters_of randint num_conv2) in *.
  assert (Sf' : shape f = [b; c2 * positions])
    by (rewrite Sf; unfold positions; f_equal; f_equal; ring).
  split.
  - intros Hp. rewrite Hp in Sf'.
    replace (c2 * (c2_size * c2_size)) with (c2 * c2_size * c2_size) in Sf' by ring.
    bind_with (Linear_forward_shape (c2 * c2_size * c2_size) num_classes
                 (l_fc_w p) (l_fc_b p) f b Sf').
    assert (Hb' : training = true -> b <> 1) by (intros; lia).
    bind_bn (BatchNorm1d_forward_shape training num_classes (1 / 10) (l_bn3_w p)
               (l_bn3_b p) (buf3 buf) y b S Hb').
    eexists. eexists. split; [reflexivity | exact S0].
  - intros Hp.
    rewrite (F_linear_mismatch f num_classes (c2 * c2_size * c2_size)
               (l_fc_w p) (l_fc_b p) b (c2 * positions) Sf'); [reflexivity|].
    intros Heq. apply Hp.
    assert (c2 * (positions - c2_size * c2_size) = 0) by lia. nia.
Qed.

Lemma Learner_forward_image_size_witness :
  Learner_forward true (Learner_init (fun lo _ => lo) None None zero_learner)
    (mkLearnerBuffers zero_bn zero_bn zero_bn)
    (mkTensor [128; 1; 32; 32] (fun _ => 0%R)) = None.
Proof.
  apply (Learner_forward_image_size true (fun lo _ => lo) None None zero_learner
           (mkLearnerBuffers zero_bn zero_bn zero_bn)
           (mkTensor [128; 1; 32; 32] (fun _ => 0%R)) 128 32 32);
    try reflexivity; try lia.
  vm_compute. discriminate.
Defined.

(** X15. In training mode [Learner.forward] raises on a single image: the
    last layer, a batch normalisation over the ten scores, refuses a batch
    with one value per class.  In evaluation mode the same image gets its
    ten scores. *)
Theorem Learner_forward_single_image (randint : Z -> Z -> Z)
    (num_conv1 num_conv2 : option Z) (p : LearnerParams) (buf : LearnerBuffers)
    (x : tensor) :
  0 < conv1_filters_of randint num_conv1 ->
  0 < conv2_filters_of randint num_conv2 ->
  shape x = [1; 1; img_size; img_size] ->
  let l := Learner_init randint num_conv1 num_conv2 p in
  Learner_forward true l buf x = None /\
  exists out buf', Learner_forward false l buf x = Some (out, buf') /\
                   shape out = [1; num_classes].
Proof.
  intros _ _ Hx l. unfold img_size in Hx. split.
  - destruct (Learner_flattened_general true randint num_conv1 num_conv2 p buf x
                1 28 28 ltac:(lia) ltac:(lia) ltac:(lia) Hx)
      as (f & bufs & Ef & Sf & _ & _).
    fold l in Ef. unfold Learner_forward. rewrite Ef. cbn [obind fst snd].
    unfold l. cbn [Learner_init fc bn3].
    change (((28 - 2) / 2 - 2) / 2) with c2_size in Sf.
    bind_with (Linear_forward_shape
                 (conv2_filters_of randint num_conv2 * c2_size * c2_size) num_classes
                 (l_fc_w p) (l_fc_b p) f 1 Sf).
    unfold BatchNorm_forward. unfold rank. rewrite S.
    cbn [BatchNorm1d_init bn_ranks num_features length existsb Nat.eqb nth orb].
    unfold num_classes. rewrite Z.eqb_refl. reflexivity.
  - destruct (Learner_flattened_general false randint num_conv1 num_conv2 p buf x
                1 28 28 ltac:(lia) ltac:(lia) ltac:(lia) Hx)
      as (f & bufs & Ef & Sf & _ & _).
    fold l in Ef. unfold Learner_forward. rewrite Ef. cbn [obind fst snd].
    unfold l. cbn [Learner_init fc bn3].
    change (((28 - 2) / 2 - 2) / 2) with c2_size in Sf.
    bind_with (Linear_forward_shape
                 (conv2_filters_of randint num_conv2 * c2_size * c2_size) num_classes
                 (l_fc_w p) (l_fc_b p) f 1 Sf).
    bind_bn (BatchNorm1d_forward_shape false num_classes (1 / 10) (l_bn3_w p)
               (l_bn3_b p) (buf3 buf) y 1 S ltac:(discriminate)).
    eexists. eexists. split; [reflexivity | exact S0].
Qed.

Lemma Learner_forward_single_image_witness :
  Learner_forward true (Learner_init (fun lo _ => lo) None None zero_learner)
    (mkLearnerBuffers zero_bn zero_bn zero_bn)
    (mkTensor [1; 1; 28; 28] (fun _ => 0%R)) = None.
Proof.
  apply (Learner_forward_single_image (fun lo _ => lo) None None zero_learner
           (mkLearnerBuffers zero_bn zero_bn zero_bn)
           (mkTensor [1; 1; 28; 28] (fun _ => 0%R))); reflexivity.
Defined.

(** ** The outer loop: every outcome of an iteration *)

Ltac norm_app := repeat first [rewrite <- app_assoc | progress cbn [app]].

Section OuterOutcomes.
Context {C : Collaborators}.

(** What an iteration of the training loop can do, and what it prints. *)
Lemma outer_body_outcome (h : Hyper) (test_loader : list RealBatch) (it : nat)
    (real_data : RealBatch) (w : World) :
  let lr := fst (t_learner_optim_params (teacher w)) in
  let mom := snd (t_learner_optim_params (teacher w)) in
  let at_budget := Z.of_nat it = Z.of_nat (outer_loop_iterations h) - 1 in
  exists displays losses a_train a_val a_test w',
    forallb is_display displays = true /\
    let prefix := trace w ++ ZeroGrad :: displays
                  ++ [PrintInnerLosses losses; PrintTrainAccuracy a_train] in
    (SGD_accepts lr mom = false /\
     outer_body h test_loader it real_data w = Raise ValueError w' /\
     trace w' = trace w ++ [ZeroGrad])
    \/
    (SGD_accepts lr mom = true /\ val_iterator w = [] /\
     outer_body h test_loader it real_data w = Raise StopIteration w' /\
     trace w' = prefix)
    \/
    (SGD_accepts lr mom = true /\ val_iterator w <> [] /\ at_budget /\
     test_loader = [] /\
     outer_body h test_loader it real_data w = Raise ZeroDivisionError w' /\
     trace w' = prefix ++ [PrintValAccuracy a_val])
    \/
    (SGD_accepts lr mom = true /\ val_iterator w <> [] /\ at_budget /\
     test_loader <> [] /\
     outer_body h test_loader it real_data w = Break w' /\
     val_iterator w' = tl (val_iterator w) /\
     trace w' = prefix ++ [PrintValAccuracy a_val; PrintFinalTestAccuracy a_test;
                           Plot losses])
    \/
    (SGD_accepts lr mom = true /\ val_iterator w <> [] /\ ~ at_budget /\
     outer_body h test_loader it real_data w = Next w' /\
     val_iterator w' = tl (val_iterator w) /\
     trace w' = prefix ++ [PrintValAccuracy a_val; Backward; OptimizerStep]).
Proof.
  intros lr mom at_budget.
  destruct (SGD_accepts lr mom) eqn:Hacc.
  2:{ exists [], [], 0%R, 0%R, 0%R. eexists. split; [reflexivity|].
      left. split; [reflexivity|]. split.
      - apply (outer_body_rejected h test_loader it real_data w Hacc).
      - reflexivity. }
  destruct (outer_body_unfold h test_loader it real_data w Hacc)
    as (batches & s & losses & w1 & _ & _ & _ & F & (evs & T & D) & E).
  destruct F as (_ & _ & _ & _ & Fv & _).
  cbn [innerloop_ctx new_learner sample_widths zero_grad with_unrolled
       with_torch_random with_np_random emit with_grads val_iterator trace fst snd]
    in Fv, T.
  rewrite E. cbv zeta. cbn [emit val_iterator]. rewrite Fv.
  exists evs, losses. eexists.
  destruct (val_iterator w) as [|data rest] eqn:Ev.
  { exists 0%R, 0%R. eexists. split; [exact D|]. right. left.
    split; [reflexivity|]. split; [reflexivity|]. split; [reflexivity|].
    cbn [trace emit]. rewrite T. norm_app. reflexivity. }
  eexists.
  destruct (Z.of_nat it =? Z.of_nat (outer_loop_iterations h) - 1) eqn:Ei.
  - apply Z.eqb_eq in Ei. unfold py_div.
    destruct test_loader as [|t0 test_rest].
    + cbn [length Z.of_nat]. rewrite Z.mul_0_r. cbn [Z.eqb].
      exists 0%R. eexists. split; [exact D|]. right. right. left.
      split; [reflexivity|]. split; [discriminate|]. split; [exact Ei|].
      split; [reflexivity|]. split; [reflexivity|].
      cbn [trace emit with_val_iterator]. rewrite T. norm_app. reflexivity.
    + replace (outer_loop_batch_size * Z.of_nat (length (t0 :: test_rest)) =? 0)
        with false
        by (symmetry; apply Z.eqb_neq; unfold outer_loop_batch_size; cbn [length]; lia).
      eexists. eexists. split; [exact D|]. right. right. right. left.
      split; [reflexivity|]. split; [discriminate|]. split; [exact Ei|].
      split; [discriminate|]. split; [reflexivity|]. split; [reflexivity|].
      cbn [trace emit with_val_iterator]. rewrite T. norm_app. reflexivity.
  - apply Z.eqb_neq in Ei.
    exists 0%R. eexists. split; [exact D|]. right. right. right. right.
    split; [reflexivity|]. split; [discriminate|]. split; [exact Ei|].
    split; [reflexivity|]. split.
    + rewrite optimizer_step_val_iterator. reflexivity.
    + unfold optimizer_step. cbn [grads emit with_grads with_trained trace
        with_val_iterator].
      rewrite T. norm_app. reflexivity.
Qed.

End OuterOutcomes.

Lemma count_app (p : Event -> bool) (l1 l2 : list Event) :
  count p (l1 ++ l2) = (count p l1 + count p l2)%nat.
Proof. unfold count. now rewrite filter_app, length_app. Qed.

Lemma count_displays (p : Event -> bool) (displays : list Event) :
  (forall e, is_display e = true -> p e = false) ->
  forallb is_display displays = true -> count p displays = O.
Proof.
  intros Hp. unfold count. induction displays as [|e l IH]; intros H; [reflexivity|].
  cbn [forallb] in H. apply andb_prop in H as (He & Hl).
  cbn [filter]. rewrite (Hp e He). now apply IH.
Qed.

Lemma count_cons (p : Event -> bool) (e : Event) (l : list Event) :
  count p (e :: l) = ((if p e then 1 else 0) + count p l)%nat.
Proof. unfold count. cbn [filter]. destruct (p e); reflexivity. Qed.

Lemma count_nil (p : Event -> bool) : count p [] = O.
Proof. reflexivity. Qed.

Ltac count_events D :=
  repeat first [rewrite count_app | rewrite count_cons | rewrite count_nil];
  rewrite ?(count_displays is_zero_grad _ ltac:(now intros []) D),
          ?(count_displays is_backward _ ltac:(now intros []) D),
          ?(count_displays is_optimizer_step _ ltac:(now intros []) D),
          ?(count_displays is_final_report _ ltac:(now intros []) D);
  cbn [is_zero_grad is_backward is_optimizer_step is_final_report Nat.add].

Section OuterRuns.
Context {C : Collaborators}.

(** A run of the training loop that ends: either some iteration [j] was the
    one of the budget, or every batch was used. *)
Lemma outer_loop_finished (h : Hyper) (test_loader : list RealBatch) :
  forall (train_loader : list RealBatch) (it : nat) (w w' : World),
    outer_loop h test_loader it train_loader w = Finished w' ->
    exists evs,
      trace w' = trace w ++ evs /\
      ((exists j losses a,
          (j < length train_loader)%nat /\
          Z.of_nat (it + j) = Z.of_nat (outer_loop_iterations h) - 1 /\
          count is_zero_grad evs = S j /\ count is_backward evs = j /\
          count is_optimizer_step evs = j /\ count is_final_report evs = 1%nat /\
          (length (val_iterator w') + S j = length (val_iterator w))%nat /\
          test_loader <> [] /\
          exists pre, evs = pre ++ [PrintFinalTestAccuracy a; Plot losses])
       \/
       ((forall j, (j < length train_loader)%nat ->
           Z.of_nat (it + j) <> Z.of_nat (outer_loop_iterations h) - 1) /\
        count is_zero_grad evs = length train_loader /\
        count is_backward evs = length train_loader /\
        count is_optimizer_step evs = length train_loader /\
        count is_final_report evs = O /\
        (length (val_iterator w') + length train_loader
         = length (val_iterator w))%nat)).
Proof.
  induction train_loader as [|real_data rest IH]; intros it w w' H.
  - cbn in H. injection H as <-. exists []. rewrite app_nil_r.
    split; [reflexivity|]. right. cbn [length].
    split; [intros j Hj; lia|]. do 4 (split; [reflexivity|]). lia.
  - cbn [outer_loop] in H.
    destruct (outer_body_outcome h test_loader it real_data w)
      as (displays & losses & a_train & a_val & a_test & w1 & D & Hcase).
    cbv zeta in Hcase.
    destruct Hcase as [(_ & E & _)|[(_ & _ & E & _)|[(_ & _ & _ & _ & E & _)|
                      [(_ & Hv & Hb & Ht & E & V & T)|(_ & Hv & Hb & E & V & T)]]]];
      rewrite E in H; try discriminate.
    + injection H as Hw'. subst w'.
      eexists. split; [rewrite T; norm_app; reflexivity|].
      left. exists O, losses, a_test. cbn [length].
      split; [lia|]. split; [rewrite Nat.add_0_r; exact Hb|].
      count_events D.
      repeat (split; [reflexivity|]).
      split.
      { rewrite V. destruct (val_iterator w); [contradiction | cbn; lia]. }
      split; [exact Ht|].
      eexists (ZeroGrad :: displays ++ [_; _; _]). norm_app. reflexivity.
    + destruct (IH (S it) w1 w' H) as (evs & T' & Hc).
      eexists. split; [rewrite T', T; norm_app; reflexivity|].
      assert (HV : (length (val_iterator w1) + 1 = length (val_iterator w))%nat).
      { rewrite V. destruct (val_iterator w); [contradiction | cbn; lia]. }
      destruct Hc as [(j & l' & a' & Hj & Hjb & Z1 & Z2 & Z3 & Z4 & Z5 & Z6 & pre & Z7)
                     |(Hno & Z1 & Z2 & Z3 & Z4 & Z5)].
      * left. exists (S j), l', a'. cbn [length].
        split; [lia|]. split; [rewrite <- Hjb; f_equal; lia|].
        count_events D. rewrite Z1, Z2, Z3, Z4.
        repeat (split; [reflexivity|]).
        split; [lia|]. split; [exact Z6|].
        rewrite Z7. eexists (ZeroGrad :: displays ++ [_; _; _; _; _] ++ pre).
        norm_app. reflexivity.
      * right. cbn [length]. split.
        { intros [|j] Hj; [rewrite Nat.add_0_r; exact Hb|].
          replace (it + S j)%nat with (S it + j)%nat by lia. apply Hno. lia. }
        count_events D. rewrite Z1, Z2, Z3, Z4.
        repeat (split; [reflexivity|]). lia.
Qed.

End OuterRuns.

Section OuterLoopProperties.
Context {C : Collaborators}.

Lemma outer_loop_exhausts (h : Hyper) (test_loader : list RealBatch) :
  forall (train_loader : list RealBatch) (it : nat) (w : World),
    (length (val_iterator w) < length train_loader)%nat ->
    (forall j, (j <= length (val_iterator w))%nat ->
       Z.of_nat (it + j) <> Z.of_nat (outer_loop_iterations h) - 1) ->
    exists e w',
      outer_loop h test_loader it train_loader w = Crashed e w' /\
      (e = StopIteration \/ e = ValueError) /\
      exists evs, trace w' = trace w ++ evs /\ count is_final_report evs = O.
Proof.
  induction train_loader as [|real_data rest IH]; intros it w Hl Hb;
    [cbn in Hl; lia|].
  cbn [outer_loop].
  destruct (outer_body_outcome h test_loader it real_data w)
    as (displays & losses & a_train & a_val & a_test & w1 & D & Hcase).
  cbv zeta in Hcase.
  pose proof (Hb O ltac:(lia)) as Hb0. rewrite Nat.add_0_r in Hb0.
  destruct Hcase as [(_ & E & T)|[(_ & _ & E & T)|[(_ & _ & Hat & _)|
                    [(_ & _ & Hat & _)|(_ & Hv & _ & E & V & T)]]]];
    try contradiction; rewrite E.
  - exists ValueError, w1. split; [reflexivity|]. split; [now right|].
    eexists. split; [exact T | reflexivity].
  - exists StopIteration, w1. split; [reflexivity|]. split; [now left|].
    eexists. split; [rewrite T; norm_app; reflexivity|]. count_events D. reflexivity.
  - assert (HV : (length (val_iterator w1) + 1 = length (val_iterator w))%nat).
    { rewrite V. destruct (val_iterator w); [contradiction | cbn; lia]. }
    destruct (IH (S it) w1) as (e & w' & E' & He & evs & T' & Hc).
    + cbn [length] in Hl. lia.
    + intros j Hj. replace (S it + j)%nat with (it + S j)%nat by lia.
      apply Hb. lia.
    + exists e, w'. split; [exact E'|]. split; [exact He|].
      eexists. split; [rewrite T', T; norm_app; reflexivity|].
      count_events D. exact Hc.
Qed.

(** X16. The training cell takes one validation batch per iteration from an
    iterator that is never renewed.  If the loop is to run for more
    iterations than that iterator has batches left, it cannot end normally:
    it raises, [StopIteration] at [next(val_iterator)] unless the learner's
    optimizer was refused before, and no test accuracy is printed. *)
Theorem outer_loop_validation_exhausted (h : Hyper)
    (test_loader train_loader : list RealBatch) (w : World) :
  (length (val_iterator w) < length train_loader)%nat ->
  (outer_loop_iterations h = 0 \/
   length (val_iterator w) < outer_loop_iterations h - 1)%nat ->
  exists e w',
    outer_loop h test_loader 0 train_loader w = Crashed e w' /\
    (e = StopIteration \/ e = ValueError) /\
    exists evs, trace w' = trace w ++ evs /\ count is_final_report evs = O.
Proof.
  intros Hl Hb. apply outer_loop_exhausts; [exact Hl|].
  intros j Hj. lia.
Qed.

(** X17. A run of the training cell that ends with a budget of [N]
    iterations, [N] at most the number of training batches, made [N]
    students: it called [zero_grad] [N] times, [loss.backward()] and
    [optimizer_teacher.step()] [N - 1] times each, took [N] validation
    batches, and printed one test accuracy, followed by nothing but the
    plot. *)
Theorem outer_loop_complete_run (h : Hyper)
    (test_loader train_loader : list RealBatch) (w w' : World) :
  (1 <= outer_loop_iterations h <= length train_loader)%nat ->
  outer_loop h test_loader 0 train_loader w = Finished w' ->
  let N := outer_loop_iterations h in
  exists evs pre a losses,
    trace w' = trace w ++ evs /\
    evs = pre ++ [PrintFinalTestAccuracy a; Plot losses] /\
    count is_zero_grad evs = N /\
    count is_backward evs = (N - 1)%nat /\
    count is_optimizer_step evs = (N - 1)%nat /\
    count is_final_report evs = 1%nat /\
    (length (val_iterator w') + N = length (val_iterator w))%nat /\
    test_loader <> [].
Proof.
  intros HN H N.
  destruct (outer_loop_finished h test_loader train_loader 0 w w' H)
    as (evs & T & [(j & losses & a & Hj & Hjb & Z1 & Z2 & Z3 & Z4 & Z5 & Z6 & pre & Z7)
                  |(Hno & _)]).
  - assert (j = (N - 1)%nat) as -> by (subst N; lia).
    exists evs, pre, a, losses. split; [exact T|]. split; [exact Z7|].
    replace (S (N - 1)) with N in * by (subst N; lia).
    repeat (split; [assumption|]). exact Z6.
  - exfalso. apply (Hno (N - 1)%nat); subst N; lia.
Qed.

(** X18. With a budget of zero or above the number of training batches the
    test at the end of an iteration never holds: a run that ends has trained
    the teacher on every batch, one validation batch each, and printed no
    test accuracy. *)
Theorem outer_loop_budget_not_reached (h : Hyper)
    (test_loader train_loader : list RealBatch) (w w' : World) :
  (outer_loop_iterations h = 0 \/ length train_loader < outer_loop_iterations h)%nat ->
  outer_loop h test_loader 0 train_loader w = Finished w' ->
  exists evs,
    trace w' = trace w ++ evs /\
    count is_final_report evs = O /\
    count is_zero_grad evs = length train_loader /\
    count is_backward evs = length train_loader /\
    count is_optimizer_step evs = length train_loader /\
    (length (val_iterator w') + length train_loader = length (val_iterator w))%nat.
Proof.
  intros HN H.
  destruct (outer_loop_finished h test_loader train_loader 0 w w' H)
    as (evs & T & [(j & losses & a & Hj & Hjb & _)|(_ & Z1 & Z2 & Z3 & Z4 & Z5)]).
  - exfalso. lia.
  - exists evs. repeat (split; [assumption|]). exact Z5.
Qed.

(** X19. With an empty test loader the iteration of the budget does not end
    the run normally: after the validation accuracy it divides by
    [outer_loop_batch_size * len(test_loader)], which is zero, and raises
    [ZeroDivisionError]; nothing is printed about the test set. *)
Theorem outer_loop_empty_test_loader (h : Hyper) (train_loader : list RealBatch)
    (w w_pre : World) :
  (1 <= outer_loop_iterations h <= length train_loader)%nat ->
  outer_loop h [] 0 (firstn (outer_loop_iterations h - 1) train_loader) w
  = Finished w_pre ->
  val_iterator w_pre <> [] ->
  SGD_accepts (fst (t_learner_optim_params (teacher w_pre)))
    (snd (t_learner_optim_params (teacher w_pre))) = true ->
  exists w' evs a,
    outer_loop h [] 0 train_loader w = Crashed ZeroDivisionError w' /\
    trace w' = trace w_pre ++ evs /\
    count is_final_report evs = O /\
    last evs ZeroGrad = PrintValAccuracy a.
Proof.
  intros HN E1 Hv Hacc.
  pose proof (outer_loop_prefix h [] (outer_loop_iterations h - 1) 0
                train_loader w w_pre ltac:(lia) ltac:(lia) E1) as E2.
  destruct (skipn (outer_loop_iterations h - 1) train_loader)
    as [|real_data rest] eqn:Es.
  { apply (f_equal (@length _)) in Es. rewrite length_skipn in Es. cbn in Es. lia. }
  cbn [outer_loop Nat.add] in E2.
  destruct (outer_body_outcome h [] (outer_loop_iterations h - 1) real_data w_pre)
    as (displays & losses & a_train & a_val & a_test & w1 & D & Hcase).
  cbv zeta in Hcase.
  destruct Hcase as [(Hrej & _)|[(_ & Hv' & _)|[(_ & _ & _ & _ & E & T)|
                    [(_ & _ & _ & Ht & _)|(_ & _ & Hnb & _)]]]];
    try congruence; try (exfalso; apply Hnb; lia).
  rewrite E in E2. exists w1. eexists. exists a_val.
  split; [exact E2|]. split; [rewrite T; norm_app; reflexivity|].
  split.
  - count_events D. reflexivity.
  - match goal with
    | |- last ?l _ = _ =>
        replace l with ((ZeroGrad :: displays
                         ++ [PrintInnerLosses losses; PrintTrainAccuracy a_train])
                        ++ [PrintValAccuracy a_val])
          by (norm_app; reflexivity)
    end.
    apply last_last.
Qed.

End OuterLoopProperties.

Lemma outer_loop_quadratic_run :
  exists w_fin,
    outer_loop (C := quadratic) notebook [tt] 0 (repeat tt 5) (start 5)
    = Finished w_fin.
Proof.
  destruct (outer_loop_quadratic_prefix notebook [tt] 4 0 (repeat tt 5) (start 5))
    as (w_pre & E & T & V).
  { cbn. lia. } { cbn. lia. } { cbn. lia. } { reflexivity. }
  pose proof (outer_loop_prefix (C := quadratic) notebook [tt] 4 0 (repeat tt 5)
                (start 5) w_pre ltac:(cbn; lia) ltac:(cbn; lia) E) as E2.
  destruct (outer_body_break (C := quadratic) notebook [tt] 4 tt w_pre)
    as (w_fin & _ & _ & _ & _ & Eb & _).
  - reflexivity.
  - destruct (val_iterator w_pre); [cbn in V; lia | discriminate].
  - discriminate.
  - rewrite T. cbn. lra.
  - rewrite T. cbn. lra.
  - exists w_fin. rewrite E2. cbn [skipn repeat outer_loop Nat.add].
    rewrite Eb. reflexivity.
Qed.

Lemma outer_loop_validation_exhausted_witness :
  exists e w',
    outer_loop (C := quadratic) notebook [tt] 0 [tt] (start 0) = Crashed e w'.
Proof.
  destruct (outer_loop_validation_exhausted (C := quadratic) notebook [tt] [tt]
              (start 0)) as (e & w' & E & _).
  - cbn. lia.
  - right. cbn. lia.
  - exists e, w'. exact E.
Defined.

Lemma outer_loop_complete_run_witness :
  exists (w' : @World quadratic) evs,
    trace w' = evs /\ count is_backward evs = 4%nat /\
    count is_final_report evs = 1%nat.
Proof.
  destruct outer_loop_quadratic_run as (w_fin & E).
  destruct (outer_loop_complete_run (C := quadratic) notebook [tt] (repeat tt 5)
              (start 5) w_fin ltac:(cbn; lia) E)
    as (evs & pre & a & losses & T & _ & _ & Z2 & _ & Z4 & _).
  exists w_fin, evs. split; [exact T|]. split; [exact Z2 | exact Z4].
Defined.

Lemma outer_loop_budget_not_reached_witness :
  exists (w' : @World quadratic) evs,
    trace w' = evs /\ count is_final_report evs = O /\
    count is_optimizer_step evs = 3%nat.
Proof.
  destruct (outer_loop_quadratic_prefix notebook [tt] 3 0 (repeat tt 3) (start 5))
    as (w_k & E & _).
  { cbn. lia. } { cbn. lia. } { cbn. lia. } { reflexivity. }
  destruct (outer_loop_budget_not_reached (C := quadratic) notebook [tt] (repeat tt 3)
              (start 5) w_k ltac:(right; cbn; lia) E)
    as (evs & T & Z1 & _ & _ & Z3 & _).
  exists w_k, evs. split; [exact T|]. split; [exact Z1 | exact Z3].
Defined.

Lemma outer_loop_empty_test_loader_witness :
  exists w',
    outer_loop (C := quadratic) notebook [] 0 (repeat tt 5) (start 5)
    = Crashed ZeroDivisionError w'.
Proof.
  destruct (outer_loop_quadratic_prefix notebook [] 4 0 (repeat tt 5) (start 5))
    as (w_pre & E & T & V).
  { cbn. lia. } { cbn. lia. } { cbn. lia. } { reflexivity. }
  destruct (outer_loop_empty_test_loader (C := quadratic) notebook (repeat tt 5)
              (start 5) w_pre) as (w' & evs & a & E' & _).
  - cbn. lia.
  - exact E.
  - destruct (val_iterator w_pre); [cbn in V; lia | discriminate].
  - rewrite T. apply SGD_accepts_nonneg; cbn; lra.
  - exists w'. exact E'.
Defined.

(** ** Architecture search: the order of the records *)

Lemma first_best_step (l l' : NasLocals) (evs : list Event) (i : nat)
    (arch : Z * Z) (accuracy : R) :
  first_best l evs ->
  ((best_accuracy l < accuracy)%R /\
   l' = {| best_accuracy := accuracy; filter_counts := Some arch |}
   \/ (accuracy <= best_accuracy l)%R /\ l' = l) ->
  first_best l' (evs ++ [PrintArchitecture i (fst arch) (snd arch) accuracy]).
Proof.
  unfold first_best. intros Hinv [[Hlt ->]|[Hle ->]].
  - cbn [filter_counts best_accuracy].
    destruct (filter_counts l) as [fc|].
    + destruct Hinv as (Hpos & j & pre & post & -> & Hpre & Hpost).
      split; [lra|]. exists i, (pre ++ PrintArchitecture j (fst fc) (snd fc)
                                  (best_accuracy l) :: post), [].
      split; [reflexivity|]. split; [|intros ? ? ? ? []].
      intros i' c1 c2 a Hin. apply in_app_or in Hin as [Hin|[Hin|Hin]].
      * specialize (Hpre _ _ _ _ Hin). lra.
      * injection Hin as _ _ _ <-. lra.
      * specialize (Hpost _ _ _ _ Hin). lra.
    + destruct Hinv as (H0 & Hall). split; [lra|].
      exists i, evs, []. split; [reflexivity|]. split; [|intros ? ? ? ? []].
      intros i' c1 c2 a Hin. specialize (Hall _ _ _ _ Hin). lra.
  - destruct (filter_counts l) as [fc|].
    + destruct Hinv as (Hpos & j & pre & post & -> & Hpre & Hpost).
      split; [exact Hpos|].
      exists j, pre, (post ++ [PrintArchitecture i (fst arch) (snd arch) accuracy]).
      split; [now rewrite <- app_assoc|]. split; [exact Hpre|].
      intros i' c1 c2 a Hin. apply in_app_or in Hin as [Hin|[Hin|[]]].
      * now apply (Hpost _ _ _ _ Hin).
      * injection Hin as _ _ _ <-. exact Hle.
    + destruct Hinv as (H0 & Hall). split; [exact H0|].
      intros i' c1 c2 a Hin. apply in_app_or in Hin as [Hin|[Hin|[]]].
      * now apply (Hall _ _ _ _ Hin).
      * injection Hin as _ _ _ <-. lra.
Qed.

Section SearchOrder.
Context {C : Collaborators}.

Lemma nas_loop_first_best (h : Hyper) (val_loader test_loader : list RealBatch) :
  forall (k a : nat) (l l' : NasLocals) (w w' : World) (evs : list Event),
    (a + S k = num_architectures h)%nat ->
    first_best l evs ->
    nas_loop h val_loader test_loader (seq a (S k)) l w = Done l' w' ->
    exists fc test_accuracy evs',
      filter_counts l' = Some fc /\
      trace w' = trace w ++ evs'
                 ++ [PrintBestArchitecture (fst fc) (snd fc) test_accuracy] /\
      first_best l' (evs ++ evs').
Proof.
  induction k as [|k IH]; intros a l l' w w' evs Ha Hinv H.
  - cbn [seq nas_loop] in H.
    destruct (nas_body h val_loader test_loader a l w) as [e w1|l1 w1] eqn:E;
      [discriminate|].
    injection H as <- <-.
    destruct (nas_body_done _ _ _ _ _ _ _ _ E) as (arch & acc & Hl & Ht).
    cbv zeta in Ht. destruct Ht as [[Hn _]|[_ (fc & ta & Ef & T)]]; [lia|].
    exists fc, ta, [PrintArchitecture (a + 1) (fst arch) (snd arch) acc].
    split; [exact Ef|]. split; [exact T|].
    eapply first_best_step; eassumption.
  - change (seq a (S (S k))) with (a :: seq (S a) (S k)) in H.
    cbn [nas_loop] in H.
    destruct (nas_body h val_loader test_loader a l w) as [e w1|l1 w1] eqn:E;
      [discriminate|].
    destruct (nas_body_done _ _ _ _ _ _ _ _ E) as (arch & acc & Hl & Ht).
    cbv zeta in Ht. destruct Ht as [[_ T]|[He _]]; [|lia].
    pose proof (first_best_step l l1 evs (a + 1) arch acc Hinv Hl) as Hinv1.
    destruct (IH (S a) l1 l' w1 w' _ ltac:(lia) Hinv1 H)
      as (fc & ta & evs' & Ef & T' & Hinv').
    exists fc, ta, (PrintArchitecture (a + 1) (fst arch) (snd arch) acc :: evs').
    split; [exact Ef|]. split.
    { rewrite T', T. norm_app. reflexivity. }
    rewrite <- app_assoc in Hinv'. exact Hinv'.
Qed.

End SearchOrder.

Section SearchLast.
Context {C : Collaborators}.

(** The last trial: what it prints about the test set. *)
Lemma nas_body_last (h : Hyper) (val_loader test_loader : list RealBatch)
    (i : nat) (l l' : NasLocals) (w w' : World) :
  Z.of_nat i = Z.of_nat (num_architectures h) - 1 ->
  nas_body h val_loader test_loader i l w = Done l' w' ->
  let arch := fst (sample_widths 1 64 1 128 w) in
  exists a_val fc,
    filter_counts l' = Some fc /\ test_loader <> [] /\ val_loader <> [] /\
    forall d,
      trace w' = trace w
                 ++ [PrintArchitecture (i + 1) (fst arch) (snd arch) a_val;
                     PrintBestArchitecture (fst fc) (snd fc)
                       (IZR (total_correct arch (last (unrolled w') d) test_loader)
                        / IZR (outer_loop_batch_size
                               * Z.of_nat (length test_loader)))].
Proof.
  intros Hi H arch.
  set (sw := sample_widths 1 64 1 128 w) in *.
  set (s0 := fst (new_learner arch (snd sw))).
  set (w_in := innerloop_ctx s0 (snd (new_learner arch (snd sw)))).
  destruct (inner_loop_seq h false arch
              (fst (t_learner_optim_params (teacher w)))
              (snd (t_learner_optim_params (teacher w)))
              w_in (inner_loop_iterations h) 0 s0 [] w_in)
    as (batches & s & losses & w1 & E & _ & L & U & _ & _ & evs & T & _ & N).
  { lia. } { reflexivity. } { reflexivity. } { destruct (use_curriculum h); lia. }
  rewrite (N eq_refl), app_nil_r in T.
  unfold nas_body in H. subst s0 w_in arch sw.
  cbv [sample_widths new_learner] in E, H, T, U, L |- *.
  cbn [fst snd] in E, H, T, U, L |- *.
  cbn [teacher with_unrolled with_torch_random with_np_random innerloop_ctx trace
       unrolled] in E, H, T, U.
  destruct (negb _); [discriminate|].
  rewrite E in H.
  unfold py_div in H.
  destruct (outer_loop_batch_size * Z.of_nat (length val_loader) =? 0) eqn:Ev;
    [discriminate|].
  apply Z.eqb_eq in Hi. rewrite Hi in H.
  destruct (outer_loop_batch_size * Z.of_nat (length test_loader) =? 0) eqn:Et;
    [discriminate|].
  match type of H with
  | match filter_counts ?l1 with _ => _ end = _ =>
      destruct (filter_counts l1) as [fc|] eqn:Ef; [|discriminate]
  end.
  injection H as <- <-.
  eexists. exists fc. split; [exact Ef|]. split.
  { intros ->. cbn in Et. discriminate. }
  split.
  { intros ->. cbn in Ev. discriminate. }
  intros d. cbn [trace emit unrolled]. rewrite T, U.
  cbn [app]. rewrite last_cons_default, <- L. norm_app. reflexivity.
Qed.

Lemma nas_loop_last (h : Hyper) (val_loader test_loader : list RealBatch) :
  forall (k a : nat) (l l' : NasLocals) (w w' : World),
    nas_loop h val_loader test_loader (seq a (S k)) l w = Done l' w' ->
    exists l1 w1 evs,
      nas_body h val_loader test_loader (a + k) l1 w1 = Done l' w' /\
      trace w1 = trace w ++ evs.
Proof.
  induction k as [|k IH]; intros a l l' w w' H.
  - cbn [seq nas_loop] in H.
    destruct (nas_body h val_loader test_loader a l w) as [e w1|l1 w1] eqn:E;
      [discriminate|].
    exists l, w, []. rewrite Nat.add_0_r, app_nil_r. split; [|reflexivity].
    rewrite E. exact H.
  - change (seq a (S (S k))) with (a :: seq (S a) (S k)) in H.
    cbn [nas_loop] in H.
    pose proof (nas_body_frame h val_loader test_loader a l w) as F.
    destruct (nas_body h val_loader test_loader a l w) as [e w1|l1 w1] eqn:E;
      [discriminate|].
    cbn [result_world] in F. destruct F as (_ & _ & _ & _ & evs & T & _).
    destruct (IH (S a) l1 l' w1 w' H) as (l2 & w2 & evs' & E' & T').
    exists l2, w2, (evs ++ evs'). split.
    + replace (a + S k)%nat with (S a + k)%nat by lia. exact E'.
    + rewrite T', T, app_assoc. reflexivity.
Qed.

End SearchLast.

Section SearchOrderProperties.
Context {C : Collaborators}.

(** X20. When the architecture search ends, the pair it names as best is
    the first sampled pair that reached the highest recorded validation
    accuracy: the pairs recorded before it were strictly worse, those
    after it no better, and its accuracy is positive.  The report of the
    best pair is the last thing printed. *)
Theorem nas_first_best (h : Hyper) (val_loader test_loader : list RealBatch)
    (w w' : World) (l : NasLocals) :
  (1 <= num_architectures h)%nat ->
  nas h val_loader test_loader w = Done l w' ->
  exists fc i pre post test_accuracy,
    filter_counts l = Some fc /\ (0 < best_accuracy l)%R /\
    trace w' = trace w
               ++ (pre ++ PrintArchitecture i (fst fc) (snd fc) (best_accuracy l) :: post)
               ++ [PrintBestArchitecture (fst fc) (snd fc) test_accuracy] /\
    (forall j c1 c2 a, In (PrintArchitecture j c1 c2 a) pre ->
       (a < best_accuracy l)%R) /\
    (forall j c1 c2 a, In (PrintArchitecture j c1 c2 a) post ->
       (a <= best_accuracy l)%R).
Proof.
  intros HN H. unfold nas in H.
  destruct (num_architectures h) as [|k] eqn:EN; [lia|].
  assert (H0 : first_best {| best_accuracy := 0%R; filter_counts := None |} []).
  { split; [reflexivity | intros ? ? ? ? []]. }
  destruct (nas_loop_first_best h val_loader test_loader k 0 _ l w w' []
              ltac:(lia) H0 H) as (fc & ta & evs & Ef & T & Hinv).
  unfold first_best in Hinv. rewrite Ef in Hinv. cbn [app] in Hinv.
  destruct Hinv as (Hpos & i & pre & post & -> & Hpre & Hpost).
  exists fc, i, pre, post, ta. repeat (split; [assumption|]). exact Hpost.
Qed.

End SearchOrderProperties.

Section SearchReportProperties.
Context {C : Collaborators}.

(** X21. The test accuracy the search prints beside the best pair is not
    measured on a student of that pair: it is the accuracy, on the test
    loader, of the student of the last trial, whose own widths are those
    of the record printed just before. *)
Theorem nas_test_accuracy_of_last_trial (h : Hyper)
    (val_loader test_loader : list RealBatch) (w w' : World) (l : NasLocals) :
  (1 <= num_architectures h)%nat ->
  nas h val_loader test_loader w = Done l w' ->
  exists pre c1 c2 a_val fc,
    filter_counts l = Some fc /\
    forall d,
      trace w' = trace w ++ pre
                 ++ [PrintArchitecture (num_architectures h) c1 c2 a_val;
                     PrintBestArchitecture (fst fc) (snd fc)
                       (IZR (total_correct (c1, c2) (last (unrolled w') d) test_loader)
                        / IZR (outer_loop_batch_size
                               * Z.of_nat (length test_loader)))].
Proof.
  intros HN H. unfold nas in H.
  destruct (num_architectures h) as [|k] eqn:EN; [lia|].
  destruct (nas_loop_last h val_loader test_loader k 0 _ l w w' H)
    as (l1 & w1 & evs & E & T).
  destruct (nas_body_last h val_loader test_loader (0 + k) l1 l w1 w'
              ltac:(rewrite EN; lia) E) as (a_val & fc & Ef & _ & _ & Tr).
  set (arch := fst (sample_widths 1 64 1 128 w1)) in *.
  exists evs, (fst arch), (snd arch), a_val, fc. split; [exact Ef|].
  intros d. rewrite (Tr d), T. norm_app.
  replace (0 + k + 1)%nat with (S k) by lia.
  destruct arch. reflexivity.
Qed.

(** X22. With an empty validation loader the search stops in its first
    trial, before anything is printed: the accuracy is a division by
    [outer_loop_batch_size * len(val_loader)], which is zero.  (A learning
    rate or momentum that the optimizer refuses stops it earlier still.) *)
Theorem nas_empty_val_loader (h : Hyper) (test_loader : list RealBatch) (w : World) :
  (1 <= num_architectures h)%nat ->
  exists w',
    nas h [] test_loader w
    = Raised (if SGD_accepts (fst (t_learner_optim_params (teacher w)))
                   (snd (t_learner_optim_params (teacher w)))
              then ZeroDivisionError else ValueError) w' /\
    trace w' = trace w.
Proof.
  intros HN. unfold nas.
  destruct (num_architectures h) as [|k] eqn:EN; [lia|].
  cbn [seq nas_loop].
  destruct (nas_body_unfold h [] test_loader 0
              {| best_accuracy := 0%R; filter_counts := None |} w)
    as (s & w1 & _ & _ & _ & _ & T & E).
  rewrite E. cbv zeta.
  destruct (SGD_accepts _ _); cbn [negb].
  - cbn [length Z.of_nat]. unfold py_div. rewrite Z.mul_0_r. cbn [Z.eqb].
    exists w1. split; [reflexivity | exact T].
  - eexists. split; [reflexivity|]. reflexivity.
Qed.

End SearchReportProperties.

(** With the collaborators [half_right] the search ends: the first trial
    binds [filter_counts]. *)
Lemma nas_loop_half_right (h : Hyper) :
  forall (k a : nat) (l : NasLocals) (w : @World half_right),
    (a + S k = num_architectures h)%nat ->
    teacher w = zero_teacher ->
    filter_counts l <> None \/ best_accuracy l = 0%R ->
    exists l' w',
      nas_loop (C := half_right) h [tt] [tt] (seq a (S k)) l w = Done l' w'.
Proof.
  assert (Hbody : forall a l w, teacher w = zero_teacher ->
            filter_counts l <> None \/ best_accuracy l = 0%R ->
            exists l1 w1,
              teacher w1 = zero_teacher /\ filter_counts l1 <> None /\
              nas_body (C := half_right) h [tt] [tt] a l w = Done l1 w1).
  { intros a l w Hw Hl.
    destruct (nas_body_unfold (C := half_right) h [tt] [tt] a l w)
      as (s & w1 & F1 & _ & _ & _ & _ & E).
    rewrite E. cbv zeta. rewrite Hw.
    rewrite (SGD_accepts_nonneg (fst (t_learner_optim_params zero_teacher))
               (snd (t_learner_optim_params zero_teacher)))
      by (cbn; lra).
    cbn [negb]. unfold total_correct, py_div.
    cbn [fold_left count_correct half_right length Z.of_nat Pos.of_succ_nat
         outer_loop_batch_size Z.mul Pos.mul Z.add Z.eqb].
    change (outer_loop_batch_size * 1 =? 0) with false. cbv iota.
    match goal with
    | |- context [Rlt_dec (best_accuracy l) ?a] => set (acc := a)
    end.
    assert (Hacc : (0 < acc)%R) by (subst acc; lra).
    match goal with
    | |- context [filter_counts ?x] => set (l1 := x)
    end.
    assert (Hl1 : filter_counts l1 <> None).
    { subst l1. destruct (Rlt_dec (best_accuracy l) acc) as [H|H]; [discriminate|].
      destruct Hl as [Hl|Hl]; [exact Hl | rewrite Hl in H; lra]. }
    destruct (filter_counts l1) as [fc|] eqn:Ef; [|contradiction].
    destruct (Z.of_nat a =? Z.of_nat (num_architectures h) - 1);
      eexists; eexists; (split; [|split; [|reflexivity]]);
      cbn [teacher emit]; try congruence. }
  induction k as [|k IH]; intros a l w Ha Hw Hl.
  - cbn [seq nas_loop]. destruct (Hbody a l w Hw Hl) as (l1 & w1 & _ & _ & E).
    rewrite E. eauto.
  - change (seq a (S (S k))) with (a :: seq (S a) (S k)). cbn [nas_loop].
    destruct (Hbody a l w Hw Hl) as (l1 & w1 & Hw1 & Hl1 & E). rewrite E.
    apply IH; [lia | exact Hw1 | now left].
Qed.

Lemma nas_half_right_run :
  exists l w', nas (C := half_right) notebook [tt] [tt] start_search = Done l w'.
Proof.
  unfold nas.
  apply (nas_loop_half_right notebook 9 0); [reflexivity | reflexivity | now right].
Qed.

Lemma nas_first_best_witness :
  exists (l : NasLocals) (w' : @World half_right),
    nas (C := half_right) notebook [tt] [tt] start_search = Done l w' /\
    (0 < best_accuracy l)%R.
Proof.
  destruct nas_half_right_run as (l & w' & E).
  destruct (nas_first_best (C := half_right) notebook [tt] [tt] start_search w' l
              ltac:(cbn; lia) E) as (fc & i & pre & post & ta & _ & Hpos & _).
  exists l, w'. split; [exact E | exact Hpos].
Defined.

Lemma nas_test_accuracy_of_last_trial_witness :
  exists (l : NasLocals) (w' : @World half_right) fc,
    nas (C := half_right) notebook [tt] [tt] start_search = Done l w' /\
    filter_counts l = Some fc.
Proof.
  destruct nas_half_right_run as (l & w' & E).
  destruct (nas_test_accuracy_of_last_trial (C := half_right) notebook [tt] [tt]
              start_search w' l ltac:(cbn; lia) E)
    as (pre & c1 & c2 & a_val & fc & Ef & _).
  exists l, w', fc. split; [exact E | exact Ef].
Defined.

Lemma nas_empty_val_loader_witness :
  exists w', nas (C := quadratic) notebook [] [tt] (start 5)
             = Raised ZeroDivisionError w'.
Proof.
  destruct (nas_empty_val_loader (C := quadratic) notebook [tt] (start 5)
              ltac:(cbn; lia)) as (w' & E & _).
  exists w'. rewrite E.
  rewrite (SGD_accepts_nonneg (fst (t_learner_optim_params (teacher (start 5))))
             (snd (t_learner_optim_params (teacher (start 5))))) by (cbn; lra).
  reflexivity.
Defined.

(** ** The teacher's running statistics *)

Lemma BatchNorm_forward_tracked (m : BatchNorm) (buf : BNBuffers) (x : tensor)
    (r : tensor * BNBuffers) :
  BatchNorm_forward true m buf x = Some r ->
  num_batches_tracked (snd r) = num_batches_tracked buf + 1.
Proof.
  unfold BatchNorm_forward.
  destruct (existsb _ _ && _); [|discriminate].
  destruct (per_channel (shape x) =? 1); [discriminate|].
  intros H. injection H as <-. reflexivity.
Qed.

Lemma BatchNorm_forward_eval (m : BatchNorm) (buf : BNBuffers) (x : tensor)
    (r : tensor * BNBuffers) :
  BatchNorm_forward false m buf x = Some r -> snd r = buf.
Proof.
  unfold BatchNorm_forward.
  destruct (existsb _ _ && _); [|discriminate].
  intros H. injection H as <-. reflexivity.
Qed.

Lemma Teacher_forward_inv (training : bool) (t : Teacher) (buf : TeacherBuffers)
    (x target : tensor) (r : tensor * tensor) (buf' : TeacherBuffers) :
  Teacher_forward training t buf x target = Some (r, buf') ->
  exists x1 x2 x3 x4 r1 r2 r3 r4,
    BatchNorm_forward training (bn_fc1 t) (buf_fc1 buf) x1 = Some r1 /\
    BatchNorm_forward training (bn_fc2 t) (buf_fc2 buf) x2 = Some r2 /\
    BatchNorm_forward training (bn_conv1 t) (buf_conv1 buf) x3 = Some r3 /\
    BatchNorm_forward training (bn_conv2 t) (buf_conv2 buf) x4 = Some r4 /\
    buf' = {| buf_fc1 := snd r1; buf_fc2 := snd r2;
              buf_conv1 := snd r3; buf_conv2 := snd r4 |}.
Proof.
  unfold Teacher_forward. intros H.
  apply obind_Some in H as (x1 & _ & H).
  apply obind_Some in H as (x2 & _ & H).
  apply obind_Some in H as (r1 & E1 & H).
  apply obind_Some in H as (x3 & _ & H).
  apply obind_Some in H as (x4 & _ & H).
  apply obind_Some in H as (r2 & E2 & H).
  apply obind_Some in H as (x5 & _ & H).
  apply obind_Some in H as (r3 & E3 & H).
  apply obind_Some in H as (x6 & _ & H).
  apply obind_Some in H as (r4 & E4 & H).
  injection H as _ <-.
  do 4 eexists. exists r1, r2, r3, r4.
  repeat (split; [eassumption|]). reflexivity.
Qed.

Lemma Teacher_forward_tracked (t : Teacher) (buf : TeacherBuffers)
    (x target : tensor) (r : tensor * tensor) (buf' : TeacherBuffers) :
  Teacher_forward true t buf x target = Some (r, buf') ->
  batches_tracked buf' = map (fun c => c + 1) (batches_tracked buf).
Proof.
  intros H.
  apply Teacher_forward_inv in H
    as (x1 & x2 & x3 & x4 & r1 & r2 & r3 & r4 & E1 & E2 & E3 & E4 & ->).
  unfold batches_tracked. cbn [map buf_fc1 buf_fc2 buf_conv1 buf_conv2].
  rewrite (BatchNorm_forward_tracked _ _ _ _ E1), (BatchNorm_forward_tracked _ _ _ _ E2),
    (BatchNorm_forward_tracked _ _ _ _ E3), (BatchNorm_forward_tracked _ _ _ _ E4).
  reflexivity.
Qed.

Lemma map_add_add (l : list Z) (a b : Z) :
  map (fun c => c + b) (map (fun c => c + a) l) = map (fun c => c + (a + b)) l.
Proof. rewrite map_map. apply map_ext. intros c. lia. Qed.

Lemma map_add_zero (l : list Z) : map (fun c => c + 0) l = l.
Proof. rewrite <- (map_id l) at 2. apply map_ext. intros c. lia. Qed.

Section TrackedProperties.
Context {C : Collaborators}.

Lemma synthesize_tracked (h : Hyper) (step : nat) (w w' : World) (x : tensor) :
  synthesize h step w = Done x w' ->
  batches_tracked (teacher_buffers w')
  = map (fun c => c + 1) (batches_tracked (teacher_buffers w)).
Proof.
  unfold synthesize.
  destruct (z_vec_at h step w) as [[z|] w1] eqn:Ez; [|discriminate].
  assert (Hb : teacher_buffers w1 = teacher_buffers w).
  { unfold z_vec_at in Ez. destruct (use_curriculum h); injection Ez as _ <-;
      reflexivity. }
  destruct (Teacher_forward true (Teacher_init (teacher w1)) (teacher_buffers w1)
              z one_hot) as [[out b]|] eqn:E; [|discriminate].
  intros H. injection H as _ <-. cbn [with_buffers teacher_buffers].
  rewrite <- Hb. eapply Teacher_forward_tracked. exact E.
Qed.

Lemma inner_loop_tracked (h : Hyper) (show : bool) (arch : Z * Z) (lr mom : R) :
  forall (steps : list nat) (s : Student) (losses : list R) (w w' : World)
         (r : Student * list R),
    inner_loop h show arch lr mom steps s losses w = Done r w' ->
    batches_tracked (teacher_buffers w')
    = map (fun c => c + Z.of_nat (length steps)) (batches_tracked (teacher_buffers w)).
Proof.
  induction steps as [|step rest IH]; intros s losses w w' r H.
  - cbn in H. injection H as _ <-. cbn [length Z.of_nat]. now rewrite map_add_zero.
  - cbn [inner_loop] in H.
    destruct (synthesize h step w) as [e w1|x w1] eqn:E; [discriminate|].
    apply synthesize_tracked in E.
    apply IH in H. rewrite H.
    match goal with
    | |- context [teacher_buffers (with_unrolled ?w0 _)] =>
        assert (Hb : teacher_buffers (with_unrolled w0 (unrolled w0 ++
                       [diffopt_step lr mom (learner_grad arch (fast_weights s) x) s]))
                     = teacher_buffers w1)
    end.
    { destruct (show && (Z.of_nat step =? 0));
        destruct (show && (Z.of_nat step =? Z.of_nat (inner_loop_iterations h) - 1));
        reflexivity. }
    rewrite Hb, E, map_add_add. apply map_ext. intros c. cbn [length]. lia.
Qed.

Lemma nas_body_tracked (h : Hyper) (val_loader test_loader : list RealBatch)
    (i : nat) (l l' : NasLocals) (w w' : World) :
  nas_body h val_loader test_loader i l w = Done l' w' ->
  batches_tracked (teacher_buffers w')
  = map (fun c => c + Z.of_nat (inner_loop_iterations h))
      (batches_tracked (teacher_buffers w)).
Proof.
  unfold nas_body. cbv [sample_widths new_learner]. cbn [fst snd].
  destruct (negb _); [discriminate|].
  destruct (inner_loop _ _ _ _ _ _ _ _ _) as [e w1|[s losses] w1] eqn:E;
    [discriminate|].
  apply inner_loop_tracked in E. rewrite length_seq in E.
  cbn [innerloop_ctx with_unrolled with_torch_random with_np_random teacher_buffers]
    in E.
  destruct (py_div _ _); [|discriminate].
  destruct (Z.of_nat i =? _).
  - destruct (py_div _ _); [|discriminate].
    destruct (filter_counts _); [|discriminate].
    intros H. injection H as _ <-. exact E.
  - intros H. injection H as _ <-. exact E.
Qed.

Lemma nas_loop_tracked (h : Hyper) (val_loader test_loader : list RealBatch) :
  forall (range : list nat) (l l' : NasLocals) (w w' : World),
    nas_loop h val_loader test_loader range l w = Done l' w' ->
    batches_tracked (teacher_buffers w')
    = map (fun c => c + Z.of_nat (length range * inner_loop_iterations h))
        (batches_tracked (teacher_buffers w)).
Proof.
  induction range as [|i rest IH]; intros l l' w w' H.
  - cbn in H. injection H as _ <-. cbn [length Nat.mul Z.of_nat].
    now rewrite map_add_zero.
  - cbn [nas_loop] in H.
    destruct (nas_body h val_loader test_loader i l w) as [e w1|l1 w1] eqn:E;
      [discriminate|].
    apply nas_body_tracked in E. apply IH in H. rewrite H, E, map_add_add.
    apply map_ext. intros c. cbn [length]. lia.
Qed.

End TrackedProperties.

Section TeacherStateProperties.
Context {C : Collaborators}.

(** X23. The architecture search leaves the teacher's parameters alone, but
    not its state: the teacher stays in training mode, so every batch it
    makes updates the running statistics of its four batch-norm layers.  A
    search that ends has advanced each of their counters
    [num_batches_tracked] by [num_architectures * inner_loop_iterations]. *)
Theorem nas_advances_running_statistics (h : Hyper)
    (val_loader test_loader : list RealBatch) (w w' : World) (l : NasLocals) :
  nas h val_loader test_loader w = Done l w' ->
  batches_tracked (teacher_buffers w')
  = map (fun c => c + Z.of_nat (num_architectures h * inner_loop_iterations h))
      (batches_tracked (teacher_buffers w)).
Proof.
  intros H. unfold nas in H. apply nas_loop_tracked in H.
  rewrite length_seq in H. exact H.
Qed.

End TeacherStateProperties.

Lemma nas_advances_running_statistics_witness :
  exists (l : NasLocals) (w' : @World half_right),
    nas (C := half_right) notebook [tt] [tt] start_search = Done l w' /\
    batches_tracked (teacher_buffers w') = [320; 320; 320; 320].
Proof.
  destruct nas_half_right_run as (l & w' & E).
  exists l, w'. split; [exact E|].
  rewrite (nas_advances_running_statistics (C := half_right) notebook [tt] [tt]
             start_search w' l E).
  reflexivity.
Defined.

(** X24. In evaluation mode [Teacher.forward] leaves the running statistics
    as they are; in training mode each call that returns adds one to the
    counter of each of the four batch-norm layers. *)
Theorem Teacher_forward_running_statistics (training : bool) (t : Teacher)
    (buf buf' : TeacherBuffers) (x target : tensor) (r : tensor * tensor) :
  Teacher_forward training t buf x target = Some (r, buf') ->
  if training
  then batches_tracked buf' = map (fun c => c + 1) (batches_tracked buf)
  else buf' = buf.
Proof.
  intros H. destruct training.
  - eapply Teacher_forward_tracked. exact H.
  - apply Teacher_forward_inv in H
      as (x1 & x2 & x3 & x4 & r1 & r2 & r3 & r4 & E1 & E2 & E3 & E4 & ->).
    rewrite (BatchNorm_forward_eval _ _ _ _ E1), (BatchNorm_forward_eval _ _ _ _ E2),
      (BatchNorm_forward_eval _ _ _ _ E3), (BatchNorm_forward_eval _ _ _ _ E4).
    now destruct buf.
Qed.

Lemma Teacher_forward_running_statistics_witness :
  exists buf' : TeacherBuffers, batches_tracked buf' = [1; 1; 1; 1].
Proof.
  destruct (Teacher_forward_ok true zero_teacher zero_buffers
              (mkTensor [128; 64] (fun _ => 0%R)) one_hot 128 eq_refl eq_refl)
    as (r & buf' & E & _).
  { intros _. lia. }
  exists buf'.
  apply (Teacher_forward_running_statistics true _ _ _ _ _ _ E).
Defined.

Section MomentumProperties.
Context {C : Collaborators}.

(** X25. With a momentum other than zero, the direction of the inner step
    [t] is the buffer of [diffopt]: the gradients of the steps so far,
    each weighted by the momentum to the power of its age.  The snapshot
    moves by the learning rate times that sum.  With a momentum of exactly
    zero no buffer is kept and the snapshot moves by the learning rate
    times the gradient. *)
Theorem momentum_buffer_geometric (arch : Z * Z) (lr mom : R)
    (batches : list tensor) (s : Student) :
  momentum_buffer s = None ->
  let u := s :: unroll arch lr mom batches s in
  let g := fun i => learner_grad arch (fast_weights (nth i u s)) (nth i batches one_hot) in
  forall t, (t < length batches)%nat ->
    (mom <> 0%R ->
     exists b,
       momentum_buffer (nth (S t) u s) = Some b /\
       forall k,
         b k = sum_upto (S t) (fun i => mom ^ (t - Z.to_nat i) * g (Z.to_nat i) k)%R /\
         fast_weights (nth (S t) u s) k = (fast_weights (nth t u s) k - lr * b k)%R) /\
    (mom = 0%R ->
     momentum_buffer (nth (S t) u s) = None /\
     forall k, fast_weights (nth (S t) u s) k
               = (fast_weights (nth t u s) k - lr * g t k)%R).
Proof.
  intros Hs u g.
  assert (Hstep : forall t, (t < length batches)%nat ->
            nth (S t) u s = diffopt_step lr mom (g t) (nth t u s)).
  { intros t Ht. apply (nth_unroll arch lr mom s one_hot batches s t Ht). }
  induction t as [|t IH]; intros Ht.
  - rewrite (Hstep O Ht). change (nth 0 u s) with s.
    unfold diffopt_step, update_direction. cbn [momentum_buffer fast_weights].
    rewrite Hs. split.
    + intros Hm. destruct (Req_dec_T mom 0) as [E|_]; [contradiction|].
      eexists. split; [reflexivity|]. intros k. split.
      * cbn [sum_upto Nat.sub pow Z.of_nat Z.to_nat]. lra.
      * lra.
    + intros Hm. destruct (Req_dec_T mom 0) as [_|E]; [|contradiction].
      split; [reflexivity|]. intros k. lra.
  - specialize (IH ltac:(lia)). destruct IH as (IH1 & IH0).
    rewrite (Hstep (S t) Ht).
    unfold diffopt_step, update_direction. cbn [momentum_buffer fast_weights].
    split.
    + intros Hm. destruct (IH1 Hm) as (b & Eb & Hb).
      destruct (Req_dec_T mom 0) as [E|_]; [contradiction|].
      rewrite Eb. eexists. split; [reflexivity|]. intros k.
      split; [|lra].
      destruct (Hb k) as (Hbk & _). rewrite Hbk.
      change (sum_upto (S (S t))
                (fun i => mom ^ (S t - Z.to_nat i) * g (Z.to_nat i) k)%R)
        with (sum_upto (S t)
                (fun i => mom ^ (S t - Z.to_nat i) * g (Z.to_nat i) k)
              + mom ^ (S t - Z.to_nat (Z.of_nat (S t)))
                * g (Z.to_nat (Z.of_nat (S t))) k)%R.
      rewrite Nat2Z.id, Nat.sub_diag. cbn [pow].
      rewrite Rmult_comm, <- sum_upto_scal.
      rewrite (sum_upto_ext (S t) _
                 (fun i => mom ^ (S t - Z.to_nat i) * g (Z.to_nat i) k)%R).
      * lra.
      * intros i Hi. replace (S t - Z.to_nat i)%nat with (S (t - Z.to_nat i)) by lia.
        cbn [pow]. lra.
    + intros Hm. destruct (IH0 Hm) as (E0 & _).
      destruct (Req_dec_T mom 0) as [_|E]; [|contradiction].
      split; [exact E0|]. intros k. lra.
Qed.

Lemma batch_of_curriculum (h : Hyper) (w1 w2 : World) (i : nat) :
  use_curriculum h = true ->
  teacher w1 = teacher w2 -> curriculum w1 = curriculum w2 ->
  batch_of h w1 i = batch_of h w2 i.
Proof.
  intros U Ht Hc. unfold batch_of, noise_of, z_vec_at. rewrite U. cbn [fst].
  unfold curriculum_tensor. cbn [with_torch_random curriculum]. rewrite Hc, Ht.
  destruct (getitem _ _) as [z|]; [|reflexivity]. cbn [obind].
  pose proof (Teacher_forward_buffers (Teacher_init (teacher w2))
                (teacher_buffers w1) (teacher_buffers w2) z one_hot) as HB.
  destruct (Teacher_forward true (Teacher_init (teacher w2)) (teacher_buffers w1)
              z one_hot) as [[o ?]|];
    destruct (Teacher_forward true (Teacher_init (teacher w2)) (teacher_buffers w2)
                z one_hot) as [[o' ?]|]; cbn in HB |- *; congruence.
Qed.

(** X26. With a curriculum, two inner loops run with the same teacher and
    the same curriculum train their students on the same batches, whatever
    the students, their widths, the learning rate and the momentum, and
    whatever the random generators and the teacher's running statistics
    are: every trial of the search, and every outer iteration between two
    updates of the teacher, sees the same synthetic data. *)
Theorem inner_loops_share_batches (h : Hyper) (show1 show2 : bool)
    (arch1 arch2 : Z * Z) (lr1 mom1 lr2 mom2 : R) (s1 s2 : Student)
    (w1 w2 : World) :
  use_curriculum h = true ->
  teacher w1 = teacher w2 -> curriculum w1 = curriculum w2 ->
  exists batches r1 r2 w1' w2',
    length batches = inner_loop_iterations h /\
    inner_loop h show1 arch1 lr1 mom1 (seq 0 (inner_loop_iterations h)) s1 [] w1
    = Done r1 w1' /\
    inner_loop h show2 arch2 lr2 mom2 (seq 0 (inner_loop_iterations h)) s2 [] w2
    = Done r2 w2' /\
    unrolled w1' = unrolled w1 ++ unroll arch1 lr1 mom1 batches s1 /\
    unrolled w2' = unrolled w2 ++ unroll arch2 lr2 mom2 batches s2.
Proof.
  intros U Ht Hc.
  destruct (inner_loop_seq h show1 arch1 lr1 mom1 w1 (inner_loop_iterations h) 0 s1 [] w1)
    as (b1 & s1' & l1 & w1' & E1 & B1 & _ & U1 & _).
  { lia. } { reflexivity. } { reflexivity. } { rewrite U. lia. }
  destruct (inner_loop_seq h show2 arch2 lr2 mom2 w2 (inner_loop_iterations h) 0 s2 [] w2)
    as (b2 & s2' & l2 & w2' & E2 & B2 & _ & U2 & _).
  { lia. } { reflexivity. } { reflexivity. } { rewrite U. lia. }
  assert (b2 = b1) as ->.
  { apply map_Some_inj. rewrite B1, B2. apply map_ext. intros i. symmetry.
    now apply batch_of_curriculum. }
  exists b1, (s1', l1), (s2', l2), w1', w2'. split.
  { apply (f_equal (@length _)) in B1. now rewrite !length_map, length_seq in B1. }
  repeat (split; [assumption|]). exact U2.
Qed.

End MomentumProperties.

Lemma momentum_buffer_geometric_witness :
  exists b : snapshot,
    momentum_buffer
      (nth 2 (mkStudent (fun _ => 1%R) None
              :: unroll (C := quadratic) (32, 64) 1 (1 / 2) [one_hot; one_hot]
                   (mkStudent (fun _ => 1%R) None))
         (mkStudent (fun _ => 1%R) None))
    = Some b.
Proof.
  destruct (momentum_buffer_geometric (C := quadratic) (32, 64) 1 (1 / 2)
              [one_hot; one_hot] (mkStudent (fun _ => 1%R) None) eq_refl 1%nat
              ltac:(cbn; lia)) as (H & _).
  destruct (H ltac:(lra)) as (b & Eb & _).
  exists b. exact Eb.
Defined.

Lemma inner_loops_share_batches_witness :
  exists batches : list tensor, length batches = 32%nat.
Proof.
  destruct (inner_loops_share_batches (C := quadratic) notebook true false
              (32, 64) (1, 1) (2 / 100) (1 / 2) 1 0
              (mkStudent (fun _ => 1%R) None) (mkStudent (fun _ => 0%R) None)
              (start 5) (start 3) eq_refl eq_refl eq_refl)
    as (batches & _ & _ & _ & _ & L & _).
  exists batches. exact L.
Defined.
